(** * Anjay: demo objects (Time, Portfolio) and the generic security resolver

    A shallow embedding of

    - the Time object (OID 3333) and the Portfolio object (OID 16) of the
      demo client: instance store, resource handlers and transaction
      handlers;
    - [src/core/servers/anjay_security_generic.c]: the security mode
      classifier, the transport check, the key extraction and the assembly of
      the security configuration.

    Conventions. Identifiers ([anjay_iid_t], [anjay_rid_t], [anjay_riid_t],
    all [uint16_t]) are [N]; [int] results and [int64_t] values are [Z]. An
    [AVS_LIST] is a [list], the [NULL] list being [[]]. A [char] array that
    holds a C string is the [string] before its terminator. A handler that
    can hit an [assert] returns an [option]: [None] is the failed assertion. *)

From Stdlib Require Import ZArith NArith List String Bool Lia Sorted.
Import ListNotations.
Open Scope Z_scope.

Set Implicit Arguments.

(** ** Constants of the public headers

    The error codes of [anjay/dm.h] and [ANJAY_ID_INVALID] come from headers
    that are not among the sources at hand; the development is parametric in
    them. Handlers report success by [0], so the error codes are not [0]. *)
Class AnjayDefs : Type := {
  ANJAY_ERR_INTERNAL : Z;
  ANJAY_ERR_NOT_FOUND : Z;
  ANJAY_ERR_METHOD_NOT_ALLOWED : Z;
  ANJAY_ID_INVALID : N;
  ANJAY_ERR_INTERNAL_nonzero : ANJAY_ERR_INTERNAL <> 0;
  ANJAY_ERR_NOT_FOUND_nonzero : ANJAY_ERR_NOT_FOUND <> 0;
  ANJAY_ERR_METHOD_NOT_ALLOWED_nonzero : ANJAY_ERR_METHOD_NOT_ALLOWED <> 0
}.

(** The values of Anjay 2.x: negated CoAP codes 5.00, 4.04, 4.05 and
    [UINT16_MAX]. Used for concrete runs. *)
#[export, refine] Instance anjay_2_defs : AnjayDefs := {|
  ANJAY_ERR_INTERNAL := -160;
  ANJAY_ERR_NOT_FOUND := -132;
  ANJAY_ERR_METHOD_NOT_ALLOWED := -133;
  ANJAY_ID_INVALID := 65535%N
|}.
Proof. all: discriminate. Defined.

(** ** Input contexts

    [anjay_get_string (ctx, buf, size)] belongs to the I/O layer, which is
    not among the sources. An input context is modelled by what that call
    does on it: from the previous content of the buffer and its size to the
    returned code and the string the buffer holds afterwards. *)
Definition anjay_input_ctx_t : Type := string -> N -> Z * string.

Definition anjay_get_string (ctx : anjay_input_ctx_t) (buf : string) (size : N)
  : Z * string := ctx buf size.

(** The context of a payload [v] that is read successfully. *)
Definition ctx_of_string (v : string) : anjay_input_ctx_t := fun _ _ => (0, v).

(** ** AVS_LIST idioms shared by both objects

    Both objects keep their instances in an [AVS_LIST] ordered by [iid] and
    walk it with the same three loops. *)
Section AvsList.
Context {A : Type} (iid_of : A -> N).

(** [AVS_LIST_FOREACH (it, l) { if (it->iid == iid) return it;
    else if (it->iid > iid) break; } return NULL;] *)
Fixpoint avs_find (l : list A) (iid : N) : option A :=
  match l with
  | [] => None
  | it :: rest =>
      if (iid_of it =? iid)%N then Some it
      else if (iid <? iid_of it)%N then None
      else avs_find rest iid
  end.

(** A store through the pointer that the walk of [avs_find] returns:
    [inst = find_instance (obj, iid); ... inst->field = v]. *)
Fixpoint avs_update (f : A -> A) (l : list A) (iid : N) : list A :=
  match l with
  | [] => []
  | it :: rest =>
      if (iid_of it =? iid)%N then f it :: rest
      else if (iid <? iid_of it)%N then it :: rest
      else it :: avs_update f rest iid
  end.

(** [AVS_LIST_FOREACH_PTR (ptr, &l)] stops at the first node whose [iid]
    is greater than [created->iid]; [AVS_LIST_INSERT (ptr, created)] puts
    [created] in front of it (at the end when there is none). *)
Fixpoint avs_insert (created : A) (l : list A) : list A :=
  match l with
  | [] => [created]
  | it :: rest =>
      if (iid_of created <? iid_of it)%N then created :: it :: rest
      else it :: avs_insert created rest
  end.

(** [AVS_LIST_FOREACH_PTR (it, &l)]: a node whose [iid] is the one looked
    for is deleted with [AVS_LIST_DELETE (it)] and the handler returns; a
    node with a greater [iid] ends the loop. [None] when the loop ends
    without a deletion. *)
Fixpoint avs_delete (l : list A) (iid : N) : option (list A) :=
  match l with
  | [] => None
  | it :: rest =>
      if (iid_of it =? iid)%N then Some rest
      else if (iid <? iid_of it)%N then None
      else option_map (cons it) (avs_delete rest iid)
  end.

(** Strictly ascending identifiers. *)
Definition ascending (l : list A) : Prop :=
  StronglySorted N.lt (map iid_of l).
End AvsList.

(** * The Time object *)
Module TimeObject.

Definition RID_CURRENT_TIME : N := 5506.
Definition RID_FRACTIONAL_TIME : N := 5507.
Definition RID_APPLICATION_TYPE : N := 5750.
Definition OID : N := 3333.

Record time_instance_t : Type := {
  iid : N;
  application_type : string;
  application_type_backup : string;
  last_notify_timestamp : Z
}.

Record time_object_t : Type := { instances : list time_instance_t }.

(** What [AVS_LIST_NEW_ELEMENT] delivers: zeroed memory. *)
Definition zeroed : time_instance_t :=
  {| iid := 0; application_type := ""; application_type_backup := "";
     last_notify_timestamp := 0 |}.

Definition set_iid (i : N) (inst : time_instance_t) : time_instance_t :=
  {| iid := i; application_type := application_type inst;
     application_type_backup := application_type_backup inst;
     last_notify_timestamp := last_notify_timestamp inst |}.

Definition set_application_type (s : string) (inst : time_instance_t) :=
  {| iid := iid inst; application_type := s;
     application_type_backup := application_type_backup inst;
     last_notify_timestamp := last_notify_timestamp inst |}.

Definition set_application_type_backup (s : string) (inst : time_instance_t) :=
  {| iid := iid inst; application_type := application_type inst;
     application_type_backup := s;
     last_notify_timestamp := last_notify_timestamp inst |}.

Definition set_last_notify_timestamp (t : Z) (inst : time_instance_t) :=
  {| iid := iid inst; application_type := application_type inst;
     application_type_backup := application_type_backup inst;
     last_notify_timestamp := t |}.

Definition find_instance (obj : time_object_t) (i : N) : option time_instance_t :=
  avs_find iid (instances obj) i.

(** The identifiers that [list_instances] emits, in order. *)
Definition list_instances (obj : time_object_t) : list N :=
  map iid (instances obj).

Section Handlers.
Context `{AnjayDefs}.

Definition init_instance (inst : time_instance_t) (i : N)
  : option (Z * time_instance_t) :=
  if (i =? ANJAY_ID_INVALID)%N then None   (* assert (iid != ANJAY_ID_INVALID) *)
  else Some (0, set_application_type "" (set_iid i inst)).

(** [new_element_ok] tells whether [AVS_LIST_NEW_ELEMENT] succeeds. The
    result holds the returned pointer ([None] for [NULL]) and the object. *)
Definition add_instance (new_element_ok : bool) (obj : time_object_t) (i : N)
  : option (option time_instance_t * time_object_t) :=
  match find_instance obj i with
  | Some _ => None                         (* assert (find_instance == NULL) *)
  | None =>
      if negb new_element_ok then Some (None, obj)
      else
        match init_instance zeroed i with
        | None => None
        | Some (result, created) =>
            if negb (result =? 0) then Some (None, obj)
            else Some (Some created,
                       {| instances := avs_insert iid created (instances obj) |})
        end
  end.

Definition instance_create (new_element_ok : bool) (obj : time_object_t) (i : N)
  : option (Z * time_object_t) :=
  match add_instance new_element_ok obj i with
  | None => None
  | Some (Some _, obj') => Some (0, obj')
  | Some (None, obj') => Some (ANJAY_ERR_INTERNAL, obj')
  end.

Definition instance_remove (obj : time_object_t) (i : N)
  : option (Z * time_object_t) :=
  match avs_delete iid (instances obj) i with
  | Some l => Some (0, {| instances := l |})
  | None => None                           (* assert (0) *)
  end.

Definition instance_reset (obj : time_object_t) (i : N)
  : option (Z * time_object_t) :=
  match find_instance obj i with
  | None => None                           (* assert (inst) *)
  | Some _ =>
      Some (0, {| instances :=
                    avs_update iid (set_application_type "") (instances obj) i |})
  end.

Definition resource_write (obj : time_object_t) (i rid riid : N)
    (ctx : anjay_input_ctx_t) : option (Z * time_object_t) :=
  match find_instance obj i with
  | None => None                           (* assert (inst) *)
  | Some inst =>
      if (rid =? RID_APPLICATION_TYPE)%N then
        if negb (riid =? ANJAY_ID_INVALID)%N then None
        else
          let '(result, buf) :=
            anjay_get_string ctx (application_type inst) 64 in
          Some (result,
                {| instances :=
                     avs_update iid (set_application_type buf) (instances obj) i |})
      else Some (ANJAY_ERR_METHOD_NOT_ALLOWED, obj)
  end.

Definition transaction_begin (obj : time_object_t) : Z * time_object_t :=
  (0, {| instances :=
           map (fun element =>
                  set_application_type_backup (application_type element) element)
               (instances obj) |}).

Definition transaction_rollback (obj : time_object_t) : Z * time_object_t :=
  (0, {| instances :=
           map (fun element =>
                  set_application_type (application_type_backup element) element)
               (instances obj) |}).

(** [anjay_dm_transaction_NOOP]. *)
Definition transaction_commit (obj : time_object_t) : Z * time_object_t :=
  (0, obj).

(** [time_object_create]: [Some None] is the [NULL] result. [calloc_ok] and
    [new_element_ok] tell whether the two allocations succeed. *)
Definition time_object_create (calloc_ok new_element_ok : bool)
  : option (option time_object_t) :=
  if negb calloc_ok then Some None
  else
    match add_instance new_element_ok {| instances := [] |} 0 with
    | None => None
    | Some (Some _, obj) =>
        Some (Some {| instances :=
                        avs_update iid (set_application_type "Clock 0")
                                   (instances obj) 0 |})
    | Some (None, _) => Some None
    end.
End Handlers.

(** ** Sequences of mutations

    The calls by which a server changes the object between the transaction
    handlers. *)
Inductive mutation : Type :=
| create_instance (new_element_ok : bool) (i : N)
| remove_instance (i : N)
| write_resource (i rid riid : N) (ctx : anjay_input_ctx_t).

Definition is_write (m : mutation) : bool :=
  match m with write_resource _ _ _ _ => true | _ => false end.

Section Mutations.
Context `{AnjayDefs}.

Definition apply_mutation (m : mutation) (obj : time_object_t)
  : option (Z * time_object_t) :=
  match m with
  | create_instance ok i => instance_create ok obj i
  | remove_instance i => instance_remove obj i
  | write_resource i rid riid ctx => resource_write obj i rid riid ctx
  end.

(** The object after the calls, whatever they return; [None] when a call
    fails an assertion. *)
Fixpoint apply_mutations (ms : list mutation) (obj : time_object_t)
  : option time_object_t :=
  match ms with
  | [] => Some obj
  | m :: rest =>
      match apply_mutation m obj with
      | None => None
      | Some (_, obj') => apply_mutations rest obj'
      end
  end.

(** The contract of the handlers: an instance is created under an
    identifier that is valid and not in use, and removed or written only
    when it exists; the single-instance resource is addressed without a
    resource instance. *)
Definition allowed (m : mutation) (obj : time_object_t) : Prop :=
  match m with
  | create_instance _ i => ~ In i (list_instances obj) /\ i <> ANJAY_ID_INVALID
  | remove_instance i => In i (list_instances obj)
  | write_resource i rid riid _ =>
      In i (list_instances obj)
      /\ (rid = RID_APPLICATION_TYPE -> riid = ANJAY_ID_INVALID)
  end.

Fixpoint respects_contract (ms : list mutation) (obj : time_object_t) : Prop :=
  match ms with
  | [] => True
  | m :: rest =>
      allowed m obj
      /\ forall r obj', apply_mutation m obj = Some (r, obj') ->
                        respects_contract rest obj'
  end.
End Mutations.

(** The instances are in strictly ascending order of identifier. *)
Definition sorted (obj : time_object_t) : Prop := ascending iid (instances obj).

(** The instance that a successful [instance_create] adds. *)
Definition created_instance (i : N) : time_instance_t :=
  {| iid := i; application_type := ""; application_type_backup := "";
     last_notify_timestamp := 0 |}.

(** What a write leaves alone in an instance: the identifier, the backup and
    the notification time. *)
Definition frame (inst : time_instance_t) : N * string * Z :=
  (iid inst, application_type_backup inst, last_notify_timestamp inst).

(** What a server can observe of an instance: the backup field takes no part
    in any read. *)
Definition visible (inst : time_instance_t) : N * string * Z :=
  (iid inst, application_type inst, last_notify_timestamp inst).

Definition visible_state (obj : time_object_t) : list (N * string * Z) :=
  map visible (instances obj).

(** ** [time_object_notify]

    The wall clock and [anjay_notify_changed] belong to the environment. The
    environment is a state [World] that both calls may change; [event]s record
    the calls in the order in which they are made. *)
Inductive event : Type :=
| EvClock
| EvNotify (oid iid rid : N).

(** The instances that a run at [now] notifies, and the call it makes for
    one of them. *)
Definition differs (now : Z) (it : time_instance_t) : bool :=
  negb (last_notify_timestamp it =? now).

Definition notification (it : time_instance_t) : event :=
  EvNotify 3333 (iid it) RID_CURRENT_TIME.

(** What a run makes of one instance: it passes it over, or it attempts a
    notification, and [anjay_notify_changed] returns a code. *)
Inductive attempt : Type :=
| passed_over
| attempted (result : Z).

Section Notify.
Variable World : Type.
(** [avs_time_real_to_scalar (&ts, AVS_TIME_S, avs_time_real_now ())]: the
    seconds read, or [None] when the conversion reports a failure. *)
Variable clock_seconds : World -> option Z * World.
Variable anjay_notify_changed : World -> N -> N -> N -> Z * World.

(** The body of the loop over the instances, for one instance. *)
Definition notify_instance (current_timestamp : Z) (it : time_instance_t)
    (w : World) : time_instance_t * World * list event :=
  if negb (last_notify_timestamp it =? current_timestamp) then
    let '(r, w') := anjay_notify_changed w 3333%N (iid it) RID_CURRENT_TIME in
    (if r =? 0 then set_last_notify_timestamp current_timestamp it else it,
     w', [EvNotify 3333 (iid it) RID_CURRENT_TIME])
  else (it, w, []).

Fixpoint notify_instances (current_timestamp : Z) (l : list time_instance_t)
    (w : World) : list time_instance_t * World * list event :=
  match l with
  | [] => ([], w, [])
  | it :: rest =>
      let '(it', w1, tr1) := notify_instance current_timestamp it w in
      let '(rest', w2, tr2) := notify_instances current_timestamp rest w1 in
      (it' :: rest', w2, tr1 ++ tr2)
  end.

(** [anjay] tells whether the [anjay] pointer is not [NULL]; [def] is [None]
    for a [NULL] object. *)
Definition time_object_notify (anjay : bool) (def : option time_object_t)
    (w : World) : option time_object_t * World * list event :=
  if negb anjay then (def, w, [])
  else
    match def with
    | None => (None, w, [])
    | Some obj =>
        let '(ts, w1) := clock_seconds w in
        match ts with
        | None => (Some obj, w1, [EvClock])
        | Some current_timestamp =>
            let '(l, w2, tr) :=
              notify_instances current_timestamp (instances obj) w1 in
            (Some {| instances := l |}, w2, EvClock :: tr)
        end
    end.

(** The notify operation as the specification words it, for one timestamp:
    an instance whose [last_notify_timestamp] is the timestamp is passed
    over; for any other instance a notification is issued, and the field
    becomes the timestamp exactly when the attempt reports success, the
    other three fields staying as they are. The last index lists, instance
    by instance, what was done and what the environment returned. *)
Inductive notified (now : Z)
  : World -> list time_instance_t -> list time_instance_t -> World
    -> list event -> list attempt -> Prop :=
| notified_nil w : notified now w [] [] w [] []
| notified_same w it l l' w' tr os :
    last_notify_timestamp it = now ->
    notified now w l l' w' tr os ->
    notified now w (it :: l) (it :: l') w' tr (passed_over :: os)
| notified_success w it w1 l l' w' tr os :
    last_notify_timestamp it <> now ->
    anjay_notify_changed w 3333%N (iid it) RID_CURRENT_TIME = (0, w1) ->
    notified now w1 l l' w' tr os ->
    notified now w (it :: l)
             ({| iid := iid it;
                 application_type := application_type it;
                 application_type_backup := application_type_backup it;
                 last_notify_timestamp := now |} :: l') w'
             (EvNotify 3333 (iid it) RID_CURRENT_TIME :: tr)
             (attempted 0 :: os)
| notified_failure w it r w1 l l' w' tr os :
    last_notify_timestamp it <> now ->
    anjay_notify_changed w 3333%N (iid it) RID_CURRENT_TIME = (r, w1) ->
    r <> 0 ->
    notified now w1 l l' w' tr os ->
    notified now w (it :: l) (it :: l') w'
             (EvNotify 3333 (iid it) RID_CURRENT_TIME :: tr)
             (attempted r :: os).
End Notify.

(** ** [list_resources] and [resource_read] *)
Inductive anjay_dm_resource_kind_t : Type :=
| ANJAY_DM_RES_RW
| ANJAY_DM_RES_RWM.

Inductive anjay_dm_resource_presence_t : Type :=
| ANJAY_DM_RES_ABSENT
| ANJAY_DM_RES_PRESENT.

(** The returned code and the entries that [anjay_dm_emit_res] receives, in
    order. The handler looks at neither the object nor the instance. *)
Definition list_resources
  : Z * list (N * anjay_dm_resource_kind_t * anjay_dm_resource_presence_t) :=
  (0, [(RID_CURRENT_TIME, ANJAY_DM_RES_RW, ANJAY_DM_RES_PRESENT);
       (RID_FRACTIONAL_TIME, ANJAY_DM_RES_RW, ANJAY_DM_RES_ABSENT);
       (RID_APPLICATION_TYPE, ANJAY_DM_RES_RW, ANJAY_DM_RES_PRESENT)]).

(** What a read handler returns: the call of the output context that it
    ends with, or a code of its own. *)
Inductive read_result : Type :=
| anjay_ret_i64 (v : Z)
| anjay_ret_string (s : string)
| read_code (code : Z).

Section Read.
Context `{AnjayDefs}.

(** [clock] is what [avs_time_real_to_scalar (&timestamp, AVS_TIME_S,
    avs_time_real_now ())] delivers if the handler comes to it: the seconds,
    or [None] for a failed conversion. *)
Definition resource_read (obj : time_object_t) (i rid riid : N)
    (clock : option Z) : option read_result :=
  match find_instance obj i with
  | None => None                           (* assert (inst) *)
  | Some inst =>
      if (rid =? RID_CURRENT_TIME)%N then
        if negb (riid =? ANJAY_ID_INVALID)%N then None
        else
          match clock with
          | None => Some (read_code (-1))
          | Some timestamp => Some (anjay_ret_i64 timestamp)
          end
      else if (rid =? RID_APPLICATION_TYPE)%N then
        if negb (riid =? ANJAY_ID_INVALID)%N then None
        else Some (anjay_ret_string (application_type inst))
      else Some (read_code ANJAY_ERR_METHOD_NOT_ALLOWED)
  end.
End Read.

(** ** [time_object_send]

    The batch builder and [anjay_send] belong to the environment, a state
    [World] that every call may change. The events record the calls in
    order, each with what it returned. *)
Inductive send_event : Type :=
| SendBuilderNew (ok : bool)
| SendAddCurrent (oid iid rid : N) (result : Z)
| SendBuilderCleanup
| SendBuilderCompile (ok : bool)
| SendSend (ssid : N) (result : Z)
| SendBatchRelease
| SendLog (fmt : string) (args : list Z).

(** The two values that a batch holds for an instance. *)
Definition batch_items (it : time_instance_t) : list (N * N * N) :=
  [(OID, iid it, RID_CURRENT_TIME); (OID, iid it, RID_APPLICATION_TYPE)].

Section Send.
Variable World : Type.
(** [anjay_send_batch_builder_new ()]: whether the builder is not [NULL]. *)
Variable anjay_send_batch_builder_new : World -> bool * World.
Variable anjay_send_batch_data_add_current : World -> N -> N -> N -> Z * World.
(** [anjay_send_batch_builder_compile (&builder)]: whether the batch is not
    [NULL]. *)
Variable anjay_send_batch_builder_compile : World -> bool * World.
Variable anjay_send : World -> N -> Z * World.

(** The condition of the [if] in the loop, for one instance: the second
    call is made only when the first returns [0]. *)
Definition add_instance_data (it : time_instance_t) (w : World)
  : bool * World * list send_event :=
  let '(r1, w1) :=
    anjay_send_batch_data_add_current w OID (iid it) RID_CURRENT_TIME in
  if negb (r1 =? 0) then
    (true, w1, [SendAddCurrent OID (iid it) RID_CURRENT_TIME r1])
  else
    let '(r2, w2) :=
      anjay_send_batch_data_add_current w1 OID (iid it) RID_APPLICATION_TYPE in
    (negb (r2 =? 0), w2,
     [SendAddCurrent OID (iid it) RID_CURRENT_TIME r1;
      SendAddCurrent OID (iid it) RID_APPLICATION_TYPE r2]).

(** The loop over the instances: [true] when it is left by the [return]
    after a failed addition. *)
Fixpoint add_all_data (l : list time_instance_t) (w : World)
  : bool * World * list send_event :=
  match l with
  | [] => (false, w, [])
  | it :: rest =>
      let '(failed, w1, tr1) := add_instance_data it w in
      if failed then
        (true, w1,
         tr1 ++ [SendBuilderCleanup;
                 SendLog "Failed to add batch data, result: %d" [0]])
      else
        let '(failed', w2, tr2) := add_all_data rest w1 in
        (failed', w2, tr1 ++ tr2)
  end.

(** [anjay] tells whether the [anjay] pointer is not [NULL]; [def] is [None]
    for a [NULL] object. The object is only read. *)
Definition time_object_send (anjay : bool) (def : option time_object_t)
    (w : World) : World * list send_event :=
  if negb anjay then (w, [])
  else
    match def with
    | None => (w, [])
    | Some obj =>
        let server_ssid := 1%N in
        let '(builder, w0) := anjay_send_batch_builder_new w in
        if negb builder then
          (w0, [SendBuilderNew false;
                SendLog "Failed to allocate batch builder" []])
        else
          let '(failed, w1, tr) := add_all_data (instances obj) w0 in
          if failed then (w1, SendBuilderNew true :: tr)
          else
            let '(batch, w2) := anjay_send_batch_builder_compile w1 in
            if negb batch then
              (w2, SendBuilderNew true :: tr
                   ++ [SendBuilderCompile false; SendBuilderCleanup;
                       SendLog "Batch compile failed" []])
            else
              let '(res, w3) := anjay_send w2 server_ssid in
              (w3, SendBuilderNew true :: tr
                   ++ [SendBuilderCompile true; SendSend server_ssid res]
                   ++ (if negb (res =? 0)
                       then [SendLog "Failed to send, result: %d" [res]]
                       else [])
                   ++ [SendBatchRelease])
    end.

(** The additions as the specification words them, over the items of the
    whole object in order: each item is added in the state of the
    environment that the addition before it leaves, up to and including the
    first addition that returns a code other than [0]. The result holds that
    item with its code, if there is one, the state reached and the calls
    made. *)
Fixpoint add_items_in_order (items : list (N * N * N)) (w : World)
  : option (N * N * N * Z) * World * list send_event :=
  match items with
  | [] => (None, w, [])
  | (oid, i, rid) :: rest =>
      let '(r, w1) := anjay_send_batch_data_add_current w oid i rid in
      if r =? 0 then
        let '(stop, w2, tr) := add_items_in_order rest w1 in
        (stop, w2, SendAddCurrent oid i rid 0 :: tr)
      else (Some (oid, i, rid, r), w1, [SendAddCurrent oid i rid r])
  end.
End Send.

(** The string [s] is the application type that an instance with the
    identifier [i] had at [orig]. *)
Definition from_snapshot (orig : list time_instance_t) (s : string) (i : N)
  : Prop :=
  exists old, In old orig /\ iid old = i /\ application_type old = s.

(** The calls of [anjay_send_batch_data_add_current] for a whole object,
    each returning [0]. *)
Definition all_added (l : list time_instance_t) : list send_event :=
  map (fun a : N * N * N =>
         let '(oid, i, rid) := a in SendAddCurrent oid i rid 0)
      (flat_map batch_items l).

(** During a transaction the backup of every instance is the application
    type that an instance with its identifier had at the begin, or is empty
    and the identifier is one of those [created] since. *)
Definition backups_from (orig : list time_instance_t) (created : N -> Prop)
    (l : list time_instance_t) : Prop :=
  forall e, In e l ->
            from_snapshot orig (application_type_backup e) (iid e)
            \/ (application_type_backup e = EmptyString /\ created (iid e)).

(** One call of [anjay_send_batch_data_add_current] with its result. *)
Definition added (a : N * N * N) (result : Z) : send_event :=
  let '(oid, i, rid) := a in SendAddCurrent oid i rid result.

End TimeObject.

(** * The Portfolio object *)
Module Portfolio.

Definition RID_IDENTITY : N := 0.
Definition _MAX_IDENTITY_TYPE : N := 4.
Definition MAX_IDENTITY_VALUE_SIZE : N := 256.
Definition OID : N := 16.

(** [has_identity] and [identity_value] are arrays of [_MAX_IDENTITY_TYPE]
    cells, here lists of that length. *)
Record portfolio_instance_t : Type := {
  iid : N;
  has_identity : list bool;
  identity_value : list string
}.

Record portfolio_t : Type := {
  instances : list portfolio_instance_t;
  backup : list portfolio_instance_t
}.

(** [a[i] = v] on an array held as a list; [i] is within bounds wherever the
    handlers use it. *)
Fixpoint array_set {A : Type} (a : list A) (i : nat) (v : A) : list A :=
  match a, i with
  | [], _ => []
  | _ :: rest, O => v :: rest
  | x :: rest, S j => x :: array_set rest j v
  end.

(** What [AVS_LIST_NEW_ELEMENT] delivers: zeroed memory. *)
Definition zeroed : portfolio_instance_t :=
  {| iid := 0;
     has_identity := repeat false (N.to_nat _MAX_IDENTITY_TYPE);
     identity_value := repeat EmptyString (N.to_nat _MAX_IDENTITY_TYPE) |}.

Definition set_iid (i : N) (inst : portfolio_instance_t) :=
  {| iid := i; has_identity := has_identity inst;
     identity_value := identity_value inst |}.

Definition set_has_identity (h : list bool) (inst : portfolio_instance_t) :=
  {| iid := iid inst; has_identity := h;
     identity_value := identity_value inst |}.

Definition set_identity_value (v : list string) (inst : portfolio_instance_t) :=
  {| iid := iid inst; has_identity := has_identity inst;
     identity_value := v |}.

Definition set_instances (l : list portfolio_instance_t) (obj : portfolio_t) :=
  {| instances := l; backup := backup obj |}.

Definition find_instance (obj : portfolio_t) (i : N)
  : option portfolio_instance_t :=
  avs_find iid (instances obj) i.

(** The identifiers that [list_instances] emits, in order. *)
Definition list_instances (obj : portfolio_t) : list N :=
  map iid (instances obj).

(** What a read handler hands to the output context. *)
Inductive read_result : Type :=
| anjay_ret_string (s : string).

Section Handlers.
Context `{AnjayDefs}.

(** [new_element_ok] tells whether [AVS_LIST_NEW_ELEMENT] succeeds. *)
Definition instance_create (new_element_ok : bool) (obj : portfolio_t) (i : N)
  : Z * portfolio_t :=
  if negb new_element_ok then (ANJAY_ERR_INTERNAL, obj)
  else
    let created := set_iid i zeroed in
    (0, set_instances (avs_insert iid created (instances obj)) obj).

Definition instance_remove (obj : portfolio_t) (i : N)
  : option (Z * portfolio_t) :=
  match avs_delete iid (instances obj) i with
  | Some l => Some (0, set_instances l obj)
  | None => None                             (* assert (0) *)
  end.

Definition instance_reset (obj : portfolio_t) (i : N)
  : option (Z * portfolio_t) :=
  match find_instance obj i with
  | None => None                             (* assert (inst) *)
  | Some _ =>
      let memset inst :=
        set_has_identity (repeat false (N.to_nat _MAX_IDENTITY_TYPE))
          (set_identity_value
             (repeat EmptyString (N.to_nat _MAX_IDENTITY_TYPE)) inst) in
      Some (0, set_instances (avs_update iid memset (instances obj) i) obj)
  end.

Definition resource_read (obj : portfolio_t) (i rid riid : N)
  : option read_result :=
  match find_instance obj i with
  | None => None                             (* assert (inst) *)
  | Some inst =>
      if (rid =? RID_IDENTITY)%N then
        if negb (riid <? _MAX_IDENTITY_TYPE)%N then None
        else if negb (nth (N.to_nat riid) (has_identity inst) false) then None
        else Some (anjay_ret_string
                     (nth (N.to_nat riid) (identity_value inst) EmptyString))
      else None                              (* AVS_UNREACHABLE *)
  end.

(** The local buffer [value] is not initialised; the call is given the empty
    string for its previous content, and the input context decides what it
    holds afterwards. *)
Definition resource_write (obj : portfolio_t) (i rid riid : N)
    (ctx : anjay_input_ctx_t) : option (Z * portfolio_t) :=
  match find_instance obj i with
  | None => None                             (* assert (inst) *)
  | Some _ =>
      if (rid =? RID_IDENTITY)%N then
        if (_MAX_IDENTITY_TYPE <=? riid)%N then Some (ANJAY_ERR_NOT_FOUND, obj)
        else
          let '(result, value) :=
            anjay_get_string ctx EmptyString MAX_IDENTITY_VALUE_SIZE in
          if result =? 0 then
            let store inst :=
              set_identity_value
                (array_set (identity_value inst) (N.to_nat riid) value)
                (set_has_identity
                   (array_set (has_identity inst) (N.to_nat riid) true) inst) in
            Some (result, set_instances (avs_update iid store (instances obj) i) obj)
          else Some (result, obj)
      else None                              (* AVS_UNREACHABLE *)
  end.

Definition resource_reset (obj : portfolio_t) (i rid : N)
  : option (Z * portfolio_t) :=
  match find_instance obj i with
  | None => None                             (* assert (inst) *)
  | Some _ =>
      if negb (rid =? RID_IDENTITY)%N then None
      else
        let memset inst :=
          set_has_identity (repeat false (N.to_nat _MAX_IDENTITY_TYPE)) inst in
        Some (0, set_instances (avs_update iid memset (instances obj) i) obj)
  end.

(** The sub-identifiers that [list_resource_instances] emits, in order. *)
Definition list_resource_instances (obj : portfolio_t) (i rid : N)
  : option (Z * list N) :=
  match find_instance obj i with
  | None => None                             (* assert (inst) *)
  | Some inst =>
      if (rid =? RID_IDENTITY)%N then
        Some (0, filter (fun j => nth (N.to_nat j) (has_identity inst) false)
                        (map N.of_nat (seq 0 (N.to_nat _MAX_IDENTITY_TYPE))))
      else None                              (* AVS_UNREACHABLE *)
  end.

(** [clone_ok] tells whether [AVS_LIST_SIMPLE_CLONE] finds the memory for the
    copy; the clone of the empty list is [NULL] either way. *)
Definition transaction_begin (clone_ok : bool) (obj : portfolio_t)
  : option (Z * portfolio_t) :=
  match backup obj with
  | _ :: _ => None                           (* assert (!obj->backup) *)
  | [] =>
      let cloned := if clone_ok then instances obj else [] in
      let obj' := {| instances := instances obj; backup := cloned |} in
      match cloned, instances obj with
      | [], _ :: _ => Some (ANJAY_ERR_INTERNAL, obj')
      | _, _ => Some (0, obj')
      end
  end.

Definition transaction_commit (obj : portfolio_t) : Z * portfolio_t :=
  (0, {| instances := instances obj; backup := [] |}).

Definition transaction_rollback (obj : portfolio_t) : Z * portfolio_t :=
  (0, {| instances := backup obj; backup := [] |}).

(** [portfolio_object_create]: [None] is the [NULL] result. *)
Definition portfolio_object_create (calloc_ok : bool) : option portfolio_t :=
  if negb calloc_ok then None
  else Some {| instances := []; backup := [] |}.
End Handlers.


(** ** Sequences of mutations *)
Inductive mutation : Type :=
| create_instance (new_element_ok : bool) (i : N)
| remove_instance (i : N)
| write_resource (i rid riid : N) (ctx : anjay_input_ctx_t).

Section Mutations.
Context `{AnjayDefs}.

Definition apply_mutation (m : mutation) (obj : portfolio_t)
  : option (Z * portfolio_t) :=
  match m with
  | create_instance ok i => Some (instance_create ok obj i)
  | remove_instance i => instance_remove obj i
  | write_resource i rid riid ctx => resource_write obj i rid riid ctx
  end.

(** The object after the calls, whatever they return; [None] when a call
    fails an assertion. *)
Fixpoint apply_mutations (ms : list mutation) (obj : portfolio_t)
  : option portfolio_t :=
  match ms with
  | [] => Some obj
  | m :: rest =>
      match apply_mutation m obj with
      | None => None
      | Some (_, obj') => apply_mutations rest obj'
      end
  end.

(** The contract of the handlers: an instance is created under an
    identifier that is not in use, and removed or written only when it
    exists; the only resource is Identity. *)
Definition allowed (m : mutation) (obj : portfolio_t) : Prop :=
  match m with
  | create_instance _ i => ~ In i (list_instances obj)
  | remove_instance i => In i (list_instances obj)
  | write_resource i rid _ _ => In i (list_instances obj) /\ rid = RID_IDENTITY
  end.

Fixpoint respects_contract (ms : list mutation) (obj : portfolio_t) : Prop :=
  match ms with
  | [] => True
  | m :: rest =>
      allowed m obj
      /\ forall r obj', apply_mutation m obj = Some (r, obj') ->
                        respects_contract rest obj'
  end.
End Mutations.

(** The instances are in strictly ascending order of identifier. *)
Definition sorted (obj : portfolio_t) : Prop := ascending iid (instances obj).

(** The instance that a successful [instance_create] adds: no slot is
    present and every value is the empty string. *)
Definition created_instance (i : N) : portfolio_instance_t :=
  {| iid := i;
     has_identity := [false; false; false; false];
     identity_value := [EmptyString; EmptyString; EmptyString; EmptyString] |}.

(** ** [portfolio_get_instances]

    [alloc_ok k] tells whether the allocation of the [k]-th element of the
    output list succeeds. *)
Fixpoint get_instances_loop (alloc_ok : nat -> bool) (k : nat)
    (l : list portfolio_instance_t) (out : list N)
  : Z * list N * list string :=
  match l with
  | [] => (0, out, [])
  | it :: rest =>
      if negb (alloc_ok k) then (-1, out, ["out of memory"%string])
      else get_instances_loop alloc_ok (S k) rest (out ++ [iid it])
  end.

(** The result holds the returned code, the list that [*out] designates
    afterwards and the lines logged at level [ERROR]. *)
Definition portfolio_get_instances (alloc_ok : nat -> bool) (obj : portfolio_t)
    (out : list N) : option (Z * list N * list string) :=
  match out with
  | _ :: _ => None                           (* assert (!*out) *)
  | [] => Some (get_instances_loop alloc_ok 0 (instances obj) [])
  end.

(** Every instance holds arrays of [_MAX_IDENTITY_TYPE] cells. *)
Definition well_formed_instance (inst : portfolio_instance_t) : Prop :=
  List.length (has_identity inst) = N.to_nat _MAX_IDENTITY_TYPE
  /\ List.length (identity_value inst) = N.to_nat _MAX_IDENTITY_TYPE.

Definition well_formed (obj : portfolio_t) : Prop :=
  Forall well_formed_instance (instances obj).

(** The store of a successful write into slot [riid]. *)
Definition store_identity (riid : N) (value : string)
    (inst : portfolio_instance_t) : portfolio_instance_t :=
  set_identity_value
    (array_set (identity_value inst) (N.to_nat riid) value)
    (set_has_identity (array_set (has_identity inst) (N.to_nat riid) true) inst).

(** The object with another snapshot. *)
Definition set_backup (b : list portfolio_instance_t) (obj : portfolio_t) :=
  {| instances := instances obj; backup := b |}.

(** What [instance_reset] stores into an instance, and what
    [resource_reset] does. *)
Definition reset_instance (inst : portfolio_instance_t) : portfolio_instance_t :=
  set_has_identity (repeat false (N.to_nat _MAX_IDENTITY_TYPE))
    (set_identity_value (repeat EmptyString (N.to_nat _MAX_IDENTITY_TYPE)) inst).

Definition reset_resource (inst : portfolio_instance_t) : portfolio_instance_t :=
  set_has_identity (repeat false (N.to_nat _MAX_IDENTITY_TYPE)) inst.

End Portfolio.

(** * The generic security resolver ([anjay_security_generic.c]) *)
Module Security.

Definition bytes : Type := list Byte.byte.

Record anjay_uri_path_t : Type := MAKE_RESOURCE_PATH {
  path_oid : N;
  path_iid : N;
  path_rid : N
}.

(** Modelled from the spec: the transport descriptor, "whose security
    property is one of {Undefined, PlainText, Encrypted}", produced by the URI
    parser as "{uri_scheme, security_property}". The declaration of
    [anjay_transport_info_t] is in a header that is not among the sources. *)
Inductive anjay_transport_security_t : Type :=
| ANJAY_TRANSPORT_SECURITY_UNDEFINED
| ANJAY_TRANSPORT_NOSEC
| ANJAY_TRANSPORT_ENCRYPTED.

Record anjay_transport_info_t : Type := {
  uri_scheme : string;
  security : anjay_transport_security_t
}.

Definition transport_security_eqb (a b : anjay_transport_security_t) : bool :=
  match a, b with
  | ANJAY_TRANSPORT_SECURITY_UNDEFINED, ANJAY_TRANSPORT_SECURITY_UNDEFINED
  | ANJAY_TRANSPORT_NOSEC, ANJAY_TRANSPORT_NOSEC
  | ANJAY_TRANSPORT_ENCRYPTED, ANJAY_TRANSPORT_ENCRYPTED => true
  | _, _ => false
  end.

(** [anjay_server_dtls_keys_t]: each buffer with its size field is the list
    of the bytes in use; zeroed memory is the empty list. *)
Record anjay_server_dtls_keys_t : Type := {
  pk_or_identity : bytes;
  server_pk_or_identity : bytes;
  secret_key : bytes
}.

(** Modelled from the spec: the security descriptor, "carrying either nothing
    (NoSecurity), a PSK identity/key pair, or a certificate chain + private
    key plus an optional peer-pinning record (association data + its size)".
    The types are those of the networking library, which is not among the
    sources; the fields are the ones that the resolver assigns. *)
Record avs_net_psk_info_t : Type := {
  psk : bytes;
  identity : bytes
}.

Record avs_net_certificate_info_t : Type := {
  server_cert_validation : bool;
  ignore_system_trust_store : bool;
  dane : bool;
  client_cert : bytes;
  client_key : bytes
}.

Inductive avs_net_security_info_t : Type :=
| security_info_zeroed
| avs_net_security_info_from_psk (info : avs_net_psk_info_t)
| avs_net_security_info_from_certificates (info : avs_net_certificate_info_t).

Inductive avs_net_socket_dane_certificate_usage_t : Type :=
| AVS_NET_SOCKET_DANE_CA_CONSTRAINT
| AVS_NET_SOCKET_DANE_SERVICE_CERTIFICATE_CONSTRAINT
| AVS_NET_SOCKET_DANE_TRUST_ANCHOR_ASSERTION
| AVS_NET_SOCKET_DANE_DOMAIN_ISSUED_CERTIFICATE.

Record avs_net_socket_dane_tlsa_record_t : Type := {
  certificate_usage : avs_net_socket_dane_certificate_usage_t;
  association_data : bytes
}.

(** [dane_tlsa_record] is a pointer: [true] when it points at the record
    that [security_config_with_data_t] stores next to the configuration,
    [false] for [NULL]. *)
Record anjay_security_config_t : Type := {
  security_info : avs_net_security_info_t;
  tls_ciphersuites : list Z;
  dane_tlsa_record : bool
}.

Record security_config_with_data_t : Type := {
  security_config : anjay_security_config_t;
  dtls_keys : anjay_server_dtls_keys_t;
  dane_tlsa_record_data : avs_net_socket_dane_tlsa_record_t
}.

(** The record that the configuration pins, if any. *)
Definition pinned_record (r : security_config_with_data_t)
  : option avs_net_socket_dane_tlsa_record_t :=
  if dane_tlsa_record (security_config r) then Some (dane_tlsa_record_data r)
  else None.

Record anjay_connection_info_t : Type := {
  security_iid : N;
  ssid : N;
  transport_info : option anjay_transport_info_t;
  is_encrypted : bool
}.

(** Modelled from the spec: the resource-storage reader,
    "read_resource_as_string/int/bytes (object_id, instance_id, resource_id)
    -> Result<Value, Error>". The data model behind [anjay_t] is not among
    the sources; [anjay_t] carries what a read of each path delivers, [None]
    for a read that reports an error (the destination is then left as it
    was). A read into a buffer is given the capacity of the buffer. *)
Record anjay_t : Type := {
  default_tls_ciphersuites : list Z;
  dm_i64 : anjay_uri_path_t -> option Z;
  dm_bytes : anjay_uri_path_t -> N -> option bytes
}.

(** What the resolver takes from headers and units that are not among the
    sources: the codes of [anjay_security_mode_t] (case labels of one
    [switch], hence distinct), the identifiers of the Security object, the
    capacities of the key buffers, and the assembly of a PSK descriptor. *)
Class SecurityDefs : Type := {
  ANJAY_SECURITY_PSK : Z;
  ANJAY_SECURITY_RPK : Z;
  ANJAY_SECURITY_CERTIFICATE : Z;
  ANJAY_SECURITY_NOSEC : Z;
  ANJAY_SECURITY_EST : Z;
  security_modes_distinct :
    NoDup [ANJAY_SECURITY_PSK; ANJAY_SECURITY_RPK; ANJAY_SECURITY_CERTIFICATE;
           ANJAY_SECURITY_NOSEC; ANJAY_SECURITY_EST];
  ANJAY_DM_OID_SECURITY : N;
  ANJAY_DM_RID_SECURITY_MODE : N;
  ANJAY_DM_RID_SECURITY_PK_OR_IDENTITY : N;
  ANJAY_DM_RID_SECURITY_SERVER_PK_OR_IDENTITY : N;
  ANJAY_DM_RID_SECURITY_SECRET_KEY : N;
  ANJAY_MAX_PK_OR_IDENTITY_SIZE : N;
  ANJAY_MAX_SERVER_PK_OR_IDENTITY_SIZE : N;
  ANJAY_MAX_SECRET_KEY_SIZE : N;
  _anjay_connection_init_psk_security :
    anjay_server_dtls_keys_t -> Z * avs_net_security_info_t
}.

(** ** Effects: reads of the data model, log lines, the heap block *)
Inductive log_level : Type := ERROR | WARNING | DEBUG.

Inductive log_arg : Type :=
| ArgInt (z : Z)
| ArgStr (s : string)
| ArgPath (p : anjay_uri_path_t).

Inductive sec_event : Type :=
| EvCalloc (ok : bool)
| EvFree (allocated : bool)
| EvReadI64 (p : anjay_uri_path_t)
| EvRead (p : anjay_uri_path_t)
| EvLog (level : log_level) (fmt : string) (args : list log_arg).

(** A computation delivers its result and the events it caused, in order. *)
Definition M (A : Type) : Type := A * list sec_event.

Definition ret {A : Type} (a : A) : M A := (a, []).

Definition bind {A B : Type} (m : M A) (f : A -> M B) : M B :=
  let '(a, t1) := m in
  let '(b, t2) := f a in
  (b, t1 ++ t2).

Definition tell (e : sec_event) : M unit := (tt, [e]).

Definition anjay_log (level : log_level) (fmt : string) (args : list log_arg)
  : M unit := tell (EvLog level fmt args).

Definition value {A : Type} (m : M A) : A := fst m.
Definition trace {A : Type} (m : M A) : list sec_event := snd m.

Declare Scope sec_scope.
Delimit Scope sec_scope with sec.
Notation "x <- m ;; k" := (bind m (fun x => k))
  (at level 100, m at next level, right associativity) : sec_scope.
Notation "m ;;; k" := (bind m (fun _ => k))
  (at level 100, right associativity) : sec_scope.

Definition _anjay_dm_read_resource_i64 (anjay : anjay_t) (path : anjay_uri_path_t)
  : M (option Z) :=
  (tell (EvReadI64 path) ;;; ret (dm_i64 anjay path))%sec.

Definition _anjay_dm_read_resource (anjay : anjay_t) (path : anjay_uri_path_t)
    (buffer_capacity : N) : M (option bytes) :=
  (tell (EvRead path) ;;; ret (dm_bytes anjay path buffer_capacity))%sec.

(** The outcome of a function with an [int] result and an output argument:
    [Got a] returns [0] after storing [a], [Err code] returns [code] and
    stores nothing. *)
Inductive got (A : Type) : Type :=
| Got (a : A)
| Err (code : Z).
Arguments Err {A} code.

Section Resolver.
Context `{SecurityDefs}.
Open Scope sec_scope.

Definition get_security_mode (anjay : anjay_t) (security_iid : N) : M (got Z) :=
  let path :=
    MAKE_RESOURCE_PATH ANJAY_DM_OID_SECURITY security_iid
                       ANJAY_DM_RID_SECURITY_MODE in
  r <- _anjay_dm_read_resource_i64 anjay path ;;
  match r with
  | None =>
      anjay_log ERROR "could not read LwM2M server security mode from %s"
                [ArgPath path] ;;;
      ret (Err (-1))
  | Some mode =>
      if mode =? ANJAY_SECURITY_RPK then
        anjay_log ERROR "unsupported security mode: %s" [ArgInt mode] ;;;
        ret (Err (-1))
      else if (mode =? ANJAY_SECURITY_NOSEC) || (mode =? ANJAY_SECURITY_PSK)
              || (mode =? ANJAY_SECURITY_CERTIFICATE)
              || (mode =? ANJAY_SECURITY_EST) then
        ret (Got mode)
      else
        anjay_log ERROR "invalid security mode: %s" [ArgInt mode] ;;;
        ret (Err (-1))
  end.

Definition security_matches_transport (security_mode : Z)
    (transport_info : anjay_transport_info_t) : M bool :=
  if transport_security_eqb (security transport_info)
                            ANJAY_TRANSPORT_SECURITY_UNDEFINED then
    ret true
  else
    let is_secure_transport :=
      transport_security_eqb (security transport_info) ANJAY_TRANSPORT_ENCRYPTED in
    let needs_secure_transport := negb (security_mode =? ANJAY_SECURITY_NOSEC) in
    if negb (Bool.eqb is_secure_transport needs_secure_transport) then
      anjay_log WARNING
        "security mode %d requires %ssecure protocol, but '%s' was configured"
        [ArgInt security_mode;
         ArgStr (if needs_secure_transport then "" else "in");
         ArgStr (uri_scheme transport_info)] ;;;
      ret false
    else ret true.

Inductive value_status_t : Type := SKIP | OPTIONAL | REQUIRED.

(** [buffer], [buffer_capacity] and [buffer_size_ptr] designate one field of
    the keys; [store] is the assignment of that field. *)
Record value_def_t : Type := {
  status : value_status_t;
  rid : N;
  buffer_capacity : N;
  store : bytes -> anjay_server_dtls_keys_t -> anjay_server_dtls_keys_t
}.

Definition set_pk_or_identity (b : bytes) (k : anjay_server_dtls_keys_t) :=
  {| pk_or_identity := b;
     server_pk_or_identity := server_pk_or_identity k;
     secret_key := secret_key k |}.

Definition set_server_pk_or_identity (b : bytes) (k : anjay_server_dtls_keys_t) :=
  {| pk_or_identity := pk_or_identity k;
     server_pk_or_identity := b;
     secret_key := secret_key k |}.

Definition set_secret_key (b : bytes) (k : anjay_server_dtls_keys_t) :=
  {| pk_or_identity := pk_or_identity k;
     server_pk_or_identity := server_pk_or_identity k;
     secret_key := b |}.

Definition PK_OR_IDENTITY_VALUE : value_def_t :=
  {| status := REQUIRED;
     rid := ANJAY_DM_RID_SECURITY_PK_OR_IDENTITY;
     buffer_capacity := ANJAY_MAX_PK_OR_IDENTITY_SIZE;
     store := set_pk_or_identity |}.

Definition SERVER_PK_OR_IDENTITY_VALUE (security_mode : Z) : value_def_t :=
  {| status := if negb (security_mode =? ANJAY_SECURITY_PSK) then REQUIRED
               else OPTIONAL;
     rid := ANJAY_DM_RID_SECURITY_SERVER_PK_OR_IDENTITY;
     buffer_capacity := ANJAY_MAX_SERVER_PK_OR_IDENTITY_SIZE;
     store := set_server_pk_or_identity |}.

Definition SECRET_KEY_VALUE : value_def_t :=
  {| status := REQUIRED;
     rid := ANJAY_DM_RID_SECURITY_SECRET_KEY;
     buffer_capacity := ANJAY_MAX_SECRET_KEY_SIZE;
     store := set_secret_key |}.

Definition is_required (s : value_status_t) : bool :=
  match s with REQUIRED => true | _ => false end.

(** The [for] loop of [get_dtls_keys] over the remaining [values]. *)
Fixpoint read_values (anjay : anjay_t) (security_iid : N)
    (values : list value_def_t) (out_keys : anjay_server_dtls_keys_t)
  : M (Z * anjay_server_dtls_keys_t) :=
  match values with
  | [] => ret (0, out_keys)
  | v :: rest =>
      match status v with
      | SKIP => read_values anjay security_iid rest out_keys
      | _ =>
          let path :=
            MAKE_RESOURCE_PATH ANJAY_DM_OID_SECURITY security_iid (rid v) in
          r <- _anjay_dm_read_resource anjay path (buffer_capacity v) ;;
          match r with
          | Some data => read_values anjay security_iid rest (store v data out_keys)
          | None =>
              if is_required (status v) then
                anjay_log WARNING "read %s failed" [ArgPath path] ;;;
                ret (-1, out_keys)
              else read_values anjay security_iid rest out_keys
          end
      end
  end.

Definition get_dtls_keys (anjay : anjay_t) (security_iid : N) (security_mode : Z)
    (out_keys : anjay_server_dtls_keys_t) : M (Z * anjay_server_dtls_keys_t) :=
  if security_mode =? ANJAY_SECURITY_NOSEC then ret (0, out_keys)
  else
    read_values anjay security_iid
      [PK_OR_IDENTITY_VALUE; SERVER_PK_OR_IDENTITY_VALUE security_mode;
       SECRET_KEY_VALUE]
      out_keys.

(** The security configuration and the record next to it, which the
    initialisers update in place. *)
Definition with_security_info (i : avs_net_security_info_t)
    (security : anjay_security_config_t) : anjay_security_config_t :=
  {| security_info := i;
     tls_ciphersuites := tls_ciphersuites security;
     dane_tlsa_record := dane_tlsa_record security |}.

Definition init_cert_security (security : anjay_security_config_t)
    (dane_tlsa_record_data : avs_net_socket_dane_tlsa_record_t)
    (keys : anjay_server_dtls_keys_t)
  : Z * anjay_security_config_t * avs_net_socket_dane_tlsa_record_t :=
  let certificate_info :=
    {| server_cert_validation := false;
       ignore_system_trust_store := true;
       dane := false;
       client_cert := pk_or_identity keys;
       client_key := secret_key keys |} in
  let '(certificate_info, security, dane_tlsa_record_data) :=
    if (0 <? List.length (server_pk_or_identity keys))%nat then
      ({| server_cert_validation := true;
          ignore_system_trust_store := ignore_system_trust_store certificate_info;
          dane := true;
          client_cert := client_cert certificate_info;
          client_key := client_key certificate_info |},
       {| security_info := security_info security;
          tls_ciphersuites := tls_ciphersuites security;
          dane_tlsa_record := true |},
       {| certificate_usage := certificate_usage dane_tlsa_record_data;
          association_data := server_pk_or_identity keys |})
    else (certificate_info, security, dane_tlsa_record_data) in
  (0,
   with_security_info (avs_net_security_info_from_certificates certificate_info)
                      security,
   dane_tlsa_record_data).

Definition init_security (security : anjay_security_config_t)
    (dane_tlsa_record_data : avs_net_socket_dane_tlsa_record_t)
    (security_mode : Z) (keys : anjay_server_dtls_keys_t)
  : M (Z * anjay_security_config_t * avs_net_socket_dane_tlsa_record_t) :=
  if security_mode =? ANJAY_SECURITY_NOSEC then
    ret (0, security, dane_tlsa_record_data)
  else if security_mode =? ANJAY_SECURITY_PSK then
    let '(result, info) := _anjay_connection_init_psk_security keys in
    ret (result, with_security_info info security, dane_tlsa_record_data)
  else if (security_mode =? ANJAY_SECURITY_CERTIFICATE)
          || (security_mode =? ANJAY_SECURITY_EST) then
    ret (init_cert_security security dane_tlsa_record_data keys)
  else
    anjay_log ERROR "unsupported security mode: %d" [ArgInt security_mode] ;;;
    ret (-1, security, dane_tlsa_record_data).

(** The block that [avs_calloc] delivers, after the two assignments that
    follow the allocation. *)
Definition fresh_config (anjay : anjay_t) : security_config_with_data_t :=
  {| security_config :=
       {| security_info := security_info_zeroed;
          tls_ciphersuites := default_tls_ciphersuites anjay;
          dane_tlsa_record := false |};
     dtls_keys :=
       {| pk_or_identity := []; server_pk_or_identity := []; secret_key := [] |};
     dane_tlsa_record_data :=
       {| certificate_usage := AVS_NET_SOCKET_DANE_DOMAIN_ISSUED_CERTIFICATE;
          association_data := [] |} |}.

Definition set_is_encrypted (b : bool) (info : anjay_connection_info_t) :=
  {| security_iid := security_iid info;
     ssid := ssid info;
     transport_info := transport_info info;
     is_encrypted := b |}.

(** [calloc_ok] tells whether [avs_calloc] succeeds. The result is the
    returned pointer ([None] for [NULL]) with the connection info as the call
    leaves it. *)
Definition _anjay_connection_security_generic_get_config (calloc_ok : bool)
    (anjay : anjay_t) (inout_info : anjay_connection_info_t)
  : M (option security_config_with_data_t * anjay_connection_info_t) :=
  tell (EvCalloc calloc_ok) ;;;
  let error := tell (EvFree calloc_ok) ;;; ret (None, inout_info) in
  if negb calloc_ok then error
  else
    let result := fresh_config anjay in
    m <- get_security_mode anjay (security_iid inout_info) ;;
    match m with
    | Err _ => error
    | Got security_mode =>
        ok <- match transport_info inout_info with
              | None => ret true
              | Some ti => security_matches_transport security_mode ti
              end ;;
        if negb ok then error
        else
          k <- get_dtls_keys anjay (security_iid inout_info) security_mode
                             (dtls_keys result) ;;
          let '(kres, keys) := k in
          if negb (kres =? 0) then error
          else
            i <- init_security (security_config result)
                               (dane_tlsa_record_data result) security_mode keys ;;
            let '(ires, security, record) := i in
            if negb (ires =? 0) then error
            else
              anjay_log DEBUG "server /%u/%u: security mode = %d"
                [ArgInt (Z.of_N ANJAY_DM_OID_SECURITY);
                 ArgInt (Z.of_N (security_iid inout_info));
                 ArgInt security_mode] ;;;
              ret (Some {| security_config := security;
                           dtls_keys := keys;
                           dane_tlsa_record_data := record |},
                   set_is_encrypted
                     (negb (security_mode =? ANJAY_SECURITY_NOSEC)) inout_info)
    end.

(** The stages of the resolver, each on the outcome of the ones before it:
    the allocation, the classification of the mode, the transport check
    (passed over when no transport is known), the extraction of the keys and
    the initialisation of the configuration. *)
Definition all_stages_succeed (calloc_ok : bool) (anjay : anjay_t)
    (inout_info : anjay_connection_info_t) : bool :=
  calloc_ok
  && match value (get_security_mode anjay (security_iid inout_info)) with
     | Err _ => false
     | Got security_mode =>
         match transport_info inout_info with
         | None => true
         | Some ti => value (security_matches_transport security_mode ti)
         end
         && (let '(kres, keys) :=
               value (get_dtls_keys anjay (security_iid inout_info)
                                    security_mode
                                    (dtls_keys (fresh_config anjay))) in
             (kres =? 0)
             && (let '(ires, _, _) :=
                   value (init_security
                            (security_config (fresh_config anjay))
                            (dane_tlsa_record_data (fresh_config anjay))
                            security_mode keys) in
                 ires =? 0))
     end.

(** Whether a code is one of the four modes that the classifier accepts. *)
Definition supported (mode : Z) : bool :=
  (mode =? ANJAY_SECURITY_NOSEC) || (mode =? ANJAY_SECURITY_PSK)
  || (mode =? ANJAY_SECURITY_CERTIFICATE) || (mode =? ANJAY_SECURITY_EST).

Definition is_free (e : sec_event) : bool :=
  match e with EvFree _ => true | _ => false end.

Definition is_credential_read (e : sec_event) : bool :=
  match e with EvRead _ => true | _ => false end.

(** The path of a resource of the Security object instance. *)
Definition security_path (security_iid rid : N) : anjay_uri_path_t :=
  MAKE_RESOURCE_PATH ANJAY_DM_OID_SECURITY security_iid rid.
End Resolver.

(** The codes of LwM2M (PSK 0, RPK 1, Certificate 2, NoSec 3, EST 4), the
    identifiers of the Security object (OID 0; resources 2, 3, 4, 5), buffers
    of 2048, 2048 and 256 bytes, and a PSK assembly that takes the identity
    and the key from the extracted fields. Used for concrete runs. *)
#[export, refine] Instance lwm2m_defs : SecurityDefs := {|
  ANJAY_SECURITY_PSK := 0;
  ANJAY_SECURITY_RPK := 1;
  ANJAY_SECURITY_CERTIFICATE := 2;
  ANJAY_SECURITY_NOSEC := 3;
  ANJAY_SECURITY_EST := 4;
  ANJAY_DM_OID_SECURITY := 0;
  ANJAY_DM_RID_SECURITY_MODE := 2;
  ANJAY_DM_RID_SECURITY_PK_OR_IDENTITY := 3;
  ANJAY_DM_RID_SECURITY_SERVER_PK_OR_IDENTITY := 4;
  ANJAY_DM_RID_SECURITY_SECRET_KEY := 5;
  ANJAY_MAX_PK_OR_IDENTITY_SIZE := 2048;
  ANJAY_MAX_SERVER_PK_OR_IDENTITY_SIZE := 2048;
  ANJAY_MAX_SECRET_KEY_SIZE := 256;
  _anjay_connection_init_psk_security := fun keys =>
    (0, avs_net_security_info_from_psk
          {| psk := secret_key keys; identity := pk_or_identity keys |})
|}.
Proof. repeat constructor; simpl; intuition discriminate. Defined.


(** A data model that holds the given mode and the given credentials, if
    any, in the Security object instance [0]; every other read fails. Used
    for concrete runs. *)
Definition anjay_of (mode : option Z) (pk server secret : option bytes)
  : anjay_t :=
  {| default_tls_ciphersuites := [];
     dm_i64 := fun p =>
       match p with
       | MAKE_RESOURCE_PATH 0 0 2 => mode
       | _ => None
       end;
     dm_bytes := fun p _ =>
       match p with
       | MAKE_RESOURCE_PATH 0 0 3 => pk
       | MAKE_RESOURCE_PATH 0 0 4 => server
       | MAKE_RESOURCE_PATH 0 0 5 => secret
       | _ => None
       end |}.

Definition info_of (ti : option anjay_transport_info_t)
  : anjay_connection_info_t :=
  {| security_iid := 0; ssid := 1; transport_info := ti;
     is_encrypted := false |}.

(** ** [_anjay_connection_security_generic_get_uri]

    The URL parser is that of the networking library, the table of URI
    schemes and the reader of string resources are in units that are not
    among the sources: the function is parametric in them. An [avs_url_t] is
    known by its accessors, each giving [None] for [NULL]. *)
Inductive uri_event : Type :=
| UriRead (p : anjay_uri_path_t)
| UriFree
| UriLog (level : log_level) (fmt : string) (args : list log_arg).

Section GetUri.
Context `{SecurityDefs}.
Variable ANJAY_DM_RID_SECURITY_SERVER_URI : N.
Variable ANJAY_MAX_URL_RAW_LENGTH : N.
(** [_anjay_dm_read_resource_string (anjay, &path, buf, size)]: the string
    read, or [None] when the call reports an error. *)
Variable _anjay_dm_read_resource_string :
  anjay_t -> anjay_uri_path_t -> N -> option string.
Variable avs_url_t : Type.
Variable avs_url_parse_lenient : string -> option avs_url_t.
Variable avs_url_protocol : avs_url_t -> string.
Variable avs_url_user : avs_url_t -> option string.
Variable avs_url_password : avs_url_t -> option string.
Variable avs_url_port : avs_url_t -> option string.
Variable _anjay_transport_info_by_uri_scheme :
  string -> option anjay_transport_info_t.

Definition is_some {A : Type} (o : option A) : bool :=
  match o with Some _ => true | None => false end.

(** [port && !*port]: a port that is given and is the empty string. *)
Definition empty_port (port : option string) : bool :=
  match port with
  | Some EmptyString => true
  | _ => false
  end.

(** The result holds the returned code and the two outputs; [out_uri] and
    [out_transport_info] are the outputs as the caller passes them, which
    the function asserts to be [NULL]. *)
Definition _anjay_connection_security_generic_get_uri (anjay : anjay_t)
    (security_iid : N) (out_uri : option avs_url_t)
    (out_transport_info : option anjay_transport_info_t)
  : option ((Z * option avs_url_t * option anjay_transport_info_t)
            * list uri_event) :=
  if is_some out_uri || is_some out_transport_info then None
  else
    let path :=
      MAKE_RESOURCE_PATH ANJAY_DM_OID_SECURITY security_iid
                         ANJAY_DM_RID_SECURITY_SERVER_URI in
    match _anjay_dm_read_resource_string anjay path ANJAY_MAX_URL_RAW_LENGTH with
    | None =>
        Some ((-1, None, None),
              [UriRead path;
               UriLog ERROR "could not read LwM2M server URI from %s"
                      [ArgPath path]])
    | Some raw_uri =>
        let failure (parsed : bool) :=
          Some ((-1, None, None),
                [UriRead path] ++ (if parsed then [UriFree] else [])
                ++ [UriLog ERROR "could not parse LwM2M server URI: %s"
                           [ArgStr raw_uri]]) in
        match avs_url_parse_lenient raw_uri with
        | None => failure false
        | Some uri =>
            match _anjay_transport_info_by_uri_scheme (avs_url_protocol uri) with
            | None => failure true
            | Some ti =>
                if is_some (avs_url_user uri) || is_some (avs_url_password uri)
                   || empty_port (avs_url_port uri)
                then failure true
                else Some ((0, Some uri, Some ti), [UriRead path])
            end
        end
    end.

(** The URL is taken: it parses, its scheme is known, it names neither a
    user nor a password, and its port, if given, is not empty. *)
Definition acceptable_uri (raw_uri : string) : bool :=
  match avs_url_parse_lenient raw_uri with
  | None => false
  | Some uri =>
      is_some (_anjay_transport_info_by_uri_scheme (avs_url_protocol uri))
      && negb (is_some (avs_url_user uri))
      && negb (is_some (avs_url_password uri))
      && negb (empty_port (avs_url_port uri))
  end.
End GetUri.

Section Mismatch.
Context `{SecurityDefs}.

(** The mode and the transport do not go together: an encrypted transport
    with NoSec, or a plain-text transport with another mode. *)
Definition mismatch (security_mode : Z) (ti : anjay_transport_info_t) : Prop :=
  match security ti with
  | ANJAY_TRANSPORT_SECURITY_UNDEFINED => False
  | ANJAY_TRANSPORT_ENCRYPTED => security_mode = ANJAY_SECURITY_NOSEC
  | ANJAY_TRANSPORT_NOSEC => security_mode <> ANJAY_SECURITY_NOSEC
  end.

(** The transport, if known, is not a plain-text one. *)
Definition not_plain_text (ti : option anjay_transport_info_t) : Prop :=
  match ti with
  | None => True
  | Some t => security t <> ANJAY_TRANSPORT_NOSEC
  end.

(** The transport, if known, is not an encrypted one. *)
Definition not_encrypted (ti : option anjay_transport_info_t) : Prop :=
  match ti with
  | None => True
  | Some t => security t <> ANJAY_TRANSPORT_ENCRYPTED
  end.
End Mismatch.
End Security.

(** * Facts about the ordered instance lists *)
Unset Implicit Arguments.

Section AvsListFacts.
Context {A : Type} (iid_of : A -> N).

Lemma ascending_cons_inv (a : A) (l : list A) :
  ascending iid_of (a :: l) ->
  ascending iid_of l /\ Forall (fun x => (iid_of a < x)%N) (map iid_of l).
Proof.
  unfold ascending; simpl; intros Hs.
  apply StronglySorted_inv in Hs; exact Hs.
Qed.

Lemma ascending_NoDup (l : list A) : ascending iid_of l -> NoDup (map iid_of l).
Proof.
  induction l as [|a l IH]; intros Hs; simpl.
  - constructor.
  - apply ascending_cons_inv in Hs as [Hl Hlt].
    constructor; [|auto].
    intros Hin. rewrite Forall_forall in Hlt.
    specialize (Hlt _ Hin). lia.
Qed.

Lemma avs_find_some (l : list A) (i : N) (it : A) :
  avs_find iid_of l i = Some it -> In it l /\ iid_of it = i.
Proof.
  induction l as [|a l IH]; simpl; [discriminate|].
  destruct (N.eqb_spec (iid_of a) i) as [He|Hne].
  - intros [= <-]; auto.
  - destruct (i <? iid_of a)%N; [discriminate|].
    intros Hf; destruct (IH Hf); auto.
Qed.

Lemma avs_find_absent (l : list A) (i : N) :
  ~ In i (map iid_of l) -> avs_find iid_of l i = None.
Proof.
  induction l as [|a l IH]; simpl; [reflexivity|]; intros Hn.
  destruct (N.eqb_spec (iid_of a) i) as [He|Hne]; [tauto|].
  destruct (i <? iid_of a)%N; [reflexivity|].
  apply IH; tauto.
Qed.

Lemma avs_find_present (l : list A) (i : N) :
  ascending iid_of l -> In i (map iid_of l) ->
  exists it, avs_find iid_of l i = Some it.
Proof.
  induction l as [|a l IH]; simpl; [tauto|]; intros Hs Hin.
  apply ascending_cons_inv in Hs as [Hl Hlt].
  destruct (N.eqb_spec (iid_of a) i) as [He|Hne]; [eauto|].
  destruct Hin as [He|Hin]; [contradiction|].
  rewrite Forall_forall in Hlt. specialize (Hlt _ Hin).
  destruct (N.ltb_spec i (iid_of a)); [lia|].
  auto.
Qed.

Lemma avs_insert_ids (c : A) (l : list A) (x : N) :
  In x (map iid_of (avs_insert iid_of c l)) <-> x = iid_of c \/ In x (map iid_of l).
Proof.
  induction l as [|a l IH]; simpl.
  - intuition.
  - destruct (iid_of c <? iid_of a)%N; simpl; [intuition|].
    rewrite IH; intuition.
Qed.

Lemma avs_insert_ascending (c : A) (l : list A) :
  ascending iid_of l -> ~ In (iid_of c) (map iid_of l) ->
  ascending iid_of (avs_insert iid_of c l).
Proof.
  induction l as [|a l IH]; simpl; intros Hs Hn.
  - repeat constructor.
  - pose proof Hs as Hs'. apply ascending_cons_inv in Hs' as [Hl Hlt].
    destruct (N.ltb_spec (iid_of c) (iid_of a)) as [Hca|Hca].
    + unfold ascending; simpl. constructor; [exact Hs|].
      constructor; [exact Hca|].
      eapply Forall_impl; [|exact Hlt]. simpl; intros; lia.
    + unfold ascending; simpl. constructor.
      * apply IH; tauto.
      * rewrite Forall_forall; intros x Hx.
        apply avs_insert_ids in Hx as [->|Hx].
        -- assert (iid_of a <> iid_of c) by tauto. lia.
        -- rewrite Forall_forall in Hlt; auto.
Qed.

Lemma avs_insert_find (c : A) (l : list A) :
  ascending iid_of l -> ~ In (iid_of c) (map iid_of l) ->
  avs_find iid_of (avs_insert iid_of c l) (iid_of c) = Some c.
Proof.
  induction l as [|a l IH]; simpl; intros Hs Hn.
  - rewrite N.eqb_refl; reflexivity.
  - apply ascending_cons_inv in Hs as [Hl Hlt].
    destruct (N.ltb_spec (iid_of c) (iid_of a)) as [Hca|Hca]; simpl.
    + rewrite N.eqb_refl; reflexivity.
    + destruct (N.eqb_spec (iid_of a) (iid_of c)) as [He|Hne]; [tauto|].
      destruct (N.ltb_spec (iid_of c) (iid_of a)); [lia|].
      apply IH; tauto.
Qed.

Lemma avs_insert_find_other (c : A) (l : list A) (i : N) :
  ascending iid_of l -> ~ In (iid_of c) (map iid_of l) -> i <> iid_of c ->
  avs_find iid_of (avs_insert iid_of c l) i = avs_find iid_of l i.
Proof.
  induction l as [|a l IH]; simpl; intros Hs Hn Hi.
  - destruct (N.eqb_spec (iid_of c) i); [congruence|].
    destruct (i <? iid_of c)%N; reflexivity.
  - apply ascending_cons_inv in Hs as [Hl Hlt].
    destruct (N.ltb_spec (iid_of c) (iid_of a)) as [Hca|Hca]; simpl.
    + destruct (N.eqb_spec (iid_of c) i); [congruence|].
      destruct (N.ltb_spec i (iid_of c)) as [Hic|Hic]; [|reflexivity].
      destruct (N.eqb_spec (iid_of a) i); [lia|].
      destruct (N.ltb_spec i (iid_of a)); [reflexivity|lia].
    + destruct (N.eqb_spec (iid_of a) i); [reflexivity|].
      destruct (i <? iid_of a)%N; [reflexivity|].
      apply IH; tauto.
Qed.

Lemma avs_delete_present (l : list A) (i : N) :
  ascending iid_of l -> In i (map iid_of l) ->
  exists l', avs_delete iid_of l i = Some l'
             /\ ascending iid_of l'
             /\ forall x, In x (map iid_of l') <-> In x (map iid_of l) /\ x <> i.
Proof.
  induction l as [|a l IH]; simpl; [tauto|]; intros Hs Hin.
  pose proof (ascending_NoDup _ Hs) as Hnd. simpl in Hnd.
  apply NoDup_cons_iff in Hnd as [Hna Hnd].
  apply ascending_cons_inv in Hs as [Hl Hlt].
  destruct (N.eqb_spec (iid_of a) i) as [He|Hne].
  - exists l; split; [reflexivity|split; [exact Hl|]].
    intros x; split.
    + intros Hx; split; [auto|]. intros ->. congruence.
    + intros [[Hx|Hx] Hxi]; [congruence|auto].
  - destruct Hin as [He|Hin]; [contradiction|].
    rewrite Forall_forall in Hlt. pose proof (Hlt _ Hin) as Hai.
    destruct (N.ltb_spec i (iid_of a)); [lia|].
    destruct (IH Hl Hin) as (l' & Hd & Hs' & Hids).
    rewrite Hd; simpl. exists (a :: l'); split; [reflexivity|split].
    + unfold ascending; simpl; constructor; [exact Hs'|].
      rewrite Forall_forall; intros x Hx. apply Hids in Hx as [Hx _]; auto.
    + intros x; simpl; rewrite Hids. split.
      * intros [<-|[Hx Hxi]]; auto.
      * intros [[<-|Hx] Hxi]; auto.
Qed.

Lemma avs_update_ids (f : A -> A) (l : list A) (i : N) :
  (forall a, iid_of (f a) = iid_of a) ->
  map iid_of (avs_update iid_of f l i) = map iid_of l.
Proof.
  intros Hf; induction l as [|a l IH]; simpl; [reflexivity|].
  destruct (iid_of a =? i)%N; simpl; [rewrite Hf; reflexivity|].
  destruct (i <? iid_of a)%N; simpl; [reflexivity|].
  rewrite IH; reflexivity.
Qed.

(** A projection that the stored-through function leaves alone is the same
    on the updated list. *)
Lemma avs_update_map {B : Type} (g : A -> B) (f : A -> A) (l : list A) (i : N) :
  (forall a, g (f a) = g a) ->
  map g (avs_update iid_of f l i) = map g l.
Proof.
  intros Hf; induction l as [|a l IH]; simpl; [reflexivity|].
  destruct (iid_of a =? i)%N; simpl; [rewrite Hf; reflexivity|].
  destruct (i <? iid_of a)%N; simpl; [reflexivity|].
  rewrite IH; reflexivity.
Qed.
End AvsListFacts.

(** * Facts about the Time object *)
Module TimeFacts.
Import TimeObject.

Section Facts.
Context `{AnjayDefs}.

Lemma time_instance_create_absent (ok : bool) (obj : time_object_t) (i : N) :
  ~ In i (list_instances obj) -> i <> ANJAY_ID_INVALID ->
  instance_create ok obj i =
    Some (if ok
          then (0, {| instances :=
                        avs_insert iid (created_instance i) (instances obj) |})
          else (ANJAY_ERR_INTERNAL, obj)).
Proof.
  intros Hn Hi. unfold instance_create, add_instance, find_instance.
  rewrite (avs_find_absent iid _ _ Hn).
  destruct ok; simpl; [|reflexivity].
  unfold init_instance.
  destruct (N.eqb_spec i ANJAY_ID_INVALID); [contradiction|reflexivity].
Qed.

Lemma time_instance_remove_present (obj : time_object_t) (i : N) :
  sorted obj -> In i (list_instances obj) ->
  exists obj', instance_remove obj i = Some (0, obj')
               /\ sorted obj'
               /\ forall x, In x (list_instances obj')
                            <-> In x (list_instances obj) /\ x <> i.
Proof.
  intros Hs Hin. unfold instance_remove.
  destruct (avs_delete_present iid _ _ Hs Hin) as (l' & Hd & Hs' & Hids).
  rewrite Hd. exists {| instances := l' |}; auto.
Qed.

Lemma time_resource_write_present (obj : time_object_t) (i rid riid : N)
    (ctx : anjay_input_ctx_t) :
  sorted obj -> In i (list_instances obj) ->
  (rid = RID_APPLICATION_TYPE -> riid = ANJAY_ID_INVALID) ->
  exists r obj', resource_write obj i rid riid ctx = Some (r, obj')
                 /\ list_instances obj' = list_instances obj.
Proof.
  intros Hs Hin Hr. unfold resource_write, find_instance.
  destruct (avs_find_present iid _ _ Hs Hin) as (inst & ->).
  destruct (N.eqb_spec rid RID_APPLICATION_TYPE) as [He|Hne].
  - rewrite (Hr He), N.eqb_refl; simpl.
    destruct (anjay_get_string ctx (application_type inst) 64) as [r buf].
    eexists _, _; split; [reflexivity|].
    unfold list_instances; simpl. apply avs_update_ids. reflexivity.
  - eexists _, _; split; reflexivity.
Qed.

Lemma time_apply_mutation_allowed (m : mutation) (obj : time_object_t) :
  sorted obj -> allowed m obj ->
  exists r obj', apply_mutation m obj = Some (r, obj') /\ sorted obj'.
Proof.
  intros Hs Ha. destruct m as [ok i|i|i rid riid ctx]; simpl in *.
  - destruct Ha as [Hn Hi]. rewrite (time_instance_create_absent ok obj i Hn Hi).
    destruct ok; eexists _, _; split; try reflexivity; [|exact Hs].
    apply avs_insert_ascending; [exact Hs|exact Hn].
  - destruct (time_instance_remove_present obj i Hs Ha) as (obj' & -> & Hs' & _).
    eexists _, _; split; [reflexivity|exact Hs'].
  - destruct Ha as [Hin Hr].
    destruct (time_resource_write_present obj i rid riid ctx Hs Hin Hr) as (r & obj' & -> & Hl).
    eexists _, _; split; [reflexivity|].
    unfold sorted, ascending. fold (list_instances obj'). rewrite Hl. exact Hs.
Qed.

Lemma time_apply_mutations_respecting (ms : list mutation) (obj : time_object_t) :
  sorted obj -> respects_contract ms obj ->
  exists obj', apply_mutations ms obj = Some obj' /\ sorted obj'.
Proof.
  revert obj; induction ms as [|m ms IH]; simpl; intros obj Hs Hc.
  - eauto.
  - destruct Hc as [Ha Hrest].
    destruct (time_apply_mutation_allowed m obj Hs Ha) as (r & obj' & Hm & Hs').
    rewrite Hm. apply IH; eauto.
Qed.

(** The object that [time_object_create] delivers holds instance 0 alone. *)
Lemma time_object_create_some (calloc_ok new_element_ok : bool)
    (obj : time_object_t) :
  time_object_create calloc_ok new_element_ok = Some (Some obj) ->
  obj = {| instances := [set_application_type "Clock 0" (created_instance 0)] |}.
Proof.
  unfold time_object_create, add_instance.
  destruct calloc_ok, new_element_ok; simpl; try discriminate.
  unfold init_instance.
  destruct (0 =? ANJAY_ID_INVALID)%N; [discriminate|]. simpl.
  intros [= <-]; reflexivity.
Qed.

(** ** Transaction handlers *)
Lemma writes_keep_frame (ms : list mutation) (obj obj' : time_object_t) :
  forallb is_write ms = true ->
  apply_mutations ms obj = Some obj' ->
  map frame (instances obj') = map frame (instances obj).
Proof.
  revert obj; induction ms as [|m ms IH]; simpl; intros obj Hw Hrun.
  - injection Hrun as <-; reflexivity.
  - apply andb_true_iff in Hw as [Hm Hw].
    destruct m as [ok i|i|i rid riid ctx]; try discriminate; simpl in Hrun.
    unfold resource_write in Hrun.
    destruct (find_instance obj i) as [inst|]; [|discriminate].
    destruct (rid =? RID_APPLICATION_TYPE)%N.
    + destruct (negb (riid =? ANJAY_ID_INVALID)%N); [discriminate|].
      destruct (anjay_get_string ctx (application_type inst) 64) as [r buf].
      rewrite (IH _ Hw Hrun); simpl.
      apply avs_update_map; reflexivity.
    + apply (IH _ Hw Hrun).
Qed.

Lemma rollback_after_begin_frame (l l' : list time_instance_t) :
  map frame l' =
  map frame (map (fun e => set_application_type_backup (application_type e) e) l) ->
  map visible
      (map (fun e => set_application_type (application_type_backup e) e) l')
  = map visible l.
Proof.
  revert l'; induction l as [|a l IH]; intros [|a' l']; simpl; try discriminate.
  - reflexivity.
  - intros Heq. injection Heq as Hi Hb Ht Hrest.
    rewrite (IH _ Hrest). unfold visible; simpl. congruence.
Qed.
End Facts.
End TimeFacts.

(** * Facts about the Portfolio object *)
Module PortfolioFacts.
Import Portfolio.

Section Facts.
Context `{AnjayDefs}.

Lemma portfolio_instance_create_eq (ok : bool) (obj : portfolio_t) (i : N) :
  instance_create ok obj i =
    if ok
    then (0, {| instances := avs_insert iid (created_instance i) (instances obj);
                backup := backup obj |})
    else (ANJAY_ERR_INTERNAL, obj).
Proof. destruct ok; reflexivity. Qed.

Lemma portfolio_instance_remove_present (obj : portfolio_t) (i : N) :
  sorted obj -> In i (list_instances obj) ->
  exists obj', instance_remove obj i = Some (0, obj')
               /\ sorted obj'
               /\ forall x, In x (list_instances obj')
                            <-> In x (list_instances obj) /\ x <> i.
Proof.
  intros Hs Hin. unfold instance_remove.
  destruct (avs_delete_present iid _ _ Hs Hin) as (l' & Hd & Hs' & Hids).
  rewrite Hd. exists (set_instances l' obj); auto.
Qed.

Lemma portfolio_resource_write_present (obj : portfolio_t) (i riid : N)
    (ctx : anjay_input_ctx_t) :
  sorted obj -> In i (list_instances obj) ->
  exists r obj', resource_write obj i RID_IDENTITY riid ctx = Some (r, obj')
                 /\ list_instances obj' = list_instances obj.
Proof.
  intros Hs Hin. unfold resource_write, find_instance.
  destruct (avs_find_present iid _ _ Hs Hin) as (inst & ->).
  rewrite N.eqb_refl.
  destruct (_MAX_IDENTITY_TYPE <=? riid)%N.
  - eexists _, _; split; reflexivity.
  - destruct (anjay_get_string ctx EmptyString MAX_IDENTITY_VALUE_SIZE)
      as [r value].
    destruct (r =? 0); eexists _, _; split; try reflexivity.
    unfold list_instances; simpl. apply avs_update_ids. reflexivity.
Qed.

Lemma portfolio_apply_mutation_allowed (m : mutation) (obj : portfolio_t) :
  sorted obj -> allowed m obj ->
  exists r obj', apply_mutation m obj = Some (r, obj') /\ sorted obj'.
Proof.
  intros Hs Ha. destruct m as [ok i|i|i rid riid ctx]; simpl in *.
  - rewrite portfolio_instance_create_eq.
    destruct ok; eexists _, _; split; try reflexivity; [|exact Hs].
    apply avs_insert_ascending; [exact Hs|exact Ha].
  - destruct (portfolio_instance_remove_present obj i Hs Ha) as (obj' & -> & Hs' & _).
    eexists _, _; split; [reflexivity|exact Hs'].
  - destruct Ha as [Hin ->].
    destruct (portfolio_resource_write_present obj i riid ctx Hs Hin)
      as (r & obj' & -> & Hl).
    eexists _, _; split; [reflexivity|].
    unfold sorted, ascending. fold (list_instances obj'). rewrite Hl. exact Hs.
Qed.

Lemma portfolio_apply_mutations_respecting (ms : list mutation) (obj : portfolio_t) :
  sorted obj -> respects_contract ms obj ->
  exists obj', apply_mutations ms obj = Some obj' /\ sorted obj'.
Proof.
  revert obj; induction ms as [|m ms IH]; simpl; intros obj Hs Hc.
  - eauto.
  - destruct Hc as [Ha Hrest].
    destruct (portfolio_apply_mutation_allowed m obj Hs Ha) as (r & obj' & Hm & Hs').
    rewrite Hm. apply IH; eauto.
Qed.

(** ** Transaction handlers *)

(** No mutation touches the snapshot. *)
Lemma portfolio_apply_mutation_backup (m : mutation) (obj obj' : portfolio_t) (r : Z) :
  apply_mutation m obj = Some (r, obj') -> backup obj' = backup obj.
Proof.
  destruct m as [ok i|i|i rid riid ctx]; simpl.
  - rewrite portfolio_instance_create_eq. destruct ok; intros [= _ <-]; reflexivity.
  - unfold instance_remove.
    destruct (avs_delete iid (instances obj) i); intros [= _ <-]; reflexivity.
  - unfold resource_write.
    destruct (find_instance obj i); [|discriminate].
    destruct (rid =? RID_IDENTITY)%N; [|discriminate].
    destruct (_MAX_IDENTITY_TYPE <=? riid)%N; [intros [= _ <-]; reflexivity|].
    destruct (anjay_get_string ctx EmptyString MAX_IDENTITY_VALUE_SIZE)
      as [res value].
    destruct (res =? 0); intros [= _ <-]; reflexivity.
Qed.

Lemma portfolio_apply_mutations_backup (ms : list mutation) (obj obj' : portfolio_t) :
  apply_mutations ms obj = Some obj' -> backup obj' = backup obj.
Proof.
  revert obj; induction ms as [|m ms IH]; simpl; intros obj Hrun.
  - injection Hrun as <-; reflexivity.
  - destruct (apply_mutation m obj) as [[r obj1]|] eqn:Hm; [|discriminate].
    rewrite (IH _ Hrun). eapply portfolio_apply_mutation_backup; eauto.
Qed.

(** A [transaction_begin] that reports success has taken a snapshot equal to
    the live list, and the object had no snapshot before. *)
Lemma transaction_begin_success (clone_ok : bool) (obj obj1 : portfolio_t) :
  transaction_begin clone_ok obj = Some (0, obj1) ->
  backup obj = [] /\ instances obj1 = instances obj
  /\ backup obj1 = instances obj.
Proof.
  unfold transaction_begin.
  destruct (backup obj) eqn:Hb; [|discriminate].
  pose proof ANJAY_ERR_INTERNAL_nonzero as Hnz.
  destruct clone_ok; destruct (instances obj) eqn:Hi; simpl;
    intros Heq; inversion Heq; subst; simpl; auto; congruence.
Qed.
End Facts.
End PortfolioFacts.

(** * The object contract: both objects *)

(** On a concrete sequence of calls the contract is checked call by call:
    the guard of the call by evaluation, then the call itself. *)
Ltac closed_guard :=
  vm_compute;
  repeat match goal with
         | |- _ /\ _ => split
         | |- _ -> _ => intro
         | H : _ \/ _ |- _ => destruct H
         | H : False |- _ => destruct H
         | H : _ = _ |- _ => discriminate H
         | |- _ = _ => reflexivity
         | |- _ \/ _ => (left; reflexivity) || right
         end.

Ltac run_contract :=
  repeat (cbn [TimeObject.respects_contract Portfolio.respects_contract];
          match goal with
          | |- True => exact I
          | |- _ /\ _ =>
              split;
              [ closed_guard
              | let r := fresh "r" in
                let o := fresh "o" in
                let E := fresh "E" in
                intros r o E; vm_compute in E; injection E as <- <- ]
          end).

(** C8. Sortedness invariant. Whatever calls of [instance_create],
    [instance_remove] (and [resource_write]) a freshly created Time object
    and a freshly created Portfolio object receive, as long as the calls
    respect the contract (no creation under an identifier in use, no removal
    of an absent instance), every call returns, and the identifiers that
    [list_instances] emits afterwards are strictly ascending, hence without
    duplicates. *)
Theorem list_instances_strictly_ascending `{AnjayDefs}
    (tobj : TimeObject.time_object_t) (tms : list TimeObject.mutation)
    (pobj : Portfolio.portfolio_t) (pms : list Portfolio.mutation) :
  TimeObject.time_object_create true true = Some (Some tobj) ->
  TimeObject.respects_contract tms tobj ->
  Portfolio.portfolio_object_create true = Some pobj ->
  Portfolio.respects_contract pms pobj ->
  (exists tobj',
      TimeObject.apply_mutations tms tobj = Some tobj'
      /\ StronglySorted N.lt (TimeObject.list_instances tobj')
      /\ NoDup (TimeObject.list_instances tobj'))
  /\ (exists pobj',
         Portfolio.apply_mutations pms pobj = Some pobj'
         /\ StronglySorted N.lt (Portfolio.list_instances pobj')
         /\ NoDup (Portfolio.list_instances pobj')).
Proof.
  intros Ht Htc Hp Hpc. split.
  - assert (Hs : TimeObject.sorted tobj).
    { rewrite (TimeFacts.time_object_create_some _ _ _ Ht).
      repeat constructor. }
    destruct (TimeFacts.time_apply_mutations_respecting tms tobj Hs Htc)
      as (tobj' & Hrun & Hs').
    exists tobj'; split; [exact Hrun|]. split; [exact Hs'|].
    apply (ascending_NoDup _ _ Hs').
  - assert (Hs : Portfolio.sorted pobj).
    { injection Hp as <-. constructor. }
    destruct (PortfolioFacts.portfolio_apply_mutations_respecting pms pobj Hs Hpc)
      as (pobj' & Hrun & Hs').
    exists pobj'; split; [exact Hrun|]. split; [exact Hs'|].
    apply (ascending_NoDup _ _ Hs').
Qed.

Lemma list_instances_strictly_ascending_witness :
  exists tobj' pobj',
    TimeObject.apply_mutations
      [TimeObject.create_instance true 7; TimeObject.create_instance true 3;
       TimeObject.remove_instance 0; TimeObject.create_instance false 5]
      {| TimeObject.instances :=
           [TimeObject.set_application_type "Clock 0"
              (TimeObject.created_instance 0)] |} = Some tobj'
    /\ TimeObject.list_instances tobj' = [3; 7]%N
    /\ Portfolio.apply_mutations
         [Portfolio.create_instance true 9; Portfolio.create_instance true 2;
          Portfolio.create_instance true 4; Portfolio.remove_instance 9]
         {| Portfolio.instances := []; Portfolio.backup := [] |} = Some pobj'
    /\ Portfolio.list_instances pobj' = [2; 4]%N
    /\ StronglySorted N.lt (TimeObject.list_instances tobj')
    /\ StronglySorted N.lt (Portfolio.list_instances pobj').
Proof.
  destruct (@list_instances_strictly_ascending anjay_2_defs
              {| TimeObject.instances :=
                   [TimeObject.set_application_type "Clock 0"
                      (TimeObject.created_instance 0)] |}
              [TimeObject.create_instance true 7;
               TimeObject.create_instance true 3;
               TimeObject.remove_instance 0;
               TimeObject.create_instance false 5]
              {| Portfolio.instances := []; Portfolio.backup := [] |}
              [Portfolio.create_instance true 9;
               Portfolio.create_instance true 2;
               Portfolio.create_instance true 4;
               Portfolio.remove_instance 9])
    as [(tobj' & Ht & Hts & _) (pobj' & Hp & Hps & _)].
  - reflexivity.
  - run_contract.
  - reflexivity.
  - run_contract.
  - exists tobj', pobj'.
    pose proof Ht as Ht'. pose proof Hp as Hp'.
    vm_compute in Ht'. vm_compute in Hp'.
    injection Ht' as <-. injection Hp' as <-.
    repeat split; try assumption; reflexivity.
Defined.

(** C2 (as amended). [instance_create] is specified for an identifier that
    is not in use (and, for the Time object, is not the invalid one); the
    handlers have no error for an identifier in use. On an ordered object
    and such an identifier: when the allocation fails, the handler returns
    [ANJAY_ERR_INTERNAL], which is not [0], and the object is unchanged;
    otherwise it returns [0], the identifiers are the old ones and the new
    one, still strictly ascending, the other instances are found as before,
    and the new instance is zero-initialised: empty strings for the Time
    object, no slot present and empty values for the Portfolio object. *)
Theorem instance_create_absent_iid `{AnjayDefs}
    (tobj : TimeObject.time_object_t) (pobj : Portfolio.portfolio_t) (i : N) :
  TimeObject.sorted tobj ->
  ~ In i (TimeObject.list_instances tobj) ->
  i <> ANJAY_ID_INVALID ->
  Portfolio.sorted pobj ->
  ~ In i (Portfolio.list_instances pobj) ->
  ANJAY_ERR_INTERNAL <> 0
  /\ TimeObject.instance_create false tobj i = Some (ANJAY_ERR_INTERNAL, tobj)
  /\ Portfolio.instance_create false pobj i = (ANJAY_ERR_INTERNAL, pobj)
  /\ (exists tobj',
         TimeObject.instance_create true tobj i = Some (0, tobj')
         /\ StronglySorted N.lt (TimeObject.list_instances tobj')
         /\ (forall x, In x (TimeObject.list_instances tobj')
                       <-> x = i \/ In x (TimeObject.list_instances tobj))
         /\ TimeObject.find_instance tobj' i
            = Some {| TimeObject.iid := i;
                      TimeObject.application_type := "";
                      TimeObject.application_type_backup := "";
                      TimeObject.last_notify_timestamp := 0 |}
         /\ (forall j, j <> i ->
                       TimeObject.find_instance tobj' j
                       = TimeObject.find_instance tobj j))
  /\ (exists pobj',
         Portfolio.instance_create true pobj i = (0, pobj')
         /\ StronglySorted N.lt (Portfolio.list_instances pobj')
         /\ (forall x, In x (Portfolio.list_instances pobj')
                       <-> x = i \/ In x (Portfolio.list_instances pobj))
         /\ Portfolio.find_instance pobj' i
            = Some {| Portfolio.iid := i;
                      Portfolio.has_identity := [false; false; false; false];
                      Portfolio.identity_value :=
                        [EmptyString; EmptyString; EmptyString; EmptyString] |}
         /\ (forall j, j <> i ->
                       Portfolio.find_instance pobj' j
                       = Portfolio.find_instance pobj j)
         /\ Portfolio.backup pobj' = Portfolio.backup pobj).
Proof.
  intros Hts Htn Hi Hps Hpn.
  split; [apply ANJAY_ERR_INTERNAL_nonzero|].
  split; [apply (TimeFacts.time_instance_create_absent false tobj i Htn Hi)|].
  split; [reflexivity|]. split.
  - eexists; split;
      [apply (TimeFacts.time_instance_create_absent true tobj i Htn Hi)|].
    split; [|split; [|split]].
    + apply (avs_insert_ascending TimeObject.iid
               (TimeObject.created_instance i) _ Hts Htn).
    + intros x. apply (avs_insert_ids TimeObject.iid
                         (TimeObject.created_instance i)).
    + apply (avs_insert_find TimeObject.iid (TimeObject.created_instance i) _
               Hts Htn).
    + intros j Hj.
      apply (avs_insert_find_other TimeObject.iid
               (TimeObject.created_instance i) _ j Hts Htn Hj).
  - eexists; split; [apply (PortfolioFacts.portfolio_instance_create_eq true pobj i)|].
    split; [|split; [|split; [|split]]].
    + apply (avs_insert_ascending Portfolio.iid
               (Portfolio.created_instance i) _ Hps Hpn).
    + intros x. apply (avs_insert_ids Portfolio.iid
                         (Portfolio.created_instance i)).
    + apply (avs_insert_find Portfolio.iid (Portfolio.created_instance i)
               _ Hps Hpn).
    + intros j Hj.
      apply (avs_insert_find_other Portfolio.iid
               (Portfolio.created_instance i) _ j Hps Hpn Hj).
    + reflexivity.
Qed.

Lemma instance_create_absent_iid_witness :
  TimeObject.instance_create (H := anjay_2_defs) false
    {| TimeObject.instances := [TimeObject.created_instance 0] |} 2
  = Some (-160, {| TimeObject.instances := [TimeObject.created_instance 0] |})
  /\ (exists tobj',
         TimeObject.instance_create (H := anjay_2_defs) true
           {| TimeObject.instances := [TimeObject.created_instance 0] |} 2
         = Some (0, tobj')
         /\ TimeObject.list_instances tobj' = [0; 2]%N)
  /\ (exists pobj',
         Portfolio.instance_create (H := anjay_2_defs) true
           {| Portfolio.instances :=
                [Portfolio.created_instance 1;
                 Portfolio.created_instance 5];
              Portfolio.backup := [] |} 2
         = (0, pobj')
         /\ Portfolio.list_instances pobj' = [1; 2; 5]%N).
Proof.
  destruct (@instance_create_absent_iid anjay_2_defs
              {| TimeObject.instances := [TimeObject.created_instance 0] |}
              {| Portfolio.instances :=
                   [Portfolio.created_instance 1;
                    Portfolio.created_instance 5];
                 Portfolio.backup := [] |} 2%N)
    as (_ & Hfail & _ & (tobj' & Ht & _) & (pobj' & Hp & _)).
  - repeat constructor.
  - closed_guard.
  - discriminate.
  - repeat constructor.
  - closed_guard.
  - split; [exact Hfail|]. split.
    + exists tobj'. split; [exact Ht|].
      vm_compute in Ht. injection Ht as <-. reflexivity.
    + exists pobj'. split; [exact Hp|].
      vm_compute in Hp. injection Hp as <-. reflexivity.
Defined.

(** C2, the claim as stated fails: on a Portfolio object that holds
    instance 1, [instance_create] for identifier 1 reports success and the
    object then lists the identifier twice. *)
Lemma instance_create_present_iid_succeeds :
  Portfolio.instance_create (H := anjay_2_defs) true
    {| Portfolio.instances := [Portfolio.created_instance 1];
       Portfolio.backup := [] |} 1
  = (0, {| Portfolio.instances :=
             [Portfolio.created_instance 1;
              Portfolio.created_instance 1];
           Portfolio.backup := [] |})
  /\ Portfolio.list_instances
       (snd (Portfolio.instance_create (H := anjay_2_defs) true
               {| Portfolio.instances := [Portfolio.created_instance 1];
                  Portfolio.backup := [] |} 1))
     = [1; 1]%N.
Proof. split; reflexivity. Qed.

(** C1 (as amended). Rollback law. Portfolio object: when
    [transaction_begin] reports success, whatever mutations follow (instance
    creation, instance removal, resource writes, none failing an assertion),
    [transaction_rollback] returns [0] and gives back the object as it was
    before [transaction_begin]: the same instances in the same order, every
    presence flag and value, and no snapshot. Time object: when the
    mutations that follow [transaction_begin] are resource writes,
    [transaction_rollback] returns [0] and gives back what was observable
    before: the same instances with the same application type and
    notification time. (The Time object saves the application type only:
    its rollback does not undo the creation or removal of instances.) *)
Theorem rollback_restores_state `{AnjayDefs}
    (clone_ok : bool) (pobj pobj1 pobj2 : Portfolio.portfolio_t)
    (pms : list Portfolio.mutation)
    (tobj tobj2 : TimeObject.time_object_t) (tms : list TimeObject.mutation) :
  Portfolio.transaction_begin clone_ok pobj = Some (0, pobj1) ->
  Portfolio.apply_mutations pms pobj1 = Some pobj2 ->
  forallb TimeObject.is_write tms = true ->
  TimeObject.apply_mutations tms (snd (TimeObject.transaction_begin tobj))
  = Some tobj2 ->
  Portfolio.transaction_rollback pobj2 = (0, pobj)
  /\ fst (TimeObject.transaction_rollback tobj2) = 0
  /\ TimeObject.visible_state (snd (TimeObject.transaction_rollback tobj2))
     = TimeObject.visible_state tobj.
Proof.
  intros Hbegin Hprun Hw Htrun. split; [|split].
  - destruct (PortfolioFacts.transaction_begin_success _ _ _ Hbegin)
      as (Hb & Hi & Hb1).
    pose proof (PortfolioFacts.portfolio_apply_mutations_backup _ _ _ Hprun) as Hb2.
    unfold Portfolio.transaction_rollback. rewrite Hb2, Hb1.
    destruct pobj as [l b]; simpl in *. subst b. reflexivity.
  - reflexivity.
  - pose proof (TimeFacts.writes_keep_frame _ _ _ Hw Htrun) as Hf.
    unfold TimeObject.visible_state; simpl.
    apply TimeFacts.rollback_after_begin_frame. exact Hf.
Qed.

Lemma rollback_restores_state_witness :
  exists pobj2 tobj2,
    Portfolio.apply_mutations (H := anjay_2_defs)
      [Portfolio.write_resource 1 0 0 (ctx_of_string "Y");
       Portfolio.create_instance true 2;
       Portfolio.remove_instance 1]
      {| Portfolio.instances := [Portfolio.created_instance 1];
         Portfolio.backup := [Portfolio.created_instance 1] |}
    = Some pobj2
    /\ Portfolio.list_instances pobj2 = [2]%N
    /\ Portfolio.transaction_rollback pobj2
       = (0, {| Portfolio.instances := [Portfolio.created_instance 1];
                Portfolio.backup := [] |})
    /\ TimeObject.apply_mutations (H := anjay_2_defs)
         [TimeObject.write_resource 0 5750 65535 (ctx_of_string "Wall clock")]
         (snd (TimeObject.transaction_begin
                 {| TimeObject.instances :=
                      [TimeObject.set_application_type "Clock 0"
                         (TimeObject.created_instance 0)] |}))
       = Some tobj2
    /\ TimeObject.visible_state tobj2 = [(0%N, "Wall clock"%string, 0)]
    /\ TimeObject.visible_state (snd (TimeObject.transaction_rollback tobj2))
       = [(0%N, "Clock 0"%string, 0)].
Proof.
  eexists _, _.
  split; [vm_compute; reflexivity|]. split; [reflexivity|].
  refine ((fun P => conj (proj1 P)
                      (conj eq_refl (conj eq_refl (proj2 (proj2 P)))))
            (@rollback_restores_state anjay_2_defs true
               {| Portfolio.instances := [Portfolio.created_instance 1];
                  Portfolio.backup := [] |}
               _ _
               [Portfolio.write_resource 1 0 0 (ctx_of_string "Y");
                Portfolio.create_instance true 2;
                Portfolio.remove_instance 1]
               {| TimeObject.instances :=
                    [TimeObject.set_application_type "Clock 0"
                       (TimeObject.created_instance 0)] |}
               _
               [TimeObject.write_resource 0 5750 65535
                  (ctx_of_string "Wall clock")]
               eq_refl eq_refl eq_refl eq_refl)).
Defined.

(** C1, the claim as stated fails for the Time object: an instance created
    between [transaction_begin] and [transaction_rollback] is still there
    after the rollback, and an instance removed in between stays removed. *)
Lemma time_rollback_keeps_lifecycle_changes :
  let obj0 :=
    {| TimeObject.instances :=
         [TimeObject.set_application_type "Clock 0"
            (TimeObject.created_instance 0)] |} in
  let obj1 := snd (TimeObject.transaction_begin obj0) in
  TimeObject.time_object_create (H := anjay_2_defs) true true
  = Some (Some obj0)
  /\ TimeObject.list_instances obj0 = [0]%N
  /\ (exists obj2,
         TimeObject.instance_create (H := anjay_2_defs) true obj1 1
         = Some (0, obj2)
         /\ TimeObject.list_instances
              (snd (TimeObject.transaction_rollback obj2)) = [0; 1]%N)
  /\ (exists obj2,
         TimeObject.instance_remove obj1 0 = Some (0, obj2)
         /\ TimeObject.list_instances
              (snd (TimeObject.transaction_rollback obj2)) = []).
Proof.
  cbv zeta. split; [reflexivity|]. split; [reflexivity|].
  split; eexists; split; reflexivity.
Qed.

(** C4. Scenario A on the Portfolio object: from the empty object, create
    instance 1, write "X" to slot 0, begin a transaction, write "Y" to
    slot 0, create instance 2, roll back. Every call reports success; in the
    end the instances are exactly 1, slot 0 of instance 1 is present and
    reads "X", it is the only slot present, and instance 2 is not found. *)
Theorem scenario_A_rollback `{AnjayDefs} :
  exists o0 o1 o2 o3 o4 o5 o6,
    Portfolio.portfolio_object_create true = Some o0
    /\ Portfolio.list_instances o0 = []
    /\ Portfolio.instance_create true o0 1 = (0, o1)
    /\ Portfolio.resource_write o1 1 Portfolio.RID_IDENTITY 0
         (ctx_of_string "X") = Some (0, o2)
    /\ Portfolio.transaction_begin true o2 = Some (0, o3)
    /\ Portfolio.resource_write o3 1 Portfolio.RID_IDENTITY 0
         (ctx_of_string "Y") = Some (0, o4)
    /\ Portfolio.instance_create true o4 2 = (0, o5)
    /\ Portfolio.list_instances o5 = [1; 2]%N
    /\ Portfolio.resource_read o5 1 Portfolio.RID_IDENTITY 0
       = Some (Portfolio.anjay_ret_string "Y")
    /\ Portfolio.transaction_rollback o5 = (0, o6)
    /\ Portfolio.list_instances o6 = [1]%N
    /\ Portfolio.resource_read o6 1 Portfolio.RID_IDENTITY 0
       = Some (Portfolio.anjay_ret_string "X")
    /\ Portfolio.list_resource_instances o6 1 Portfolio.RID_IDENTITY
       = Some (0, [0%N])
    /\ Portfolio.find_instance o6 2 = None
    /\ o6 = o2.
Proof.
  do 7 eexists. repeat (split; [reflexivity|]). reflexivity.
Qed.

(** * [time_object_notify] *)
Module TimeNotifyFacts.
Import TimeObject.

Section Facts.
Variable World : Type.
Variable clock_seconds : World -> option Z * World.
Variable anjay_notify_changed : World -> N -> N -> N -> Z * World.

Lemma notify_instances_trace (now : Z) (l : list time_instance_t) (w : World) :
  snd (notify_instances anjay_notify_changed now l w)
  = map notification (filter (differs now) l).
Proof.
  revert w; induction l as [|it l IH]; intros w; simpl; [reflexivity|].
  unfold notify_instance, differs.
  destruct (Z.eqb_spec (last_notify_timestamp it) now) as [He|Hne]; simpl.
  - specialize (IH w).
    destruct (notify_instances anjay_notify_changed now l w) as [[l' w'] tr].
    exact IH.
  - destruct (anjay_notify_changed w 3333%N (iid it) RID_CURRENT_TIME)
      as [r w1].
    specialize (IH w1).
    destruct (notify_instances anjay_notify_changed now l w1) as [[l' w'] tr].
    simpl in *. rewrite IH. reflexivity.
Qed.

(** The loop against the relation, with, position by position, the fields of
    the instance that the loop leaves. *)
Lemma notify_instances_notified (now : Z) (l : list time_instance_t) (w : World) :
  let '(l', w', tr) := notify_instances anjay_notify_changed now l w in
  exists os,
    notified anjay_notify_changed now w l l' w' tr os
    /\ forall (k : nat) (it : time_instance_t),
         nth_error l k = Some it ->
         exists it' o,
           nth_error l' k = Some it' /\ nth_error os k = Some o
           /\ iid it' = iid it
           /\ application_type it' = application_type it
           /\ application_type_backup it' = application_type_backup it
           /\ match o with
              | passed_over =>
                  last_notify_timestamp it = now
                  /\ last_notify_timestamp it' = now
              | attempted r =>
                  last_notify_timestamp it <> now
                  /\ last_notify_timestamp it'
                     = if r =? 0 then now else last_notify_timestamp it
              end.
Proof.
  revert w; induction l as [|it l IH]; intros w; simpl.
  - exists []. split; [constructor|]. intros [|k] it; discriminate.
  - unfold notify_instance.
    destruct (Z.eqb_spec (last_notify_timestamp it) now) as [He|Hne]; simpl.
    + specialize (IH w).
      destruct (notify_instances anjay_notify_changed now l w) as [[l' w'] tr].
      destruct IH as (os & Hn & Hpos).
      exists (passed_over :: os). split; [constructor; assumption|].
      intros [|k] x Hx; simpl in *.
      * injection Hx as <-. exists it, passed_over. auto 10.
      * exact (Hpos k x Hx).
    + destruct (anjay_notify_changed w 3333%N (iid it) RID_CURRENT_TIME)
        as [r w1] eqn:Hn.
      specialize (IH w1).
      destruct (notify_instances anjay_notify_changed now l w1)
        as [[l' w'] tr].
      destruct IH as (os & Hrel & Hpos).
      exists (attempted r :: os). simpl. split.
      * destruct (Z.eqb_spec r 0) as [->|Hr].
        -- apply notified_success with (w1 := w1); assumption.
        -- apply notified_failure with (w1 := w1); assumption.
      * intros [|k] x Hx; simpl in *.
        -- injection Hx as <-.
           exists (if r =? 0 then set_last_notify_timestamp now it else it),
                  (attempted r).
           destruct (r =? 0); simpl; auto 10.
        -- exact (Hpos k x Hx).
Qed.

(** C9. [time_object_notify] reads the clock once, before anything else.
    When the reading fails nothing else happens. Otherwise, with [now] the
    reading: the instances are handled as the specification words it
    ([notified], which ties each attempt to what [anjay_notify_changed]
    returned in the state of the environment at that point); the calls made
    after the clock reading are exactly one notification for each instance
    whose field differs from [now], in list order; and, position by
    position, the instance that the run leaves has the identifier, the
    application type and the backup of the one it found, while its
    [last_notify_timestamp] is [now] when the instance was passed over
    (the field was [now] already) or when the attempt returned [0], and is
    the old value, which is not [now], when the attempt returned another
    code. In this last case the instance is left as it was, and an
    invocation on the object so left, in any state of the environment,
    issues a notification for it again when it reads the same timestamp or
    any timestamp other than the value of the field. *)
Theorem time_object_notify_once_per_change (obj : time_object_t) (w : World) :
  let '(ts, w1) := clock_seconds w in
  match ts with
  | None =>
      time_object_notify clock_seconds anjay_notify_changed true (Some obj) w
      = (Some obj, w1, [EvClock])
  | Some now =>
      exists l' w2 tr os,
        time_object_notify clock_seconds anjay_notify_changed true (Some obj) w
        = (Some {| instances := l' |}, w2, EvClock :: tr)
        /\ notified anjay_notify_changed now w1 (instances obj) l' w2 tr os
        /\ tr = map notification (filter (differs now) (instances obj))
        /\ forall (k : nat) (it : time_instance_t),
             nth_error (instances obj) k = Some it ->
             exists it' o,
               nth_error l' k = Some it' /\ nth_error os k = Some o
               /\ iid it' = iid it
               /\ application_type it' = application_type it
               /\ application_type_backup it' = application_type_backup it
               /\ match o with
                  | passed_over =>
                      last_notify_timestamp it = now
                      /\ last_notify_timestamp it' = now
                  | attempted r =>
                      last_notify_timestamp it <> now
                      /\ last_notify_timestamp it'
                         = (if r =? 0 then now else last_notify_timestamp it)
                      /\ (r <> 0 ->
                          it' = it
                          /\ forall (w' w'' : World) (next : Z),
                               clock_seconds w' = (Some next, w'') ->
                               next = now
                               \/ next <> last_notify_timestamp it ->
                               In (notification it)
                                  (snd (time_object_notify
                                          clock_seconds anjay_notify_changed
                                          true (Some {| instances := l' |})
                                          w')))
                  end
  end.
Proof.
  unfold time_object_notify; simpl.
  destruct (clock_seconds w) as [[now|] w1]; [|reflexivity].
  pose proof (notify_instances_notified now (instances obj) w1) as Hn.
  pose proof (notify_instances_trace now (instances obj) w1) as Ht.
  destruct (notify_instances anjay_notify_changed now (instances obj) w1)
    as [[l' w2] tr].
  simpl in Ht. destruct Hn as (os & Hn & Hpos).
  exists l', w2, tr, os.
  split; [reflexivity|]. split; [exact Hn|]. split; [exact Ht|].
  intros k it Hk.
  destruct (Hpos k it Hk) as (it' & o & Hk' & Ho & Hi & Ha & Hb & Hl).
  exists it', o. repeat (split; [assumption|]).
  destruct o as [|r]; [exact Hl|].
  destruct Hl as [Hne Hl]. split; [exact Hne|]. split; [exact Hl|].
  intros Hr. apply Z.eqb_neq in Hr. rewrite Hr in Hl.
  assert (He : it' = it)
    by (destruct it', it; simpl in *; congruence).
  split; [exact He|]. subst it'.
  intros w' w'' next Hclock Hnext. rewrite Hclock.
  pose proof (notify_instances_trace next l' w'') as Ht'.
  destruct (notify_instances anjay_notify_changed next l' w'')
    as [[l'' w3] tr'].
  simpl in *. right. rewrite Ht'. apply in_map. apply filter_In.
  split; [exact (nth_error_In _ _ Hk')|]. unfold differs.
  destruct (Z.eqb_spec (last_notify_timestamp it) next) as [He|]; [|reflexivity].
  destruct Hnext as [->|Hnext]; congruence.
Qed.
End Facts.

(** C9 on a concrete run. The clock reads [100]; the environment counts the
    calls and refuses the notifications for the instance [1]. Of three
    instances, the first ([last_notify_timestamp] [0]) is notified and takes
    the timestamp, the second ([0]) is notified and keeps its value, the
    third ([100]) is passed over; a second invocation at [100] notifies the
    second instance again. *)
Lemma time_object_notify_once_per_change_witness :
  let clock := fun w : nat => (Some 100, w) in
  let notify := fun (w : nat) (_ i _ : N) =>
                  (if (i =? 1)%N then -1 else 0, S w) in
  let inst := fun i t =>
                {| iid := i; application_type := "";
                   application_type_backup := ""; last_notify_timestamp := t |} in
  let obj := {| instances := [inst 0%N 0; inst 1%N 0; inst 2%N 100] |} in
  time_object_notify clock notify true (Some obj) 0%nat
  = (Some {| instances := [inst 0%N 100; inst 1%N 0; inst 2%N 100] |}, 2%nat,
     [EvClock; EvNotify 3333 0 5506; EvNotify 3333 1 5506])
  /\ In (EvNotify 3333 1 5506)
        (snd (time_object_notify clock notify true
                (Some {| instances := [inst 0%N 100; inst 1%N 0; inst 2%N 100] |})
                2%nat)).
Proof.
  intros clock notify inst obj.
  pose proof (time_object_notify_once_per_change nat clock notify obj 0%nat)
    as T.
  change (clock 0%nat) with (Some 100, 0%nat) in T. cbv iota in T.
  destruct T as (l' & w2 & tr & os & Hrun & _ & _ & Hpos).
  pose proof Hrun as E. vm_compute in E. injection E as Ew Et El.
  subst l' w2 tr.
  split; [exact Hrun|].
  destruct (Hpos 1%nat (inst 1%N 0) eq_refl)
    as (it' & o & Hk & _ & _ & _ & _ & Ho).
  injection Hk as <-.
  destruct o as [|r]; [destruct Ho; discriminate|].
  destruct Ho as (_ & Hf & Hretry).
  assert (Hr : r <> 0).
  { intros ->. simpl in Hf. discriminate. }
  destruct (Hretry Hr) as [_ Hagain].
    exact (Hagain 2%nat 2%nat 100 eq_refl (or_introl eq_refl)).
Defined.
End TimeNotifyFacts.

(** * The security resolver *)
Module SecurityFacts.
Import Security.

Section Classifier.
Context `{SecurityDefs}.

(** The mode codes are pairwise distinct. *)
Lemma security_modes_neq :
  ANJAY_SECURITY_PSK <> ANJAY_SECURITY_RPK
  /\ ANJAY_SECURITY_PSK <> ANJAY_SECURITY_CERTIFICATE
  /\ ANJAY_SECURITY_PSK <> ANJAY_SECURITY_NOSEC
  /\ ANJAY_SECURITY_PSK <> ANJAY_SECURITY_EST
  /\ ANJAY_SECURITY_RPK <> ANJAY_SECURITY_CERTIFICATE
  /\ ANJAY_SECURITY_RPK <> ANJAY_SECURITY_NOSEC
  /\ ANJAY_SECURITY_RPK <> ANJAY_SECURITY_EST
  /\ ANJAY_SECURITY_CERTIFICATE <> ANJAY_SECURITY_NOSEC
  /\ ANJAY_SECURITY_CERTIFICATE <> ANJAY_SECURITY_EST
  /\ ANJAY_SECURITY_NOSEC <> ANJAY_SECURITY_EST.
Proof.
  pose proof security_modes_distinct as Hd.
  repeat match goal with
         | Hn : NoDup (_ :: _) |- _ =>
             apply NoDup_cons_iff in Hn; destruct Hn as [? Hn]
         end.
  simpl in *. repeat split; intros He; rewrite ?He in *; tauto.
Qed.

Lemma supported_not_rpk (mode : Z) :
  supported mode = true -> (mode =? ANJAY_SECURITY_RPK) = false.
Proof.
  unfold supported. rewrite !orb_true_iff, !Z.eqb_eq.
  destruct security_modes_neq as (? & ? & ? & ? & ? & ? & ? & ? & ? & ?).
  intros Hs. apply Z.eqb_neq. intros ->. intuition congruence.
Qed.

(** What the classifier does on a mode that the data model delivers. *)
Lemma get_security_mode_read (anjay : anjay_t) (security_iid : N) (mode : Z) :
  dm_i64 anjay (security_path security_iid ANJAY_DM_RID_SECURITY_MODE)
  = Some mode ->
  get_security_mode anjay security_iid =
    if mode =? ANJAY_SECURITY_RPK then
      (Err (-1),
       [EvReadI64 (security_path security_iid ANJAY_DM_RID_SECURITY_MODE);
        EvLog ERROR "unsupported security mode: %s" [ArgInt mode]])
    else if supported mode then
      (Got mode,
       [EvReadI64 (security_path security_iid ANJAY_DM_RID_SECURITY_MODE)])
    else
      (Err (-1),
       [EvReadI64 (security_path security_iid ANJAY_DM_RID_SECURITY_MODE);
        EvLog ERROR "invalid security mode: %s" [ArgInt mode]]).
Proof.
  intros Hread. unfold get_security_mode, _anjay_dm_read_resource_i64.
  unfold security_path in Hread. simpl. rewrite Hread.
  unfold supported. destruct (mode =? ANJAY_SECURITY_RPK); [reflexivity|].
  destruct ((mode =? ANJAY_SECURITY_NOSEC) || (mode =? ANJAY_SECURITY_PSK)
            || (mode =? ANJAY_SECURITY_CERTIFICATE)
            || (mode =? ANJAY_SECURITY_EST)); reflexivity.
Qed.

(** When the classifier fails, the resolver stops there. *)
Lemma get_config_mode_error (calloc_ok : bool) (anjay : anjay_t)
    (inout_info : anjay_connection_info_t) (code : Z) :
  value (get_security_mode anjay (security_iid inout_info)) = Err code ->
  _anjay_connection_security_generic_get_config calloc_ok anjay inout_info
  = ((None, inout_info),
     EvCalloc calloc_ok
     :: (if calloc_ok
         then trace (get_security_mode anjay (security_iid inout_info))
         else [])
     ++ [EvFree calloc_ok]).
Proof.
  intros Hm. unfold _anjay_connection_security_generic_get_config.
  destruct calloc_ok; [|reflexivity]. simpl.
  destruct (get_security_mode anjay (security_iid inout_info)) as [m tr].
  simpl in *. subst m. reflexivity.
Qed.

(** C7 (as amended). Security mode classifier, on a mode code that the
    Security object delivers. For the RawKey code the classifier logs
    "unsupported security mode" and returns [-1]; for a code outside the
    enumeration it logs "invalid security mode" and returns the same [-1]:
    the two failures differ in the diagnostic only. For each of the four
    supported codes it succeeds with that code and logs nothing. When the
    classifier fails, the resolver returns [NULL] and leaves the connection
    info as it was, whatever the transport; apart from the allocation and
    the release of the block, its only effects are those of the classifier:
    no transport check is reported and no credential resource is read. *)
Theorem get_security_mode_classification (anjay : anjay_t) (security_iid : N)
    (mode : Z) :
  dm_i64 anjay (security_path security_iid ANJAY_DM_RID_SECURITY_MODE)
  = Some mode ->
  let read :=
    EvReadI64 (security_path security_iid ANJAY_DM_RID_SECURITY_MODE) in
  (mode = ANJAY_SECURITY_RPK ->
   get_security_mode anjay security_iid
   = (Err (-1),
      [read; EvLog ERROR "unsupported security mode: %s" [ArgInt mode]]))
  /\ (mode <> ANJAY_SECURITY_RPK -> supported mode = false ->
      get_security_mode anjay security_iid
      = (Err (-1),
         [read; EvLog ERROR "invalid security mode: %s" [ArgInt mode]]))
  /\ (mode = ANJAY_SECURITY_NOSEC \/ mode = ANJAY_SECURITY_PSK
      \/ mode = ANJAY_SECURITY_CERTIFICATE \/ mode = ANJAY_SECURITY_EST ->
      get_security_mode anjay security_iid = (Got mode, [read]))
  /\ (forall code calloc_ok ssid ti enc,
        value (get_security_mode anjay security_iid) = Err code ->
        let info :=
          {| Security.security_iid := security_iid; Security.ssid := ssid;
             transport_info := ti; is_encrypted := enc |} in
        let r :=
          _anjay_connection_security_generic_get_config calloc_ok anjay info in
        value r = (None, info)
        /\ trace r
           = EvCalloc calloc_ok
             :: (if calloc_ok
                 then trace (get_security_mode anjay security_iid) else [])
             ++ [EvFree calloc_ok]
        /\ existsb is_credential_read (trace r) = false).
Proof.
  intros Hread read. pose proof (get_security_mode_read _ _ _ Hread) as Hg.
  split; [|split; [|split]].
  - intros ->. rewrite Z.eqb_refl in Hg. exact Hg.
  - intros Hne Hs. apply Z.eqb_neq in Hne. rewrite Hne, Hs in Hg. exact Hg.
  - intros Hs.
    assert (Hsup : supported mode = true).
    { unfold supported. rewrite !orb_true_iff, !Z.eqb_eq. tauto. }
    rewrite (supported_not_rpk _ Hsup), Hsup in Hg. exact Hg.
  - intros code calloc_ok ssid0 ti enc Herr info r.
    assert (Hr : r = ((None, info),
                      EvCalloc calloc_ok
                      :: (if calloc_ok
                          then trace (get_security_mode anjay security_iid)
                          else [])
                      ++ [EvFree calloc_ok])).
    { apply (get_config_mode_error calloc_ok anjay info code Herr). }
    rewrite Hr. split; [reflexivity|]. split; [reflexivity|].
    unfold trace at 1. simpl. destruct calloc_ok; [|reflexivity].
    rewrite Hg.
    destruct (mode =? ANJAY_SECURITY_RPK); [reflexivity|].
    destruct (supported mode); reflexivity.
Qed.
End Classifier.

Lemma get_security_mode_classification_witness :
  get_security_mode (anjay_of (Some 1) None None None) 0
  = (Err (-1),
     [EvReadI64 (MAKE_RESOURCE_PATH 0 0 2);
      EvLog ERROR "unsupported security mode: %s" [ArgInt 1]])
  /\ get_security_mode (anjay_of (Some 2) None None None) 0
     = (Got 2, [EvReadI64 (MAKE_RESOURCE_PATH 0 0 2)]).
Proof.
  split.
  - apply (proj1 (@get_security_mode_classification lwm2m_defs
                    (anjay_of (Some 1) None None None) 0%N 1 eq_refl)).
    reflexivity.
  - apply (proj1 (proj2 (proj2
             (@get_security_mode_classification lwm2m_defs
                (anjay_of (Some 2) None None None) 0%N 2 eq_refl)))).
    right; right; left; reflexivity.
Defined.

(** C7, the claim as stated fails: the error that the classifier returns
    for the RawKey code (1) is the error that it returns for a code outside
    the enumeration (7). *)
Lemma get_security_mode_same_error_code :
  value (get_security_mode (anjay_of (Some 1) None None None) 0) = Err (-1)
  /\ value (get_security_mode (anjay_of (Some 7) None None None) 0) = Err (-1)
  /\ value (get_security_mode (anjay_of (Some 1) None None None) 0)
     = value (get_security_mode (anjay_of (Some 7) None None None) 0).
Proof. repeat split. Qed.

Section Transport.
Context `{SecurityDefs}.

End Transport.

Section Credentials.
Context `{SecurityDefs}.

(** The loop on one required or optional value whose read succeeds or
    fails. *)
Lemma read_values_cons (anjay : anjay_t) (security_iid : N) (v : value_def_t)
    (rest : list value_def_t) (out_keys : anjay_server_dtls_keys_t) :
  status v <> SKIP ->
  value (read_values anjay security_iid (v :: rest) out_keys)
  = match dm_bytes anjay (security_path security_iid (rid v))
                   (buffer_capacity v) with
    | Some data =>
        value (read_values anjay security_iid rest (store v data out_keys))
    | None =>
        if is_required (status v) then (-1, out_keys)
        else value (read_values anjay security_iid rest out_keys)
    end.
Proof.
  intros Hs. simpl. unfold security_path.
  destruct (status v) eqn:Hst; [contradiction| |]; simpl;
    (destruct (dm_bytes anjay _ (buffer_capacity v)); simpl;
     [destruct (read_values anjay security_iid rest _) as [x tr]; reflexivity|]);
    [destruct (read_values anjay security_iid rest _) as [x tr]|]; reflexivity.
Qed.

(** The extraction for a mode other than NoSec, by the outcome of the three
    reads. *)
Lemma get_dtls_keys_value (anjay : anjay_t) (security_iid : N) (mode : Z)
    (out_keys : anjay_server_dtls_keys_t) :
  mode <> ANJAY_SECURITY_NOSEC ->
  value (get_dtls_keys anjay security_iid mode out_keys)
  = match dm_bytes anjay
            (security_path security_iid ANJAY_DM_RID_SECURITY_PK_OR_IDENTITY)
            ANJAY_MAX_PK_OR_IDENTITY_SIZE with
    | None => (-1, out_keys)
    | Some a =>
        match dm_bytes anjay
                (security_path security_iid
                   ANJAY_DM_RID_SECURITY_SERVER_PK_OR_IDENTITY)
                ANJAY_MAX_SERVER_PK_OR_IDENTITY_SIZE,
              dm_bytes anjay
                (security_path security_iid ANJAY_DM_RID_SECURITY_SECRET_KEY)
                ANJAY_MAX_SECRET_KEY_SIZE with
        | None, None => (-1, set_pk_or_identity a out_keys)
        | None, Some c =>
            if mode =? ANJAY_SECURITY_PSK
            then (0, set_secret_key c (set_pk_or_identity a out_keys))
            else (-1, set_pk_or_identity a out_keys)
        | Some b, None =>
            (-1, set_server_pk_or_identity b (set_pk_or_identity a out_keys))
        | Some b, Some c =>
            (0, set_secret_key c
                  (set_server_pk_or_identity b (set_pk_or_identity a out_keys)))
        end
    end.
Proof.
  intros Hmode. unfold get_dtls_keys.
  apply Z.eqb_neq in Hmode. rewrite Hmode.
  rewrite read_values_cons by discriminate.
  cbn [rid buffer_capacity status store is_required PK_OR_IDENTITY_VALUE].
  destruct (dm_bytes anjay _ ANJAY_MAX_PK_OR_IDENTITY_SIZE) as [a|];
    [|reflexivity].
  rewrite read_values_cons
    by (simpl; destruct (mode =? ANJAY_SECURITY_PSK); discriminate).
  cbn [rid buffer_capacity status store SERVER_PK_OR_IDENTITY_VALUE].
  destruct (dm_bytes anjay _ ANJAY_MAX_SERVER_PK_OR_IDENTITY_SIZE) as [b|].
  - rewrite read_values_cons by discriminate.
    cbn [rid buffer_capacity status store is_required SECRET_KEY_VALUE].
    destruct (dm_bytes anjay _ ANJAY_MAX_SECRET_KEY_SIZE); reflexivity.
  - destruct (mode =? ANJAY_SECURITY_PSK); cbn [negb is_required].
    + rewrite read_values_cons by discriminate.
      cbn [rid buffer_capacity status store is_required SECRET_KEY_VALUE].
      destruct (dm_bytes anjay _ ANJAY_MAX_SECRET_KEY_SIZE); reflexivity.
    + destruct (dm_bytes anjay _ ANJAY_MAX_SECRET_KEY_SIZE); reflexivity.
Qed.

(** C6. Credential extractor. For NoSec the extraction returns [0] at once:
    no resource is read and the keys are untouched. For every other mode
    the local identity and the secret key are required, and the peer
    identity is required unless the mode is PSK, for which it is optional.
    A required field whose read fails makes the extraction return [-1]. On
    PSK, when the local identity and the secret key are read and the read of
    the peer identity fails, the extraction returns [0] with the two fields
    stored and the peer field left as it was: empty, for the zeroed keys
    that the resolver passes. *)
Theorem get_dtls_keys_requirements (anjay : anjay_t) (security_iid : N)
    (security_mode : Z) (out_keys : anjay_server_dtls_keys_t) :
  let pk :=
    dm_bytes anjay
      (security_path security_iid ANJAY_DM_RID_SECURITY_PK_OR_IDENTITY)
      ANJAY_MAX_PK_OR_IDENTITY_SIZE in
  let server :=
    dm_bytes anjay
      (security_path security_iid ANJAY_DM_RID_SECURITY_SERVER_PK_OR_IDENTITY)
      ANJAY_MAX_SERVER_PK_OR_IDENTITY_SIZE in
  let secret :=
    dm_bytes anjay
      (security_path security_iid ANJAY_DM_RID_SECURITY_SECRET_KEY)
      ANJAY_MAX_SECRET_KEY_SIZE in
  get_dtls_keys anjay security_iid ANJAY_SECURITY_NOSEC out_keys
  = ((0, out_keys), [])
  /\ status PK_OR_IDENTITY_VALUE = REQUIRED
  /\ status SECRET_KEY_VALUE = REQUIRED
  /\ status (SERVER_PK_OR_IDENTITY_VALUE security_mode)
     = (if security_mode =? ANJAY_SECURITY_PSK then OPTIONAL else REQUIRED)
  /\ (security_mode <> ANJAY_SECURITY_NOSEC ->
      (pk = None ->
       value (get_dtls_keys anjay security_iid security_mode out_keys)
       = (-1, out_keys))
      /\ (forall a, pk = Some a -> server = None ->
                    security_mode <> ANJAY_SECURITY_PSK ->
          value (get_dtls_keys anjay security_iid security_mode out_keys)
          = (-1, set_pk_or_identity a out_keys))
      /\ (forall a, pk = Some a -> server = None -> secret = None ->
          value (get_dtls_keys anjay security_iid security_mode out_keys)
          = (-1, set_pk_or_identity a out_keys))
      /\ (forall a b, pk = Some a -> server = Some b -> secret = None ->
          value (get_dtls_keys anjay security_iid security_mode out_keys)
          = (-1, set_server_pk_or_identity b (set_pk_or_identity a out_keys)))
      /\ (forall a b c, pk = Some a -> server = Some b -> secret = Some c ->
          value (get_dtls_keys anjay security_iid security_mode out_keys)
          = (0, {| pk_or_identity := a; server_pk_or_identity := b;
                   secret_key := c |})))
  /\ (forall a c, pk = Some a -> server = None -> secret = Some c ->
      value (get_dtls_keys anjay security_iid ANJAY_SECURITY_PSK out_keys)
      = (0, {| pk_or_identity := a;
               server_pk_or_identity := server_pk_or_identity out_keys;
               secret_key := c |})).
Proof.
  cbv zeta.
  destruct security_modes_neq as (_ & _ & Hpn & _).
  split; [unfold get_dtls_keys; rewrite Z.eqb_refl; reflexivity|].
  split; [reflexivity|]. split; [reflexivity|].
  split; [simpl; destruct (security_mode =? ANJAY_SECURITY_PSK); reflexivity|].
  split.
  - intros Hmode. rewrite (get_dtls_keys_value _ _ _ _ Hmode).
    split; [intros ->; reflexivity|].
    split; [intros a -> -> Hp; apply Z.eqb_neq in Hp; rewrite Hp;
            destruct (dm_bytes anjay _ ANJAY_MAX_SECRET_KEY_SIZE); reflexivity|].
    split; [intros a -> -> ->; reflexivity|].
    split; [intros a b -> -> ->; reflexivity|].
    intros a b c -> -> ->; reflexivity.
  - intros a c Hpk Hserver Hsecret. rewrite (get_dtls_keys_value _ _ _ _ Hpn).
    rewrite Hpk, Hserver, Hsecret, Z.eqb_refl. reflexivity.
Qed.
End Credentials.

(** Scenario C: PSK, the identity and the key are readable, the peer
    credential is not. The extraction succeeds and the peer field is empty. *)
Lemma get_dtls_keys_requirements_witness :
  let anjay :=
    anjay_of (Some 0) (Some [Byte.x69; Byte.x64]) None (Some [Byte.x6b]) in
  value (get_dtls_keys anjay 0 0 (dtls_keys (fresh_config anjay)))
  = (0, {| pk_or_identity := [Byte.x69; Byte.x64];
           server_pk_or_identity := [];
           secret_key := [Byte.x6b] |}).
Proof.
  cbv zeta.
  apply (proj2 (proj2 (proj2 (proj2 (proj2
           (@get_dtls_keys_requirements lwm2m_defs
              (anjay_of (Some 0) (Some [Byte.x69; Byte.x64]) None
                        (Some [Byte.x6b]))
              0%N 0
              {| pk_or_identity := []; server_pk_or_identity := [];
                 secret_key := [] |}))))));
    reflexivity.
Defined.

Section Builder.
Context `{SecurityDefs}.

(** C3 (as amended). Security config builder, Certificate and EST modes.
    The initialisation returns [0]; the descriptor holds the local identity
    as client certificate and the secret key as private key, and ignores the
    system trust store. When the extracted peer field is not empty, the
    configuration points at the DANE TLSA record, whose association data is
    the peer field, and both server certificate validation and DANE are
    enabled. When the peer field is empty, no record is set and server
    certificate validation is not enabled. *)
Theorem init_security_certificate_modes
    (security : anjay_security_config_t)
    (record : avs_net_socket_dane_tlsa_record_t)
    (security_mode : Z) (keys : anjay_server_dtls_keys_t) :
  security_mode = ANJAY_SECURITY_CERTIFICATE
  \/ security_mode = ANJAY_SECURITY_EST ->
  let pinned :=
    match server_pk_or_identity keys with [] => false | _ :: _ => true end in
  init_security security record security_mode keys
  = ((0,
      {| security_info :=
           avs_net_security_info_from_certificates
             {| server_cert_validation := pinned;
                ignore_system_trust_store := true;
                dane := pinned;
                client_cert := pk_or_identity keys;
                client_key := secret_key keys |};
         tls_ciphersuites := tls_ciphersuites security;
         dane_tlsa_record :=
           if pinned then true else dane_tlsa_record security |},
      if pinned
      then {| certificate_usage := certificate_usage record;
              association_data := server_pk_or_identity keys |}
      else record),
     []).
Proof.
  intros Hmode pinned.
  destruct security_modes_neq as (_ & Hpc & _ & Hpe & _ & _ & _ & Hcn & _ & Hne).
  unfold init_security.
  assert (Hn : (security_mode =? ANJAY_SECURITY_NOSEC) = false)
    by (apply Z.eqb_neq; destruct Hmode; congruence).
  assert (Hp : (security_mode =? ANJAY_SECURITY_PSK) = false)
    by (apply Z.eqb_neq; destruct Hmode; congruence).
  assert (Hc : (security_mode =? ANJAY_SECURITY_CERTIFICATE)
               || (security_mode =? ANJAY_SECURITY_EST) = true)
    by (rewrite orb_true_iff, !Z.eqb_eq; exact Hmode).
  rewrite Hn, Hp, Hc. unfold init_cert_security, pinned, ret.
  destruct (server_pk_or_identity keys); reflexivity.
Qed.
End Builder.

Lemma init_security_certificate_modes_witness :
  let keys :=
    {| pk_or_identity := [Byte.x69]; server_pk_or_identity := [Byte.x73];
       secret_key := [Byte.x6b] |} in
  let fresh := fresh_config (anjay_of (Some 2) None None None) in
  value (init_security (security_config fresh) (dane_tlsa_record_data fresh)
                       2 keys)
  = (0,
     {| security_info :=
          avs_net_security_info_from_certificates
            {| server_cert_validation := true;
               ignore_system_trust_store := true;
               dane := true;
               client_cert := [Byte.x69];
               client_key := [Byte.x6b] |};
        tls_ciphersuites := [];
        dane_tlsa_record := true |},
     {| certificate_usage := AVS_NET_SOCKET_DANE_DOMAIN_ISSUED_CERTIFICATE;
        association_data := [Byte.x73] |}).
Proof.
  cbv zeta.
  rewrite (@init_security_certificate_modes lwm2m_defs
             (security_config (fresh_config (anjay_of (Some 2) None None None)))
             (dane_tlsa_record_data
                (fresh_config (anjay_of (Some 2) None None None)))
             2
             {| pk_or_identity := [Byte.x69];
                server_pk_or_identity := [Byte.x73];
                secret_key := [Byte.x6b] |}
             (or_introl eq_refl)).
  reflexivity.
Defined.

(** C3, the claim as stated fails: in Certificate mode (code 2), with a peer
    field that is read and is empty, the resolver delivers a descriptor in
    which server certificate validation is not enabled. *)
Lemma certificate_mode_empty_peer_no_validation :
  fst (value (_anjay_connection_security_generic_get_config true
                (anjay_of (Some 2) (Some [Byte.x69]) (Some [])
                          (Some [Byte.x6b]))
                (info_of None)))
  = Some
      {| security_config :=
           {| security_info :=
                avs_net_security_info_from_certificates
                  {| server_cert_validation := false;
                     ignore_system_trust_store := true;
                     dane := false;
                     client_cert := [Byte.x69];
                     client_key := [Byte.x6b] |};
              tls_ciphersuites := [];
              dane_tlsa_record := false |};
         dtls_keys :=
           {| pk_or_identity := [Byte.x69]; server_pk_or_identity := [];
              secret_key := [Byte.x6b] |};
         dane_tlsa_record_data :=
           {| certificate_usage := AVS_NET_SOCKET_DANE_DOMAIN_ISSUED_CERTIFICATE;
              association_data := [] |} |}.
Proof. reflexivity. Qed.

Section ResolverFacts.
Context `{SecurityDefs}.

Lemma existsb_is_free_app (t1 t2 : list sec_event) :
  existsb is_free t1 = false -> existsb is_free t2 = false ->
  existsb is_free (t1 ++ t2) = false.
Proof. intros H1 H2. rewrite existsb_app, H1, H2. reflexivity. Qed.

(** Only the resolver itself releases the block. *)
Lemma get_security_mode_no_free (anjay : anjay_t) (security_iid : N) :
  existsb is_free (trace (get_security_mode anjay security_iid)) = false.
Proof.
  unfold get_security_mode, _anjay_dm_read_resource_i64. simpl.
  destruct (dm_i64 anjay _) as [mode|]; [|reflexivity].
  destruct (mode =? ANJAY_SECURITY_RPK); [reflexivity|].
  destruct ((mode =? ANJAY_SECURITY_NOSEC) || (mode =? ANJAY_SECURITY_PSK)
            || (mode =? ANJAY_SECURITY_CERTIFICATE)
            || (mode =? ANJAY_SECURITY_EST)); reflexivity.
Qed.

Lemma security_matches_transport_no_free (security_mode : Z)
    (ti : anjay_transport_info_t) :
  existsb is_free (trace (security_matches_transport security_mode ti)) = false.
Proof.
  unfold security_matches_transport.
  destruct (security ti); simpl;
    destruct (security_mode =? ANJAY_SECURITY_NOSEC); reflexivity.
Qed.

Lemma read_values_no_free (anjay : anjay_t) (security_iid : N)
    (values : list value_def_t) (out_keys : anjay_server_dtls_keys_t) :
  existsb is_free (trace (read_values anjay security_iid values out_keys))
  = false.
Proof.
  revert out_keys; induction values as [|v rest IH]; intros out_keys; simpl;
    [reflexivity|].
  destruct (status v); [apply IH| |]; simpl;
    (destruct (dm_bytes anjay _ (buffer_capacity v)); simpl;
     [specialize (IH (store v b out_keys))|try specialize (IH out_keys)];
     try destruct (read_values anjay security_iid rest _) as [x tr];
     simpl in *; try exact IH; reflexivity).
Qed.

Lemma get_dtls_keys_no_free (anjay : anjay_t) (security_iid : N)
    (security_mode : Z) (out_keys : anjay_server_dtls_keys_t) :
  existsb is_free
    (trace (get_dtls_keys anjay security_iid security_mode out_keys)) = false.
Proof.
  unfold get_dtls_keys.
  destruct (security_mode =? ANJAY_SECURITY_NOSEC); [reflexivity|].
  apply read_values_no_free.
Qed.

Lemma init_security_no_free (security : anjay_security_config_t)
    (record : avs_net_socket_dane_tlsa_record_t) (security_mode : Z)
    (keys : anjay_server_dtls_keys_t) :
  existsb is_free (trace (init_security security record security_mode keys))
  = false.
Proof.
  unfold init_security.
  destruct (security_mode =? ANJAY_SECURITY_NOSEC); [reflexivity|].
  destruct (security_mode =? ANJAY_SECURITY_PSK).
  - destruct (_anjay_connection_init_psk_security keys); reflexivity.
  - destruct ((security_mode =? ANJAY_SECURITY_CERTIFICATE)
              || (security_mode =? ANJAY_SECURITY_EST)); reflexivity.
Qed.

(** The case of a [NULL] result, for the events [tr] between the allocation
    and the release. *)
Ltac null_result tr :=
  split; [reflexivity|];
  split; [reflexivity|];
  exists tr; split;
  [ simpl; rewrite <- ?app_assoc; simpl; rewrite ?app_nil_r; reflexivity
  | repeat apply existsb_is_free_app; first [assumption | reflexivity] ].

(** C10. Atomicity of the resolver. The resolver returns a descriptor
    exactly when every stage succeeds: the allocation, the classification of
    the mode, the transport check (passed over when no transport is known),
    the extraction of the keys and the initialisation. When it returns
    [NULL], the connection info is as before, [is_encrypted] included, and
    the last thing it does is to release the block (the [NULL] pointer when
    the allocation failed). When it returns a descriptor, the mode was
    classified, the connection info differs from before in [is_encrypted]
    only, which is [true] exactly when the mode is not NoSec, and the block
    is not released. *)
Theorem get_config_all_or_nothing (calloc_ok : bool) (anjay : anjay_t)
    (inout_info : anjay_connection_info_t) :
  let r :=
    _anjay_connection_security_generic_get_config calloc_ok anjay inout_info in
  match fst (value r) with
  | Some _ =>
      all_stages_succeed calloc_ok anjay inout_info = true
      /\ existsb is_free (trace r) = false
      /\ exists security_mode,
           value (get_security_mode anjay (security_iid inout_info))
           = Got security_mode
           /\ is_encrypted (snd (value r))
              = negb (security_mode =? ANJAY_SECURITY_NOSEC)
           /\ security_iid (snd (value r)) = security_iid inout_info
           /\ ssid (snd (value r)) = ssid inout_info
           /\ transport_info (snd (value r)) = transport_info inout_info
  | None =>
      all_stages_succeed calloc_ok anjay inout_info = false
      /\ snd (value r) = inout_info
      /\ exists tr, trace r = EvCalloc calloc_ok :: tr ++ [EvFree calloc_ok]
                    /\ existsb is_free tr = false
  end.
Proof.
  cbv zeta.
  unfold _anjay_connection_security_generic_get_config, all_stages_succeed.
  destruct calloc_ok; simpl; [|null_result (@nil sec_event)].
  pose proof (get_security_mode_no_free anjay (security_iid inout_info)) as F1.
  destruct (get_security_mode anjay (security_iid inout_info)) as [[m|c] t1];
    simpl in *; [|null_result t1].
  assert (F2 : forall ti,
             existsb is_free (trace (security_matches_transport m ti)) = false)
    by (intros ti; apply security_matches_transport_no_free).
  pose proof (get_dtls_keys_no_free anjay (security_iid inout_info) m
                (dtls_keys (fresh_config anjay))) as F3.
  assert (F4 : forall keys,
             existsb is_free
               (trace (init_security (security_config (fresh_config anjay))
                         (dane_tlsa_record_data (fresh_config anjay)) m keys))
             = false)
    by (intros keys; apply init_security_no_free).
  simpl in F3, F4.
  set (check := match transport_info inout_info with
                | Some ti => security_matches_transport m ti
                | None => ret true
                end).
  assert (F2' : existsb is_free (trace check) = false)
    by (unfold check; destruct (transport_info inout_info);
        [apply F2|reflexivity]).
  assert (Hv : match transport_info inout_info with
               | Some ti => value (security_matches_transport m ti)
               | None => true
               end = value check)
    by (unfold check; destruct (transport_info inout_info); reflexivity).
  rewrite Hv. clearbody check. clear Hv F2.
  destruct check as [ok t2]; simpl in *.
  destruct ok; simpl; [|null_result (t1 ++ t2)].
  destruct (get_dtls_keys anjay (security_iid inout_info) m _)
    as [[kres keys] t3]; simpl in *.
  destruct (kres =? 0); simpl; [|null_result (t1 ++ t2 ++ t3)].
  specialize (F4 keys).
  destruct (init_security _ _ m keys) as [[[ires security] record] t4];
    simpl in *.
  destruct (ires =? 0); simpl; [|null_result (t1 ++ t2 ++ t3 ++ t4)].
  split; [reflexivity|]. split.
  - repeat apply existsb_is_free_app; try assumption; reflexivity.
  - exists m; repeat split; reflexivity.
Qed.
End ResolverFacts.

(** C10, on concrete runs with the codes of LwM2M. A NoSec instance reached
    with a connection info whose [is_encrypted] is [true] leaves it [false];
    a PSK instance reached with a connection info whose [is_encrypted] is
    [false] leaves it [true]; an instance whose mode cannot be read leaves
    [is_encrypted] as it was, [true] here. The other three fields are as
    before in each run. *)
Lemma get_config_all_or_nothing_witness :
  let nosec := anjay_of (Some 3) None None None in
  let psk := anjay_of (Some 0) (Some [Byte.x69]) None (Some [Byte.x6b]) in
  let unreadable := anjay_of None None None None in
  let encrypted :=
    {| security_iid := 0%N; ssid := 7%N; transport_info := None;
       is_encrypted := true |} in
  let plain :=
    {| security_iid := 0%N; ssid := 7%N; transport_info := None;
       is_encrypted := false |} in
  snd (value (_anjay_connection_security_generic_get_config
                true nosec encrypted)) = plain
  /\ snd (value (_anjay_connection_security_generic_get_config
                   true psk plain)) = encrypted
  /\ snd (value (_anjay_connection_security_generic_get_config
                   true unreadable encrypted)) = encrypted.
Proof.
  intros nosec psk unreadable encrypted plain.
  pose proof (get_config_all_or_nothing true nosec encrypted) as N.
  pose proof (get_config_all_or_nothing true psk plain) as P.
  pose proof (get_config_all_or_nothing true unreadable encrypted) as U.
  cbv zeta in N, P, U.
  change (fst (value (_anjay_connection_security_generic_get_config
                        true nosec encrypted)))
    with (Some (fresh_config nosec)) in N.
  destruct N as (_ & _ & m & Hm & Ne & Ni & Ns & Nt).
  injection Hm as <-.
  set (rp := _anjay_connection_security_generic_get_config true psk plain)
    in *.
  assert (Hp : exists c, fst (value rp) = Some c)
    by (eexists; vm_compute; reflexivity).
  destruct Hp as (c & Hp). rewrite Hp in P.
  destruct P as (_ & _ & m & Hm & Pe & Pi & Ps & Pt).
  injection Hm as <-.
  change (fst (value (_anjay_connection_security_generic_get_config
                        true unreadable encrypted)))
    with (@None security_config_with_data_t) in U.
  destruct U as (_ & Hu & _).
  split; [|split].
  - destruct (snd (value (_anjay_connection_security_generic_get_config
                            true nosec encrypted))) as [a b t e].
    simpl in Ne, Ni, Ns, Nt. subst. reflexivity.
  - destruct (snd (value rp)) as [a b t e].
    simpl in Pe, Pi, Ps, Pt. subst. reflexivity.
  - exact Hu.
Defined.

End SecurityFacts.

(** * More on the ordered instance lists: lookups after changes *)
Section AvsListLookups.
Context {A : Type} (iid_of : A -> N).

Lemma ascending_iid_injective (l : list A) (a b : A) :
  ascending iid_of l -> In a l -> In b l -> iid_of a = iid_of b -> a = b.
Proof.
  induction l as [|x l IH]; simpl; [tauto|]; intros Hs Ha Hb Heq.
  apply ascending_cons_inv in Hs as [Hl Hlt]. rewrite Forall_forall in Hlt.
  destruct Ha as [<-|Ha], Hb as [<-|Hb]; auto.
  - specialize (Hlt _ (in_map iid_of _ _ Hb)). lia.
  - specialize (Hlt _ (in_map iid_of _ _ Ha)). lia.
Qed.

Lemma avs_find_complete (l : list A) (it : A) :
  ascending iid_of l -> In it l -> avs_find iid_of l (iid_of it) = Some it.
Proof.
  intros Hs Hin.
  destruct (avs_find_present iid_of l (iid_of it) Hs (in_map iid_of _ _ Hin))
    as (it' & Hf).
  rewrite Hf. f_equal.
  destruct (avs_find_some iid_of _ _ _ Hf) as [Hin' Heq].
  apply (ascending_iid_injective l); assumption.
Qed.

Lemma avs_delete_absent (l : list A) (i : N) :
  ~ In i (map iid_of l) -> avs_delete iid_of l i = None.
Proof.
  induction l as [|a l IH]; simpl; [reflexivity|]; intros Hn.
  destruct (N.eqb_spec (iid_of a) i); [tauto|].
  destruct (i <? iid_of a)%N; [reflexivity|].
  rewrite IH by tauto. reflexivity.
Qed.

Lemma avs_delete_insert (c : A) (l : list A) :
  ascending iid_of l -> ~ In (iid_of c) (map iid_of l) ->
  avs_delete iid_of (avs_insert iid_of c l) (iid_of c) = Some l.
Proof.
  induction l as [|a l IH]; simpl; intros Hs Hn.
  - rewrite N.eqb_refl; reflexivity.
  - apply ascending_cons_inv in Hs as [Hl Hlt].
    destruct (N.ltb_spec (iid_of c) (iid_of a)) as [Hca|Hca]; simpl.
    + rewrite N.eqb_refl; reflexivity.
    + destruct (N.eqb_spec (iid_of a) (iid_of c)); [tauto|].
      destruct (N.ltb_spec (iid_of c) (iid_of a)); [lia|].
      rewrite IH by tauto. reflexivity.
Qed.

Lemma avs_delete_find (l l' : list A) (i : N) :
  ascending iid_of l -> avs_delete iid_of l i = Some l' ->
  avs_find iid_of l' i = None
  /\ forall j, j <> i -> avs_find iid_of l' j = avs_find iid_of l j.
Proof.
  revert l'; induction l as [|a l IH]; simpl; intros l' Hs Hd; [discriminate|].
  pose proof (ascending_NoDup _ _ Hs) as Hnd. simpl in Hnd.
  apply NoDup_cons_iff in Hnd as [Hna _].
  apply ascending_cons_inv in Hs as [Hl Hlt]. rewrite Forall_forall in Hlt.
  destruct (N.eqb_spec (iid_of a) i) as [He|Hne].
  - injection Hd as <-. subst i. split.
    + apply avs_find_absent. exact Hna.
    + intros j Hj. destruct (N.eqb_spec (iid_of a) j); [congruence|].
      destruct (N.ltb_spec j (iid_of a)) as [Hlt'|]; [|reflexivity].
      apply avs_find_absent. intros Hin. specialize (Hlt _ Hin). lia.
  - destruct (N.ltb_spec i (iid_of a)) as [Hia|Hia]; [discriminate|].
    destruct (avs_delete iid_of l i) as [l1|] eqn:Hd1; [|discriminate].
    injection Hd as <-. destruct (IH _ Hl eq_refl) as [Hf Ho]. simpl. split.
    + destruct (N.eqb_spec (iid_of a) i); [contradiction|].
      destruct (N.ltb_spec i (iid_of a)); [lia|]. exact Hf.
    + intros j Hj. destruct (iid_of a =? j)%N; [reflexivity|].
      destruct (j <? iid_of a)%N; [reflexivity|]. apply Ho; exact Hj.
Qed.

Lemma avs_update_find_same (f : A -> A) (l : list A) (i : N) (it : A) :
  iid_of (f it) = iid_of it ->
  avs_find iid_of l i = Some it ->
  avs_find iid_of (avs_update iid_of f l i) i = Some (f it).
Proof.
  intros Hf. induction l as [|a l IH]; simpl; [discriminate|].
  destruct (N.eqb_spec (iid_of a) i) as [He|Hne].
  - intros [= ->]; simpl. rewrite Hf, He, N.eqb_refl. reflexivity.
  - destruct (N.ltb_spec i (iid_of a)) as [Hia|Hia]; [discriminate|].
    intros Hfind; simpl.
    destruct (N.eqb_spec (iid_of a) i); [contradiction|].
    destruct (N.ltb_spec i (iid_of a)); [lia|]. auto.
Qed.

Lemma avs_update_find_other (f : A -> A) (l : list A) (i j : N) :
  (forall a, iid_of (f a) = iid_of a) -> j <> i ->
  avs_find iid_of (avs_update iid_of f l i) j = avs_find iid_of l j.
Proof.
  intros Hf Hj. induction l as [|a l IH]; simpl; [reflexivity|].
  destruct (N.eqb_spec (iid_of a) i) as [He|Hne]; simpl.
  - rewrite Hf. destruct (N.eqb_spec (iid_of a) j); [congruence|reflexivity].
  - destruct (i <? iid_of a)%N; simpl; [reflexivity|].
    rewrite IH. reflexivity.
Qed.

Lemma avs_update_In (f : A -> A) (l : list A) (i : N) (x : A) :
  In x (avs_update iid_of f l i) ->
  In x l \/ exists y, In y l /\ iid_of y = i /\ x = f y.
Proof.
  induction l as [|a l IH]; simpl; [tauto|].
  destruct (N.eqb_spec (iid_of a) i) as [He|Hne]; simpl.
  - intros [<-|Hin]; [right; exists a; auto|auto].
  - destruct (i <? iid_of a)%N; simpl; [tauto|].
    intros [<-|Hin]; [auto|].
    destruct (IH Hin) as [?|(y & ? & ? & ?)]; [auto|right; exists y; auto].
Qed.
Lemma avs_delete_In (l l' : list A) (i : N) (x : A) :
  avs_delete iid_of l i = Some l' -> In x l' -> In x l.
Proof.
  revert l'; induction l as [|a l IH]; simpl; intros l' Hd; [discriminate|].
  destruct (iid_of a =? i)%N; [injection Hd as <-; auto|].
  destruct (i <? iid_of a)%N; [discriminate|].
  destruct (avs_delete iid_of l i) as [l1|]; [|discriminate].
  injection Hd as <-. simpl. intros [<-|Hin]; eauto.
Qed.

Lemma avs_insert_In (c : A) (l : list A) (x : A) :
  In x (avs_insert iid_of c l) -> x = c \/ In x l.
Proof.
  induction l as [|a l IH]; simpl; [intuition|].
  destruct (iid_of c <? iid_of a)%N; simpl; intuition.
Qed.
End AvsListLookups.

(** * The Portfolio object: reads, writes, resets, transactions, export *)
Module PortfolioExtras.
Import Portfolio.

Lemma array_set_length {A : Type} (a : list A) (i : nat) (v : A) :
  List.length (array_set a i v) = List.length a.
Proof.
  revert i; induction a as [|x a IH]; intros [|i]; simpl; auto.
Qed.

Lemma array_set_nth_same {A : Type} (a : list A) (i : nat) (v d : A) :
  (i < List.length a)%nat -> nth i (array_set a i v) d = v.
Proof.
  revert i; induction a as [|x a IH]; intros [|i]; simpl; intros Hi;
    try lia; auto. apply IH. lia.
Qed.

Lemma array_set_nth_other {A : Type} (a : list A) (i j : nat) (v d : A) :
  i <> j -> nth j (array_set a i v) d = nth j a d.
Proof.
  revert i j; induction a as [|x a IH]; intros [|i] [|j]; simpl; intros Hij;
    try congruence; auto.
Qed.

Section Facts.
Context `{AnjayDefs}.

Lemma resource_write_success (obj : portfolio_t) (i riid : N)
    (ctx : anjay_input_ctx_t) (inst : portfolio_instance_t) (value : string) :
  find_instance obj i = Some inst ->
  (riid < _MAX_IDENTITY_TYPE)%N ->
  anjay_get_string ctx EmptyString MAX_IDENTITY_VALUE_SIZE = (0, value) ->
  resource_write obj i RID_IDENTITY riid ctx
  = Some (0, set_instances
               (avs_update iid (store_identity riid value) (instances obj) i)
               obj).
Proof.
  intros Hf Hr Hc. unfold resource_write. rewrite Hf, N.eqb_refl.
  destruct (N.leb_spec _MAX_IDENTITY_TYPE riid); [lia|].
  rewrite Hc. reflexivity.
Qed.

Lemma find_instance_well_formed (obj : portfolio_t) (i : N)
    (inst : portfolio_instance_t) :
  well_formed obj -> find_instance obj i = Some inst ->
  well_formed_instance inst.
Proof.
  intros Hw Hf. destruct (avs_find_some iid _ _ _ Hf) as [Hin _].
  unfold well_formed in Hw. rewrite Forall_forall in Hw. auto.
Qed.

(** X1. Write, then read. On a Portfolio object whose instance [i] exists,
    a write of slot [riid] (one of the four) whose input is read
    successfully returns [0]; a read of that slot then returns the written
    value. The write leaves alone the identifiers, the snapshot, every other
    instance and every other slot of the instance. *)
Theorem portfolio_write_then_read (obj : portfolio_t) (i riid : N)
    (ctx : anjay_input_ctx_t) (value : string) :
  well_formed obj ->
  In i (list_instances obj) -> sorted obj ->
  (riid < _MAX_IDENTITY_TYPE)%N ->
  anjay_get_string ctx EmptyString MAX_IDENTITY_VALUE_SIZE = (0, value) ->
  exists obj',
    resource_write obj i RID_IDENTITY riid ctx = Some (0, obj')
    /\ resource_read obj' i RID_IDENTITY riid = Some (anjay_ret_string value)
    /\ list_instances obj' = list_instances obj
    /\ backup obj' = backup obj
    /\ (forall j, j <> i -> find_instance obj' j = find_instance obj j)
    /\ (forall k, k <> riid ->
                  resource_read obj' i RID_IDENTITY k
                  = resource_read obj i RID_IDENTITY k).
Proof.
  intros Hw Hin Hs Hr Hc.
  destruct (avs_find_present iid _ _ Hs Hin) as (inst & Hf).
  fold (find_instance obj i) in Hf.
  destruct (find_instance_well_formed _ _ _ Hw Hf) as [Hlh Hlv].
  change (N.to_nat _MAX_IDENTITY_TYPE) with 4%nat in *.
  assert (Hn : (N.to_nat riid < 4)%nat) by (unfold _MAX_IDENTITY_TYPE in Hr; lia).
  eexists. split; [apply (resource_write_success _ _ _ _ _ _ Hf Hr Hc)|].
  assert (Hf' : find_instance
                  (set_instances
                     (avs_update iid (store_identity riid value)
                                 (instances obj) i) obj) i
                = Some (store_identity riid value inst))
    by (apply avs_update_find_same; [reflexivity|exact Hf]).
  split; [|split; [|split; [|split]]].
  - unfold resource_read. rewrite Hf'. simpl.
    destruct (N.ltb_spec riid _MAX_IDENTITY_TYPE); [|lia]. simpl.
    rewrite array_set_nth_same by lia. simpl.
    rewrite array_set_nth_same by lia. reflexivity.
  - unfold list_instances; simpl. apply avs_update_ids. reflexivity.
  - reflexivity.
  - intros j Hj. apply avs_update_find_other; [reflexivity|exact Hj].
  - intros k Hk. unfold resource_read. rewrite Hf', Hf. simpl.
    destruct (k <? _MAX_IDENTITY_TYPE)%N; [|reflexivity]. simpl.
    rewrite !array_set_nth_other by lia. reflexivity.
Qed.

(** X2. A write that fails changes nothing. On a Portfolio object whose
    instance [i] exists: a write to a resource instance outside the four
    slots returns [ANJAY_ERR_NOT_FOUND] whatever the input is; a write to
    one of the four slots whose input cannot be read returns the code of the
    input context. In both cases the object is as before. *)
Theorem portfolio_failed_write_keeps_object (obj : portfolio_t) (i riid : N)
    (ctx : anjay_input_ctx_t) :
  In i (list_instances obj) -> sorted obj ->
  ((_MAX_IDENTITY_TYPE <= riid)%N ->
   resource_write obj i RID_IDENTITY riid ctx = Some (ANJAY_ERR_NOT_FOUND, obj))
  /\ ((riid < _MAX_IDENTITY_TYPE)%N ->
      fst (anjay_get_string ctx EmptyString MAX_IDENTITY_VALUE_SIZE) <> 0 ->
      resource_write obj i RID_IDENTITY riid ctx
      = Some (fst (anjay_get_string ctx EmptyString MAX_IDENTITY_VALUE_SIZE),
              obj)).
Proof.
  intros Hin Hs.
  destruct (avs_find_present iid _ _ Hs Hin) as (inst & Hf).
  fold (find_instance obj i) in Hf.
  unfold resource_write. rewrite Hf, N.eqb_refl. split.
  - intros Hr. destruct (N.leb_spec _MAX_IDENTITY_TYPE riid); [reflexivity|lia].
  - intros Hr Hc. destruct (N.leb_spec _MAX_IDENTITY_TYPE riid); [lia|].
    destruct (anjay_get_string ctx EmptyString MAX_IDENTITY_VALUE_SIZE)
      as [r v]. simpl in *.
    apply Z.eqb_neq in Hc. rewrite Hc. reflexivity.
Qed.
End Facts.

Lemma portfolio_write_then_read_witness :
  exists obj',
    resource_write (H := anjay_2_defs)
      {| instances := [created_instance 1; created_instance 4]; backup := [] |}
      4 RID_IDENTITY 2 (ctx_of_string "model") = Some (0, obj')
    /\ resource_read obj' 4 RID_IDENTITY 2 = Some (anjay_ret_string "model").
Proof.
  destruct (@portfolio_write_then_read anjay_2_defs
              {| instances := [created_instance 1; created_instance 4];
                 backup := [] |}
              4%N 2%N (ctx_of_string "model") "model"%string)
    as (obj' & Hw & Hr & _).
  - repeat constructor.
  - simpl; auto.
  - repeat constructor.
  - reflexivity.
  - reflexivity.
  - exists obj'; split; assumption.
Defined.

Lemma portfolio_failed_write_keeps_object_witness :
  resource_write (H := anjay_2_defs)
    {| instances := [created_instance 1]; backup := [] |}
    1 RID_IDENTITY 5 (ctx_of_string "x")
  = Some (-132, {| instances := [created_instance 1]; backup := [] |}).
Proof.
  apply (proj1 (@portfolio_failed_write_keeps_object anjay_2_defs
                  {| instances := [created_instance 1]; backup := [] |}
                  1%N 5%N (ctx_of_string "x")
                  (or_introl eq_refl)
                  ltac:(repeat constructor))).
  discriminate.
Defined.

Lemma StronglySorted_filter {A : Type} (R : A -> A -> Prop) (p : A -> bool)
    (l : list A) :
  StronglySorted R l -> StronglySorted R (filter p l).
Proof.
  induction 1 as [|a l Hs IH Hf]; simpl; [constructor|].
  destruct (p a); [|exact IH]. constructor; [exact IH|].
  rewrite Forall_forall in *. intros x Hx. apply filter_In in Hx as [Hx _].
  auto.
Qed.

Section Listing.
Context `{AnjayDefs}.

Lemma resource_read_served (obj : portfolio_t) (i k : N)
    (inst : portfolio_instance_t) :
  find_instance obj i = Some inst ->
  resource_read obj i RID_IDENTITY k <> None
  <-> (k < _MAX_IDENTITY_TYPE)%N
      /\ nth (N.to_nat k) (has_identity inst) false = true.
Proof.
  intros Hf. unfold resource_read. rewrite Hf. simpl.
  destruct (N.ltb_spec k _MAX_IDENTITY_TYPE); simpl.
  - destruct (nth (N.to_nat k) (has_identity inst) false); simpl;
      intuition congruence.
  - split; [congruence|lia].
Qed.

(** X3. The listing of resource instances agrees with the reads. On a
    Portfolio object whose instance [i] exists, [list_resource_instances]
    returns [0] and emits, in strictly ascending order, exactly the slots
    that [resource_read] serves (those under four whose presence flag is
    set). *)
Theorem portfolio_listed_slots_are_readable (obj : portfolio_t) (i : N) :
  In i (list_instances obj) -> sorted obj ->
  exists l,
    list_resource_instances obj i RID_IDENTITY = Some (0, l)
    /\ StronglySorted N.lt l
    /\ forall k, In k l <-> resource_read obj i RID_IDENTITY k <> None.
Proof.
  intros Hin Hs.
  destruct (avs_find_present iid _ _ Hs Hin) as (inst & Hf).
  fold (find_instance obj i) in Hf.
  unfold list_resource_instances. rewrite Hf, N.eqb_refl.
  eexists; split; [reflexivity|]. split.
  - apply StronglySorted_filter. repeat constructor.
  - intros k. rewrite (resource_read_served _ _ _ _ Hf), filter_In.
    change (map N.of_nat (seq 0 (N.to_nat _MAX_IDENTITY_TYPE)))
      with [0; 1; 2; 3]%N.
    simpl In. unfold _MAX_IDENTITY_TYPE. split.
    + intros [[<-|[<-|[<-|[<-|[]]]]] Hk]; split; try exact Hk; lia.
    + intros [Hk Hp]. split; [|exact Hp].
      assert (k = 0 \/ k = 1 \/ k = 2 \/ k = 3)%N as [->|[->|[->| ->]]] by lia;
        auto.
Qed.

(** X4. Resets. On a Portfolio object whose instance [i] exists,
    [instance_reset] returns [0] and makes the instance equal to a newly
    created one; [resource_reset] of the Identity resource returns [0] and
    clears the presence flags only, the values staying in place. After
    either of them no slot of the instance is listed, and the identifiers,
    the snapshot and the other instances are as before. *)
Theorem portfolio_resets_clear_slots (obj : portfolio_t) (i : N) :
  In i (list_instances obj) -> sorted obj ->
  exists inst obj1 obj2,
    find_instance obj i = Some inst
    /\ instance_reset obj i = Some (0, obj1)
    /\ find_instance obj1 i = Some (created_instance i)
    /\ resource_reset obj i RID_IDENTITY = Some (0, obj2)
    /\ find_instance obj2 i
       = Some {| iid := i;
                 has_identity := [false; false; false; false];
                 identity_value := identity_value inst |}
    /\ list_resource_instances obj1 i RID_IDENTITY = Some (0, [])
    /\ list_resource_instances obj2 i RID_IDENTITY = Some (0, [])
    /\ list_instances obj1 = list_instances obj
    /\ list_instances obj2 = list_instances obj
    /\ backup obj1 = backup obj /\ backup obj2 = backup obj
    /\ forall j, j <> i ->
                 find_instance obj1 j = find_instance obj j
                 /\ find_instance obj2 j = find_instance obj j.
Proof.
  intros Hin Hs.
  destruct (avs_find_present iid _ _ Hs Hin) as (inst & Hf).
  fold (find_instance obj i) in Hf.
  destruct (avs_find_some iid _ _ _ Hf) as [_ Hi].
  assert (H1 : find_instance
                 (set_instances (avs_update iid reset_instance (instances obj) i)
                                obj) i
               = Some (reset_instance inst))
    by (apply avs_update_find_same; [reflexivity|exact Hf]).
  assert (H2 : find_instance
                 (set_instances (avs_update iid reset_resource (instances obj) i)
                                obj) i
               = Some (reset_resource inst))
    by (apply avs_update_find_same; [reflexivity|exact Hf]).
  exists inst.
  exists (set_instances (avs_update iid reset_instance (instances obj) i) obj).
  exists (set_instances (avs_update iid reset_resource (instances obj) i) obj).
  split; [exact Hf|].
  split; [unfold instance_reset; rewrite Hf; reflexivity|].
  split; [rewrite H1, <- Hi; reflexivity|].
  split; [unfold resource_reset; rewrite Hf, N.eqb_refl; reflexivity|].
  split; [rewrite H2, <- Hi; reflexivity|].
  split; [unfold list_resource_instances; rewrite H1; reflexivity|].
  split; [unfold list_resource_instances; rewrite H2; reflexivity|].
  split; [unfold list_instances; simpl; apply avs_update_ids; reflexivity|].
  split; [unfold list_instances; simpl; apply avs_update_ids; reflexivity|].
  split; [reflexivity|]. split; [reflexivity|].
  intros j Hj.
  split; apply avs_update_find_other; try reflexivity; exact Hj.
Qed.
End Listing.

Lemma portfolio_listed_slots_are_readable_witness :
  list_resource_instances
    {| instances :=
         [store_identity 3 "v3" (store_identity 1 "v1" (created_instance 7))];
       backup := [] |} 7 RID_IDENTITY
  = Some (0, [1; 3]%N).
Proof.
  destruct (portfolio_listed_slots_are_readable
              {| instances :=
                   [store_identity 3 "v3"
                      (store_identity 1 "v1" (created_instance 7))];
                 backup := [] |} 7%N)
    as (l & Hl & _ & _).
  - simpl; auto.
  - repeat constructor.
  - rewrite Hl. vm_compute in Hl. injection Hl as <-. reflexivity.
Defined.

Lemma portfolio_resets_clear_slots_witness :
  exists obj1,
    instance_reset
      {| instances := [store_identity 1 "v1" (created_instance 7)];
         backup := [] |} 7 = Some (0, obj1)
    /\ find_instance obj1 7 = Some (created_instance 7).
Proof.
  destruct (portfolio_resets_clear_slots
              {| instances := [store_identity 1 "v1" (created_instance 7)];
                 backup := [] |} 7%N)
    as (inst & obj1 & obj2 & _ & Hr & Hf & _).
  - simpl; auto.
  - repeat constructor.
  - exists obj1; split; assumption.
Defined.

Section WellFormed.
Context `{AnjayDefs}.

(** The arrays of the instances keep their four cells: the object as
    created and every object that the mutations make of it are
    well-formed. *)
Lemma well_formed_created (obj : portfolio_t) :
  portfolio_object_create true = Some obj -> well_formed obj.
Proof. intros [= <-]. constructor. Qed.

Lemma well_formed_update (f : portfolio_instance_t -> portfolio_instance_t)
    (l : list portfolio_instance_t) (i : N) :
  (forall a, well_formed_instance a -> well_formed_instance (f a)) ->
  Forall well_formed_instance l ->
  Forall well_formed_instance (avs_update iid f l i).
Proof.
  intros Hf Hl. rewrite Forall_forall in *. intros x Hx.
  apply avs_update_In in Hx as [Hx|(y & Hy & _ & ->)]; auto.
Qed.

Lemma well_formed_apply_mutation (m : mutation) (obj obj' : portfolio_t)
    (r : Z) :
  well_formed obj -> apply_mutation m obj = Some (r, obj') -> well_formed obj'.
Proof.
  unfold well_formed. intros Hw.
  destruct m as [ok i|i|i rid riid ctx]; simpl.
  - destruct ok; intros [= _ <-]; simpl; [|exact Hw].
    rewrite Forall_forall in *. intros x Hx.
    apply avs_insert_In in Hx as [->|Hx]; [split; reflexivity|auto].
  - unfold instance_remove.
    destruct (avs_delete iid (instances obj) i) as [l|] eqn:Hd; [|discriminate].
    intros [= _ <-]; simpl. rewrite Forall_forall in *. intros x Hx.
    apply Hw. apply (avs_delete_In iid _ _ _ _ Hd Hx).
  - unfold resource_write.
    destruct (find_instance obj i); [|discriminate].
    destruct (rid =? RID_IDENTITY)%N; [|discriminate].
    destruct (_MAX_IDENTITY_TYPE <=? riid)%N; [intros [= _ <-]; exact Hw|].
    destruct (anjay_get_string ctx EmptyString MAX_IDENTITY_VALUE_SIZE)
      as [res v].
    destruct (res =? 0); intros [= _ <-]; [|exact Hw]. simpl.
    apply well_formed_update; [|exact Hw].
    intros a [Hh Hv]. split; simpl; rewrite array_set_length; assumption.
Qed.
End WellFormed.

Section Transactions.
Context `{AnjayDefs}.

(** The mutations neither read nor write the snapshot. *)
Lemma apply_mutation_set_backup (b : list portfolio_instance_t) (m : mutation)
    (obj : portfolio_t) :
  apply_mutation m (set_backup b obj)
  = match apply_mutation m obj with
    | Some (r, obj') => Some (r, set_backup b obj')
    | None => None
    end.
Proof.
  destruct m as [ok i|i|i rid riid ctx]; simpl.
  - destruct ok; reflexivity.
  - unfold instance_remove; simpl.
    destruct (avs_delete iid (instances obj) i); reflexivity.
  - unfold resource_write, find_instance; simpl.
    destruct (avs_find iid (instances obj) i); [|reflexivity].
    destruct (rid =? RID_IDENTITY)%N; [|reflexivity].
    destruct (_MAX_IDENTITY_TYPE <=? riid)%N; [reflexivity|].
    destruct (anjay_get_string ctx EmptyString MAX_IDENTITY_VALUE_SIZE)
      as [r v].
    destruct (r =? 0); reflexivity.
Qed.

Lemma apply_mutations_set_backup (b : list portfolio_instance_t)
    (ms : list mutation) (obj : portfolio_t) :
  apply_mutations ms (set_backup b obj)
  = option_map (set_backup b) (apply_mutations ms obj).
Proof.
  revert obj; induction ms as [|m ms IH]; intros obj; simpl; [reflexivity|].
  rewrite apply_mutation_set_backup.
  destruct (apply_mutation m obj) as [[r obj']|]; [apply IH|reflexivity].
Qed.

(** X5. Commit law. When [transaction_begin] reports success, the
    mutations that follow give, after [transaction_commit], the very object
    that they give without a transaction; in particular a commit right
    after the begin leaves the object as it was. The commit returns [0] and
    drops the snapshot, so that a later [transaction_begin] passes its
    assertion. *)
Theorem portfolio_commit_keeps_mutations (clone_ok again : bool)
    (obj obj1 obj2 : portfolio_t) (ms : list mutation) :
  transaction_begin clone_ok obj = Some (0, obj1) ->
  apply_mutations ms obj1 = Some obj2 ->
  fst (transaction_commit obj2) = 0
  /\ apply_mutations ms obj = Some (snd (transaction_commit obj2))
  /\ backup (snd (transaction_commit obj2)) = []
  /\ exists r obj3,
       transaction_begin again (snd (transaction_commit obj2)) = Some (r, obj3).
Proof.
  intros Hb Hrun.
  destruct (PortfolioFacts.transaction_begin_success _ _ _ Hb)
    as (Hb0 & Hi & Hb1).
  assert (Ho : obj1 = set_backup (instances obj) obj).
  { destruct obj1 as [l1 b1]; simpl in *; subst. reflexivity. }
  rewrite Ho, apply_mutations_set_backup in Hrun.
  destruct (apply_mutations ms obj) as [o|] eqn:Hr; [|discriminate].
  injection Hrun as <-.
  pose proof (PortfolioFacts.portfolio_apply_mutations_backup _ _ _ Hr) as Hbo.
  rewrite Hb0 in Hbo.
  split; [reflexivity|]. split.
  - unfold transaction_commit; simpl. destruct o as [l b]; simpl in *.
    subst b; reflexivity.
  - split; [reflexivity|].
    unfold transaction_begin; simpl.
    destruct again, (instances o); simpl; eauto.
Qed.

(** X6. Rollback without a snapshot. On an object that holds instances
    and no snapshot, a [transaction_begin] whose clone finds no memory
    returns [ANJAY_ERR_INTERNAL] and leaves the object as it was, still
    without a snapshot; [transaction_rollback] on such an object returns [0]
    and leaves it with no instance at all. *)
Theorem portfolio_rollback_without_snapshot (obj : portfolio_t) :
  backup obj = [] -> instances obj <> [] ->
  transaction_begin false obj = Some (ANJAY_ERR_INTERNAL, obj)
  /\ transaction_rollback obj = (0, {| instances := []; backup := [] |}).
Proof.
  intros Hb Hi. destruct obj as [l b]; simpl in *. subst b.
  unfold transaction_begin, transaction_rollback; simpl.
  destruct l; [contradiction|]. split; reflexivity.
Qed.
End Transactions.

Lemma portfolio_commit_keeps_mutations_witness :
  apply_mutations (H := anjay_2_defs)
    [write_resource 1 0 0 (ctx_of_string "Y"); create_instance true 2]
    {| instances := [created_instance 1]; backup := [] |}
  = Some {| instances :=
              [store_identity 0 "Y" (created_instance 1); created_instance 2];
            backup := [] |}.
Proof.
  apply (proj1 (proj2
           (@portfolio_commit_keeps_mutations anjay_2_defs true true
              {| instances := [created_instance 1]; backup := [] |}
              {| instances := [created_instance 1];
                 backup := [created_instance 1] |}
              {| instances :=
                   [store_identity 0 "Y" (created_instance 1);
                    created_instance 2];
                 backup := [created_instance 1] |}
              [write_resource 1 0 0 (ctx_of_string "Y");
               create_instance true 2]
              eq_refl eq_refl))).
Defined.

Lemma portfolio_rollback_without_snapshot_witness :
  transaction_begin (H := anjay_2_defs) false
    {| instances := [created_instance 1]; backup := [] |}
  = Some (-160, {| instances := [created_instance 1]; backup := [] |})
  /\ list_instances
       (snd (transaction_rollback
               {| instances := [created_instance 1]; backup := [] |})) = [].
Proof.
  destruct (@portfolio_rollback_without_snapshot anjay_2_defs
              {| instances := [created_instance 1]; backup := [] |}
              eq_refl ltac:(discriminate)) as [Hb Hr].
  split; [exact Hb|]. rewrite Hr. reflexivity.
Defined.

Section IdentifierExport.

Lemma get_instances_loop_spec (alloc_ok : nat -> bool) (n : nat)
    (l : list portfolio_instance_t) (k : nat) (out : list N) :
  (n <= List.length l)%nat ->
  (forall j, (j < n)%nat -> alloc_ok (k + j)%nat = true) ->
  ((n < List.length l)%nat -> alloc_ok (k + n)%nat = false) ->
  get_instances_loop alloc_ok k l out
  = (if (n =? List.length l)%nat then 0 else -1,
     out ++ firstn n (map iid l),
     if (n =? List.length l)%nat then [] else ["out of memory"%string]).
Proof.
  revert n k out; induction l as [|it l IH]; intros n k out Hn Hok Hfail.
  - simpl in *. assert (n = 0)%nat as -> by lia. simpl.
    rewrite app_nil_r. reflexivity.
  - simpl. destruct n as [|n].
    + rewrite Nat.add_0_r in Hfail. rewrite Hfail by (simpl; lia). simpl.
      rewrite app_nil_r. reflexivity.
    + pose proof (Hok 0%nat ltac:(lia)) as H0. rewrite Nat.add_0_r in H0.
      rewrite H0. simpl negb. cbv iota.
      rewrite (IH n (S k) (out ++ [iid it])).
      * simpl. rewrite <- app_assoc. reflexivity.
      * simpl in Hn; lia.
      * intros j Hj. replace (S k + j)%nat with (k + S j)%nat by lia.
        apply Hok; lia.
      * intros Hlt. replace (S k + n)%nat with (k + S n)%nat by lia.
        apply Hfail. simpl; lia.
Qed.

(** X7. Export of the instance identifiers. Into an empty output list,
    [portfolio_get_instances] returns [0] with the identifiers of
    [list_instances], in order, when every allocation succeeds. When the
    allocation of element [n] is the first to fail, it returns [-1], logs
    "out of memory", and the output list holds the first [n] identifiers.
    An output list that is not empty fails the assertion. *)
Theorem portfolio_get_instances_exports_ids (alloc_ok : nat -> bool)
    (obj : portfolio_t) (n : nat) :
  (n <= List.length (instances obj))%nat ->
  (forall j, (j < n)%nat -> alloc_ok j = true) ->
  ((n < List.length (instances obj))%nat -> alloc_ok n = false) ->
  portfolio_get_instances alloc_ok obj []
  = Some (if (n =? List.length (instances obj))%nat then 0 else -1,
          firstn n (list_instances obj),
          if (n =? List.length (instances obj))%nat then []
          else ["out of memory"%string])
  /\ (n = List.length (instances obj) ->
      portfolio_get_instances alloc_ok obj [] = Some (0, list_instances obj, []))
  /\ forall i out, portfolio_get_instances alloc_ok obj (i :: out) = None.
Proof.
  intros Hn Hok Hfail.
  assert (Hg : portfolio_get_instances alloc_ok obj []
               = Some (if (n =? List.length (instances obj))%nat then 0 else -1,
                       firstn n (list_instances obj),
                       if (n =? List.length (instances obj))%nat then []
                       else ["out of memory"%string])).
  { unfold portfolio_get_instances. f_equal.
    apply (get_instances_loop_spec alloc_ok n (instances obj) 0 []); auto. }
  split; [exact Hg|]. split; [|reflexivity].
  intros ->. rewrite Hg, Nat.eqb_refl. unfold list_instances.
  rewrite <- (length_map iid), firstn_all. reflexivity.
Qed.
End IdentifierExport.

Lemma portfolio_get_instances_exports_ids_witness :
  portfolio_get_instances (fun k => (k <? 2)%nat)
    {| instances := [created_instance 1; created_instance 4; created_instance 6];
       backup := [] |} []
  = Some (-1, [1; 4]%N, ["out of memory"%string]).
Proof.
  apply (proj1 (portfolio_get_instances_exports_ids (fun k => (k <? 2)%nat)
                  {| instances := [created_instance 1; created_instance 4;
                                   created_instance 6];
                     backup := [] |} 2%nat
                  ltac:(simpl; lia)
                  ltac:(intros [|[|j]] Hj; try reflexivity; lia)
                  ltac:(reflexivity))).
Defined.

End PortfolioExtras.

(** * Instance lifecycle: lookups, removal, create then remove *)

(** X8. Lookup agrees with membership. On an object whose instances are in
    strictly ascending order, [find_instance] returns an instance exactly
    when the object holds it under the identifier looked for; the early exit
    of the search loses nothing. For both objects. *)
Theorem find_instance_iff_member
    (tobj : TimeObject.time_object_t) (tinst : TimeObject.time_instance_t)
    (pobj : Portfolio.portfolio_t) (pinst : Portfolio.portfolio_instance_t)
    (i : N) :
  TimeObject.sorted tobj -> Portfolio.sorted pobj ->
  (TimeObject.find_instance tobj i = Some tinst
   <-> In tinst (TimeObject.instances tobj) /\ TimeObject.iid tinst = i)
  /\ (Portfolio.find_instance pobj i = Some pinst
      <-> In pinst (Portfolio.instances pobj) /\ Portfolio.iid pinst = i)
  /\ (TimeObject.find_instance tobj i = None
      <-> ~ In i (TimeObject.list_instances tobj))
  /\ (Portfolio.find_instance pobj i = None
      <-> ~ In i (Portfolio.list_instances pobj)).
Proof.
  intros Hts Hps. split; [|split; [|split]].
  - split; [apply avs_find_some|].
    intros [Hin <-]. apply avs_find_complete; assumption.
  - split; [apply avs_find_some|].
    intros [Hin <-]. apply avs_find_complete; assumption.
  - split; [|apply avs_find_absent].
    intros Hn Hin.
    destruct (avs_find_present TimeObject.iid _ _ Hts Hin) as (x & Hx).
    unfold TimeObject.find_instance in Hn. congruence.
  - split; [|apply avs_find_absent].
    intros Hn Hin.
    destruct (avs_find_present Portfolio.iid _ _ Hps Hin) as (x & Hx).
    unfold Portfolio.find_instance in Hn. congruence.
Qed.

Lemma find_instance_iff_member_witness :
  TimeObject.find_instance
    {| TimeObject.instances :=
         [TimeObject.created_instance 0; TimeObject.created_instance 3] |} 3
  = Some (TimeObject.created_instance 3)
  /\ Portfolio.find_instance
       {| Portfolio.instances :=
            [Portfolio.created_instance 2; Portfolio.created_instance 5];
          Portfolio.backup := [] |} 4
     = None.
Proof.
  destruct (find_instance_iff_member
              {| TimeObject.instances :=
                   [TimeObject.created_instance 0;
                    TimeObject.created_instance 3] |}
              (TimeObject.created_instance 3)
              {| Portfolio.instances :=
                   [Portfolio.created_instance 2; Portfolio.created_instance 5];
                 Portfolio.backup := [] |}
              (Portfolio.created_instance 5) 3%N)
    as (Ht & _ & _ & _); [repeat constructor..|].
  split; [|reflexivity].
  apply Ht. split; [simpl; auto|reflexivity].
Defined.

(** X9. Removal. On an object in strictly ascending order,
    [instance_remove] of an identifier in use returns [0]; afterwards the
    identifier is no longer found, every other identifier is found as
    before, and the order is kept. For an identifier that is not in use the
    handler reaches its [assert (0)]. For both objects. *)
Theorem instance_remove_then_lookup
    (tobj : TimeObject.time_object_t) (pobj : Portfolio.portfolio_t) (i : N) :
  TimeObject.sorted tobj -> Portfolio.sorted pobj ->
  (In i (TimeObject.list_instances tobj) ->
   exists tobj',
     TimeObject.instance_remove tobj i = Some (0, tobj')
     /\ TimeObject.sorted tobj'
     /\ TimeObject.find_instance tobj' i = None
     /\ forall j, j <> i ->
                  TimeObject.find_instance tobj' j
                  = TimeObject.find_instance tobj j)
  /\ (In i (Portfolio.list_instances pobj) ->
      exists pobj',
        Portfolio.instance_remove pobj i = Some (0, pobj')
        /\ Portfolio.sorted pobj'
        /\ Portfolio.backup pobj' = Portfolio.backup pobj
        /\ Portfolio.find_instance pobj' i = None
        /\ forall j, j <> i ->
                     Portfolio.find_instance pobj' j
                     = Portfolio.find_instance pobj j)
  /\ (~ In i (TimeObject.list_instances tobj) ->
      TimeObject.instance_remove tobj i = None)
  /\ (~ In i (Portfolio.list_instances pobj) ->
      Portfolio.instance_remove pobj i = None).
Proof.
  intros Hts Hps. split; [|split; [|split]].
  - intros Hin.
    destruct (avs_delete_present TimeObject.iid _ _ Hts Hin)
      as (l' & Hd & Hs' & _).
    destruct (avs_delete_find TimeObject.iid _ _ _ Hts Hd) as [Hf Ho].
    exists {| TimeObject.instances := l' |}.
    unfold TimeObject.instance_remove. rewrite Hd. auto.
  - intros Hin.
    destruct (avs_delete_present Portfolio.iid _ _ Hps Hin)
      as (l' & Hd & Hs' & _).
    destruct (avs_delete_find Portfolio.iid _ _ _ Hps Hd) as [Hf Ho].
    exists (Portfolio.set_instances l' pobj).
    unfold Portfolio.instance_remove. rewrite Hd. auto.
  - intros Hn. unfold TimeObject.instance_remove.
    rewrite (avs_delete_absent TimeObject.iid _ _ Hn). reflexivity.
  - intros Hn. unfold Portfolio.instance_remove.
    rewrite (avs_delete_absent Portfolio.iid _ _ Hn). reflexivity.
Qed.

Lemma instance_remove_then_lookup_witness :
  exists pobj',
    Portfolio.instance_remove
      {| Portfolio.instances :=
           [Portfolio.created_instance 2; Portfolio.created_instance 5];
         Portfolio.backup := [] |} 2 = Some (0, pobj')
    /\ Portfolio.find_instance pobj' 2 = None.
Proof.
  destruct (instance_remove_then_lookup
              {| TimeObject.instances := [TimeObject.created_instance 0] |}
              {| Portfolio.instances :=
                   [Portfolio.created_instance 2; Portfolio.created_instance 5];
                 Portfolio.backup := [] |} 2%N)
    as (_ & Hp & _ & _); [repeat constructor..|].
  destruct Hp as (pobj' & Hr & _ & _ & Hf & _); [simpl; auto|].
  exists pobj'; split; assumption.
Defined.

(** X10. Create, then remove. On an object in strictly ascending order and
    an identifier that is not in use (and, for the Time object, is valid),
    a successful [instance_create] followed by [instance_remove] of the same
    identifier returns [0] twice and gives back the object as it was. For
    both objects. *)
Theorem instance_create_then_remove `{AnjayDefs}
    (tobj : TimeObject.time_object_t) (pobj : Portfolio.portfolio_t) (i : N) :
  TimeObject.sorted tobj ->
  ~ In i (TimeObject.list_instances tobj) ->
  i <> ANJAY_ID_INVALID ->
  Portfolio.sorted pobj ->
  ~ In i (Portfolio.list_instances pobj) ->
  (exists tobj',
      TimeObject.instance_create true tobj i = Some (0, tobj')
      /\ TimeObject.instance_remove tobj' i = Some (0, tobj))
  /\ (exists pobj',
         Portfolio.instance_create true pobj i = (0, pobj')
         /\ Portfolio.instance_remove pobj' i = Some (0, pobj)).
Proof.
  intros Hts Htn Hi Hps Hpn. split.
  - eexists. split;
      [apply (TimeFacts.time_instance_create_absent true tobj i Htn Hi)|].
    pose proof (avs_delete_insert TimeObject.iid
                  (TimeObject.created_instance i) _ Hts Htn) as Hd.
    unfold TimeObject.instance_remove.
    cbn [TimeObject.instances TimeObject.iid TimeObject.created_instance] in *.
    rewrite Hd. destruct tobj; reflexivity.
  - eexists. split;
      [apply (PortfolioFacts.portfolio_instance_create_eq true pobj i)|].
    pose proof (avs_delete_insert Portfolio.iid
                  (Portfolio.created_instance i) _ Hps Hpn) as Hd.
    unfold Portfolio.instance_remove.
    cbn [Portfolio.instances Portfolio.iid Portfolio.created_instance] in *.
    rewrite Hd. destruct pobj; reflexivity.
Qed.

Lemma instance_create_then_remove_witness :
  exists tobj',
    TimeObject.instance_create (H := anjay_2_defs) true
      {| TimeObject.instances :=
           [TimeObject.created_instance 0; TimeObject.created_instance 9] |} 4
    = Some (0, tobj')
    /\ TimeObject.instance_remove tobj' 4
       = Some (0, {| TimeObject.instances :=
                       [TimeObject.created_instance 0;
                        TimeObject.created_instance 9] |}).
Proof.
  destruct (@instance_create_then_remove anjay_2_defs
              {| TimeObject.instances :=
                   [TimeObject.created_instance 0;
                    TimeObject.created_instance 9] |}
              {| Portfolio.instances := []; Portfolio.backup := [] |} 4%N)
    as [Ht _].
  - repeat constructor.
  - closed_guard.
  - discriminate.
  - constructor.
  - closed_guard.
  - exact Ht.
Defined.

(** * The Time object: reads, writes, resets, transactions *)
Module TimeExtras.
Import TimeObject.

Section Resources.
Context `{AnjayDefs}.

(** X11. Write, then read. On a Time object whose instance [i] exists, a
    write of the Application Type resource returns the code of the input
    context, and a read of the resource then returns the string that the
    input context left in the buffer, also when that code is not [0]: the
    handler reads the input straight into the resource. The write leaves
    alone the identifiers, the other instances, and the backup and the
    notification time of the instance. *)
Theorem time_write_then_read (obj : time_object_t) (i : N)
    (ctx : anjay_input_ctx_t) (clock : option Z) :
  In i (list_instances obj) -> sorted obj ->
  exists inst obj',
    find_instance obj i = Some inst
    /\ resource_write obj i RID_APPLICATION_TYPE ANJAY_ID_INVALID ctx
       = Some (fst (anjay_get_string ctx (application_type inst) 64), obj')
    /\ resource_read obj' i RID_APPLICATION_TYPE ANJAY_ID_INVALID clock
       = Some (anjay_ret_string
                 (snd (anjay_get_string ctx (application_type inst) 64)))
    /\ list_instances obj' = list_instances obj
    /\ map frame (instances obj') = map frame (instances obj)
    /\ forall j, j <> i -> find_instance obj' j = find_instance obj j.
Proof.
  intros Hin Hs.
  destruct (avs_find_present iid _ _ Hs Hin) as (inst & Hf).
  fold (find_instance obj i) in Hf.
  exists inst. unfold resource_write. rewrite Hf, !N.eqb_refl. simpl negb.
  cbv iota.
  destruct (anjay_get_string ctx (application_type inst) 64) as [r buf].
  eexists. split; [reflexivity|]. split; [reflexivity|]. simpl fst; simpl snd.
  assert (Hf' : find_instance
                  {| instances :=
                       avs_update iid (set_application_type buf)
                                  (instances obj) i |} i
                = Some (set_application_type buf inst))
    by (apply avs_update_find_same; [reflexivity|exact Hf]).
  split; [|split; [|split]].
  - unfold resource_read. rewrite Hf'.
    change (RID_APPLICATION_TYPE =? RID_CURRENT_TIME)%N with false.
    rewrite !N.eqb_refl. reflexivity.
  - unfold list_instances; simpl. apply avs_update_ids. reflexivity.
  - simpl. apply avs_update_map. reflexivity.
  - intros j Hj. apply avs_update_find_other; [reflexivity|exact Hj].
Qed.

(** X12. Reset. On a Time object whose instance [i] exists,
    [instance_reset] returns [0]; a read of the Application Type resource
    then returns the empty string, and the identifiers, the other instances,
    and the backup and the notification time of the instance are as
    before. *)
Theorem time_reset_then_read (obj : time_object_t) (i : N) (clock : option Z) :
  In i (list_instances obj) -> sorted obj ->
  exists obj',
    instance_reset obj i = Some (0, obj')
    /\ resource_read obj' i RID_APPLICATION_TYPE ANJAY_ID_INVALID clock
       = Some (anjay_ret_string "")
    /\ list_instances obj' = list_instances obj
    /\ map frame (instances obj') = map frame (instances obj)
    /\ forall j, j <> i -> find_instance obj' j = find_instance obj j.
Proof.
  intros Hin Hs.
  destruct (avs_find_present iid _ _ Hs Hin) as (inst & Hf).
  fold (find_instance obj i) in Hf.
  unfold instance_reset. rewrite Hf.
  eexists. split; [reflexivity|].
  assert (Hf' : find_instance
                  {| instances :=
                       avs_update iid (set_application_type "")
                                  (instances obj) i |} i
                = Some (set_application_type "" inst))
    by (apply avs_update_find_same; [reflexivity|exact Hf]).
  split; [|split; [|split]].
  - unfold resource_read. rewrite Hf'.
    change (RID_APPLICATION_TYPE =? RID_CURRENT_TIME)%N with false.
    rewrite !N.eqb_refl. reflexivity.
  - unfold list_instances; simpl. apply avs_update_ids. reflexivity.
  - simpl. apply avs_update_map. reflexivity.
  - intros j Hj. apply avs_update_find_other; [reflexivity|exact Hj].
Qed.

(** X13. The resources that are listed and the ones that are served.
    [list_resources] reports Current Time and Application Type present and
    Fractional Time absent, all three read-write. Yet on an existing
    instance a write of any resource but Application Type, Current Time
    included, returns [ANJAY_ERR_METHOD_NOT_ALLOWED] and leaves the object
    as it was. A read of Current Time returns the clock, whatever the object
    holds ([-1] when the clock cannot be converted), and a read of any
    resource but these two returns [ANJAY_ERR_METHOD_NOT_ALLOWED]. *)
Theorem time_resources_served (obj : time_object_t) (i rid riid : N)
    (ctx : anjay_input_ctx_t) (clock : option Z) :
  In i (list_instances obj) -> sorted obj ->
  list_resources
  = (0, [(RID_CURRENT_TIME, ANJAY_DM_RES_RW, ANJAY_DM_RES_PRESENT);
         (RID_FRACTIONAL_TIME, ANJAY_DM_RES_RW, ANJAY_DM_RES_ABSENT);
         (RID_APPLICATION_TYPE, ANJAY_DM_RES_RW, ANJAY_DM_RES_PRESENT)])
  /\ (rid <> RID_APPLICATION_TYPE ->
      resource_write obj i rid riid ctx
      = Some (ANJAY_ERR_METHOD_NOT_ALLOWED, obj))
  /\ resource_read obj i RID_CURRENT_TIME ANJAY_ID_INVALID clock
     = Some (match clock with
             | Some timestamp => anjay_ret_i64 timestamp
             | None => read_code (-1)
             end)
  /\ (rid <> RID_CURRENT_TIME -> rid <> RID_APPLICATION_TYPE ->
      resource_read obj i rid riid clock
      = Some (read_code ANJAY_ERR_METHOD_NOT_ALLOWED)).
Proof.
  intros Hin Hs.
  destruct (avs_find_present iid _ _ Hs Hin) as (inst & Hf).
  fold (find_instance obj i) in Hf.
  split; [reflexivity|]. split; [|split].
  - intros Hr. unfold resource_write. rewrite Hf.
    apply N.eqb_neq in Hr. rewrite Hr. reflexivity.
  - unfold resource_read. rewrite Hf, !N.eqb_refl. simpl.
    destruct clock; reflexivity.
  - intros Hc Ha. unfold resource_read. rewrite Hf.
    apply N.eqb_neq in Hc, Ha. rewrite Hc, Ha. reflexivity.
Qed.
End Resources.

Lemma time_write_then_read_witness :
  exists obj',
    resource_write (H := anjay_2_defs)
      {| instances := [set_application_type "Clock 0" (created_instance 0)] |}
      0 RID_APPLICATION_TYPE 65535 (fun _ _ => (1, "Wall cl"%string))
    = Some (1, obj')
    /\ resource_read (H := anjay_2_defs) obj' 0 RID_APPLICATION_TYPE 65535 None
       = Some (anjay_ret_string "Wall cl").
Proof.
  destruct (@time_write_then_read anjay_2_defs
              {| instances :=
                   [set_application_type "Clock 0" (created_instance 0)] |}
              0%N (fun _ _ => (1, "Wall cl"%string)) None)
    as (inst & obj' & Hf & Hw & Hr & _).
  - simpl; auto.
  - repeat constructor.
  - injection Hf as <-. exists obj'. split; [exact Hw|exact Hr].
Defined.

(** Scenario B: the object as created, then a reset of instance 0. *)
Lemma time_reset_then_read_witness :
  exists obj obj',
    time_object_create (H := anjay_2_defs) true true = Some (Some obj)
    /\ resource_read (H := anjay_2_defs) obj 0 RID_APPLICATION_TYPE 65535 None
       = Some (anjay_ret_string "Clock 0")
    /\ instance_reset obj 0 = Some (0, obj')
    /\ resource_read (H := anjay_2_defs) obj' 0 RID_APPLICATION_TYPE 65535 None
       = Some (anjay_ret_string "").
Proof.
  eexists. 
  destruct (@time_reset_then_read anjay_2_defs
              {| instances :=
                   [set_application_type "Clock 0" (created_instance 0)] |}
              0%N None)
    as (obj' & Hr & Hread & _).
  - simpl; auto.
  - repeat constructor.
  - exists obj'. split; [reflexivity|]. split; [reflexivity|].
    split; [exact Hr|exact Hread].
Defined.

Lemma time_resources_served_witness :
  resource_write (H := anjay_2_defs)
    {| instances := [created_instance 0] |} 0 RID_CURRENT_TIME 65535
    (ctx_of_string "1700000000")
  = Some (-133, {| instances := [created_instance 0] |}).
Proof.
  apply (proj1 (proj2
           (@time_resources_served anjay_2_defs
              {| instances := [created_instance 0] |} 0%N RID_CURRENT_TIME
              65535%N (ctx_of_string "1700000000") None
              (or_introl eq_refl) ltac:(repeat constructor)))).
  discriminate.
Defined.

Section Transactions.
Context `{AnjayDefs}.

Lemma apply_mutation_backups_from (orig : list time_instance_t)
    (created : N -> Prop) (m : mutation) (obj obj' : time_object_t) (r : Z) :
  backups_from orig created (instances obj) ->
  apply_mutation m obj = Some (r, obj') ->
  backups_from orig (fun i => created i \/ m = create_instance true i)
               (instances obj').
Proof.
  intros Hb.
  assert (Hb' : backups_from orig
                  (fun i => created i \/ m = create_instance true i)
                  (instances obj)).
  { intros e He. destruct (Hb e He) as [Hs|[Hs Hc]]; [left|right]; auto. }
  destruct m as [ok i|i|i rid riid ctx]; simpl.
  - unfold instance_create, add_instance.
    destruct (find_instance obj i); [discriminate|].
    destruct ok; simpl; [|intros [= _ <-]; exact Hb'].
    unfold init_instance. destruct (i =? ANJAY_ID_INVALID)%N; [discriminate|].
    simpl. intros [= _ <-]; simpl. intros e He.
    apply avs_insert_In in He as [->|He]; [|auto].
    right. simpl. auto.
  - unfold instance_remove.
    destruct (avs_delete iid (instances obj) i) as [l|] eqn:Hd; [|discriminate].
    intros [= _ <-]; simpl. intros e He.
    apply Hb'. apply (avs_delete_In iid _ _ _ _ Hd He).
  - unfold resource_write.
    destruct (find_instance obj i) as [inst|]; [|discriminate].
    destruct (rid =? RID_APPLICATION_TYPE)%N; [|intros [= _ <-]; exact Hb'].
    destruct (negb (riid =? ANJAY_ID_INVALID)%N); [discriminate|].
    destruct (anjay_get_string ctx (application_type inst) 64) as [res buf].
    intros [= _ <-]; simpl. intros e He.
    apply avs_update_In in He as [He|(y & Hy & _ & ->)]; [auto|].
    apply (Hb' _ Hy).
Qed.

Lemma apply_mutations_backups_from (orig : list time_instance_t)
    (created : N -> Prop) (ms : list mutation) (obj obj' : time_object_t) :
  backups_from orig created (instances obj) ->
  apply_mutations ms obj = Some obj' ->
  backups_from orig (fun i => created i \/ In (create_instance true i) ms)
               (instances obj').
Proof.
  revert created obj; induction ms as [|m ms IH]; simpl;
    intros created obj Hb Hrun.
  - injection Hrun as <-. intros e He.
    destruct (Hb e He) as [Hs|[Hs Hc]]; [left|right]; auto.
  - destruct (apply_mutation m obj) as [[r o]|] eqn:Hm; [|discriminate].
    pose proof (apply_mutation_backups_from _ _ _ _ _ _ Hb Hm) as Hb1.
    intros e He.
    destruct (IH _ o Hb1 Hrun e He) as [Hs|[Hs [[Hc|Hc]|Hc]]]; auto.
Qed.

(** X14. What a rollback can leave behind. Whatever mutations (instance
    creation, instance removal, resource writes) follow
    [transaction_begin], after [transaction_rollback] the application type
    of every instance of the object is the one that an instance with its
    identifier had before the begin, or it is empty and the mutations hold
    a creation, with a successful allocation, of an instance with its
    identifier. So no string written during the transaction is kept, and
    an instance under an identifier that the mutations never create has its
    application type of before the begin. *)
Theorem time_rollback_drops_written_strings (obj obj2 : time_object_t)
    (ms : list mutation) :
  apply_mutations ms (snd (transaction_begin obj)) = Some obj2 ->
  forall e, In e (instances (snd (transaction_rollback obj2))) ->
            from_snapshot (instances obj) (application_type e) (iid e)
            \/ (application_type e = EmptyString
                /\ In (create_instance true (iid e)) ms).
Proof.
  intros Hrun e He.
  assert (Hb : backups_from (instances obj) (fun _ => False)
                 (instances (snd (transaction_begin obj)))).
  { simpl. intros x Hx. apply in_map_iff in Hx as (old & <- & Hold).
    left. exists old. auto. }
  pose proof (apply_mutations_backups_from _ _ _ _ _ Hb Hrun) as Hb2.
  simpl in He. apply in_map_iff in He as (x & <- & Hx).
  destruct (Hb2 _ Hx) as [Hs|[Hs [[]|Hc]]]; [left; exact Hs|right].
  split; [exact Hs|exact Hc].
Qed.

(** X15. Transactions without mutations. [transaction_begin] returns [0]
    and changes nothing that can be observed; [transaction_commit] returns
    [0] and changes nothing at all; [transaction_rollback] right after
    [transaction_begin] changes nothing more; and a second
    [transaction_rollback] changes nothing after the first. *)
Theorem time_transactions_without_mutations (obj : time_object_t) :
  fst (transaction_begin obj) = 0
  /\ visible_state (snd (transaction_begin obj)) = visible_state obj
  /\ transaction_commit (snd (transaction_begin obj))
     = (0, snd (transaction_begin obj))
  /\ transaction_rollback (snd (transaction_begin obj))
     = (0, snd (transaction_begin obj))
  /\ transaction_rollback (snd (transaction_rollback obj))
     = transaction_rollback obj.
Proof.
  destruct obj as [l]. unfold visible_state, transaction_begin,
    transaction_rollback, transaction_commit; simpl.
  split; [reflexivity|]. split; [|split; [reflexivity|split]].
  - rewrite map_map. apply map_ext. intros [i a b t]; reflexivity.
  - do 2 f_equal. rewrite map_map. apply map_ext.
    intros [i a b t]; reflexivity.
  - do 2 f_equal. rewrite map_map. apply map_ext.
    intros [i a b t]; reflexivity.
Qed.
End Transactions.

(** The object as created, then a transaction that creates the instance
    [1] and writes both application types: the rollback leaves the instance
    [0] with its application type of before, and the instance [1] with an
    empty one. *)
Lemma time_rollback_drops_written_strings_witness :
  let ms :=
    [create_instance true 1;
     write_resource 1 5750 65535 (ctx_of_string "Second clock");
     write_resource 0 5750 65535 (ctx_of_string "First clock")] in
  let obj :=
    {| instances := [set_application_type "Clock 0" (created_instance 0)] |} in
  exists obj2,
    apply_mutations (H := anjay_2_defs) ms (snd (transaction_begin obj))
    = Some obj2
    /\ map application_type (instances obj2)
       = ["First clock"%string; "Second clock"%string]
    /\ map application_type (instances (snd (transaction_rollback obj2)))
       = ["Clock 0"%string; EmptyString]
    /\ forall e, In e (instances (snd (transaction_rollback obj2))) ->
                 from_snapshot (instances obj) (application_type e) (iid e)
                 \/ (application_type e = EmptyString
                     /\ In (create_instance true (iid e)) ms).
Proof.
  intros ms obj.
  eexists. split; [vm_compute; reflexivity|].
  split; [reflexivity|]. split; [reflexivity|].
  apply (@time_rollback_drops_written_strings anjay_2_defs obj _ ms eq_refl).
Defined.

Section NotifyTwice.
Variable World : Type.
Variable clock_seconds : World -> option Z * World.
Variable anjay_notify_changed : World -> N -> N -> N -> Z * World.



End NotifyTwice.


Section SendFacts.
Variable World : Type.
Variable anjay_send_batch_builder_new : World -> bool * World.
Variable anjay_send_batch_data_add_current : World -> N -> N -> N -> Z * World.
Variable anjay_send_batch_builder_compile : World -> bool * World.
Variable anjay_send : World -> N -> Z * World.

Lemma add_items_in_order_trace (items : list (N * N * N)) (w : World) :
  let '(stop, _, tr) :=
    add_items_in_order anjay_send_batch_data_add_current items w in
  match stop with
  | Some (a, r) =>
      r <> 0
      /\ exists pre post,
           items = pre ++ a :: post
           /\ tr = map (fun a => added a 0) pre ++ [added a r]
  | None => tr = map (fun a => added a 0) items
  end.
Proof.
  revert w; induction items as [|[[oid i] rid] items IH]; intros w; simpl;
    [reflexivity|].
  destruct (anjay_send_batch_data_add_current w oid i rid) as [r w1].
  destruct (Z.eqb_spec r 0) as [->|Hr].
  - specialize (IH w1).
    destruct (add_items_in_order anjay_send_batch_data_add_current items w1)
      as [[[[a r]|] w2] tr].
    + destruct IH as (Hr & pre & post & -> & ->).
      split; [exact Hr|]. exists ((oid, i, rid) :: pre), post.
      split; reflexivity.
    + subst tr. reflexivity.
  - split; [exact Hr|]. exists [], items. split; reflexivity.
Qed.

(** The loop of the code, instance by instance with the two additions under
    one condition, against the additions item by item. *)
Lemma add_all_data_in_order (l : list time_instance_t) (w : World) :
  let '(failed, w1, tr) :=
    add_all_data anjay_send_batch_data_add_current l w in
  let '(stop, w1', adds) :=
    add_items_in_order anjay_send_batch_data_add_current
      (flat_map batch_items l) w in
  w1 = w1'
  /\ if failed then
       stop <> None
       /\ tr = adds ++ [SendBuilderCleanup;
                        SendLog "Failed to add batch data, result: %d" [0]]
     else stop = None /\ tr = adds.
Proof.
  revert w; induction l as [|it l IH]; intros w; simpl; [auto|].
  unfold add_instance_data.
  destruct (anjay_send_batch_data_add_current w OID (iid it) RID_CURRENT_TIME)
    as [r1 w1].
  destruct (Z.eqb_spec r1 0) as [->|Hr1]; simpl.
  - destruct (anjay_send_batch_data_add_current w1 OID (iid it)
                RID_APPLICATION_TYPE) as [r2 w2].
    destruct (Z.eqb_spec r2 0) as [->|Hr2]; simpl.
    + specialize (IH w2).
      destruct (add_all_data anjay_send_batch_data_add_current l w2)
        as [[failed w3] tr].
      destruct (add_items_in_order anjay_send_batch_data_add_current
                  (flat_map batch_items l) w2) as [[stop w3'] adds].
      destruct IH as [-> IH]. split; [reflexivity|].
      destruct failed.
      * destruct IH as [Hs ->]. split; [exact Hs|reflexivity].
      * destruct IH as [-> ->]. split; reflexivity.
    + split; [reflexivity|]. split; [discriminate|reflexivity].
  - split; [reflexivity|]. split; [discriminate|reflexivity].
Qed.

(** X17. The shape of a send, from what the environment returns. A run of
    [time_object_send] on an object asks for a builder. When there is none,
    it logs and calls nothing else. Otherwise it adds Current Time and
    Application Type of every instance, in list order, each addition in the
    state that the one before leaves. When an addition returns a code other
    than [0], the additions before it all returned [0], none follows, the
    builder is cleaned up, the log shows [0] and nothing is compiled or
    sent. When every addition returns [0], the batch is compiled in the
    state so reached; when there is no batch the builder is cleaned up and
    nothing is sent; otherwise the batch is sent once to server [1], the
    code is logged when it is not [0], and the batch is released whatever
    the code. In each case the state of the environment is the one that the
    last call leaves. *)
Theorem time_object_send_shapes (obj : time_object_t) (w : World) :
  let run :=
    time_object_send anjay_send_batch_builder_new
      anjay_send_batch_data_add_current
      anjay_send_batch_builder_compile anjay_send true (Some obj) w in
  let '(builder, w0) := anjay_send_batch_builder_new w in
  if builder then
    let '(stop, w1, adds) :=
      add_items_in_order anjay_send_batch_data_add_current
        (flat_map batch_items (instances obj)) w0 in
    match stop with
    | Some (a, r) =>
        r <> 0
        /\ (exists pre post,
              flat_map batch_items (instances obj) = pre ++ a :: post
              /\ adds = map (fun a => added a 0) pre ++ [added a r])
        /\ run
           = (w1,
              SendBuilderNew true
              :: adds
              ++ [SendBuilderCleanup;
                  SendLog "Failed to add batch data, result: %d" [0]])
    | None =>
        adds = all_added (instances obj)
        /\ let '(batch, w2) := anjay_send_batch_builder_compile w1 in
           if batch then
             let '(res, w3) := anjay_send w2 1%N in
             run
             = (w3,
                SendBuilderNew true
                :: adds
                ++ [SendBuilderCompile true; SendSend 1 res]
                ++ (if res =? 0 then []
                    else [SendLog "Failed to send, result: %d" [res]])
                ++ [SendBatchRelease])
           else
             run
             = (w2,
                SendBuilderNew true
                :: adds
                ++ [SendBuilderCompile false; SendBuilderCleanup;
                    SendLog "Batch compile failed" []])
    end
  else
    run = (w0, [SendBuilderNew false;
                SendLog "Failed to allocate batch builder" []]).
Proof.
  cbv zeta. unfold time_object_send; simpl.
  destruct (anjay_send_batch_builder_new w) as [[|] w0]; simpl;
    [|reflexivity].
  pose proof (add_all_data_in_order (instances obj) w0) as Ha.
  pose proof (add_items_in_order_trace
                (flat_map batch_items (instances obj)) w0) as Ht.
  destruct (add_all_data anjay_send_batch_data_add_current (instances obj) w0)
    as [[failed w1] tr].
  destruct (add_items_in_order anjay_send_batch_data_add_current
              (flat_map batch_items (instances obj)) w0)
    as [[stop w1'] adds].
  destruct Ha as [<- Ha].
  destruct failed.
  - destruct Ha as [Hs ->]. destruct stop as [[a r]|]; [|contradiction].
    destruct Ht as [Hr Hpre]. split; [exact Hr|]. split; [exact Hpre|].
    reflexivity.
  - destruct Ha as [-> ->]. split; [exact Ht|].
    destruct (anjay_send_batch_builder_compile w1) as [[|] w2]; simpl;
      [|reflexivity].
    destruct (anjay_send w2 1%N) as [res w3]; simpl.
    destruct (res =? 0); reflexivity.
Qed.
End SendFacts.

(** Two runs on an object with the instances [0] and [1], in an environment
    that counts the calls. In the first the third addition returns [-1]: the
    fourth is not made, the builder is cleaned up, nothing is compiled or
    sent. In the second every addition returns [0], the batch is compiled
    and the send returns [5]: the code is logged and the batch released. *)
Lemma time_object_send_shapes_witness :
  let obj := {| instances := [created_instance 0; created_instance 1] |} in
  let new := fun w : nat => (true, S w) in
  let compile := fun w : nat => (true, S w) in
  let third_fails := fun (w : nat) (_ _ _ : N) =>
                       (if (w =? 3)%nat then -1 else 0, S w) in
  let adds := fun (w : nat) (_ _ _ : N) => (0, S w) in
  let send := fun (w : nat) (_ : N) => (5, S w) in
  time_object_send new third_fails compile send true (Some obj) 0%nat
  = (4%nat,
     [SendBuilderNew true;
      SendAddCurrent 3333 0 5506 0; SendAddCurrent 3333 0 5750 0;
      SendAddCurrent 3333 1 5506 (-1);
      SendBuilderCleanup;
      SendLog "Failed to add batch data, result: %d" [0]])
  /\ time_object_send new adds compile send true (Some obj) 0%nat
     = (7%nat,
        [SendBuilderNew true;
         SendAddCurrent 3333 0 5506 0; SendAddCurrent 3333 0 5750 0;
         SendAddCurrent 3333 1 5506 0; SendAddCurrent 3333 1 5750 0;
         SendBuilderCompile true; SendSend 1 5;
         SendLog "Failed to send, result: %d" [5];
         SendBatchRelease]).
Proof.
  intros obj new compile third_fails adds send.
  pose proof (time_object_send_shapes nat new third_fails compile send obj
                0%nat) as F.
  pose proof (time_object_send_shapes nat new adds compile send obj 0%nat)
    as S.
  cbv zeta in F, S.
  change (new 0%nat) with (true, 1%nat) in F, S. cbv iota in F, S.
  change (add_items_in_order third_fails
            (flat_map batch_items (instances obj)) 1%nat)
    with (Some (3333%N, 1%N, 5506%N, -1), 4%nat,
          [SendAddCurrent 3333 0 5506 0; SendAddCurrent 3333 0 5750 0;
           SendAddCurrent 3333 1 5506 (-1)]) in F.
  change (add_items_in_order adds
            (flat_map batch_items (instances obj)) 1%nat)
    with (@None (N * N * N * Z), 5%nat,
          [SendAddCurrent 3333 0 5506 0; SendAddCurrent 3333 0 5750 0;
           SendAddCurrent 3333 1 5506 0; SendAddCurrent 3333 1 5750 0]) in S.
  cbv iota in F, S.
  destruct F as (_ & _ & F). destruct S as (_ & S).
  change (compile 5%nat) with (true, 6%nat) in S.
  change (send 6%nat 1%N) with (5, 7%nat) in S.
  cbv iota in S.
  split; [exact F|exact S].
Defined.

End TimeExtras.

(** * The security resolver: whole runs *)
Module SecurityExtras.
Import Security.

Section Runs.
Context `{SecurityDefs}.

Lemma classified (anjay : anjay_t) (security_iid : N) (mode : Z) :
  dm_i64 anjay (security_path security_iid ANJAY_DM_RID_SECURITY_MODE)
  = Some mode ->
  supported mode = true ->
  get_security_mode anjay security_iid
  = (Got mode,
     [EvReadI64 (security_path security_iid ANJAY_DM_RID_SECURITY_MODE)]).
Proof.
  intros Hread Hs.
  rewrite (SecurityFacts.get_security_mode_read _ _ _ Hread).
  rewrite (SecurityFacts.supported_not_rpk _ Hs), Hs. reflexivity.
Qed.

Lemma get_security_mode_got (anjay : anjay_t) (security_iid : N) (mode : Z) :
  value (get_security_mode anjay security_iid) = Got mode ->
  supported mode = true
  /\ dm_i64 anjay (security_path security_iid ANJAY_DM_RID_SECURITY_MODE)
     = Some mode.
Proof.
  unfold get_security_mode, _anjay_dm_read_resource_i64, security_path. simpl.
  destruct (dm_i64 anjay _) as [m|]; [|discriminate].
  destruct (m =? ANJAY_SECURITY_RPK); [discriminate|].
  unfold supported.
  destruct ((m =? ANJAY_SECURITY_NOSEC) || (m =? ANJAY_SECURITY_PSK)
            || (m =? ANJAY_SECURITY_CERTIFICATE)
            || (m =? ANJAY_SECURITY_EST)) eqn:Hs; [|discriminate].
  simpl. intros [= <-]. auto.
Qed.

Lemma mismatch_fails (security_mode : Z) (ti : anjay_transport_info_t) :
  mismatch security_mode ti ->
  security_matches_transport security_mode ti
  = (false,
     [EvLog WARNING
        "security mode %d requires %ssecure protocol, but '%s' was configured"
        [ArgInt security_mode;
         ArgStr (if security_mode =? ANJAY_SECURITY_NOSEC then "in" else "");
         ArgStr (uri_scheme ti)]]).
Proof.
  unfold mismatch, security_matches_transport.
  destruct (security ti); simpl; [tauto| |].
  - intros Hn. apply Z.eqb_neq in Hn. rewrite Hn. reflexivity.
  - intros ->. rewrite Z.eqb_refl. reflexivity.
Qed.

(** X19. A mismatch stops the resolver before the credentials. When the
    mode is classified and the transport of the connection does not go with
    it (an encrypted transport with NoSec, a plain-text transport with any
    other mode), the resolver returns [NULL], leaves the connection info as
    it was and releases the block; it reads the mode resource and no other
    resource, and logs one warning that names the mode and the URI
    scheme. *)
Theorem resolver_mismatch_reads_no_credentials (anjay : anjay_t)
    (inout_info : anjay_connection_info_t) (mode : Z)
    (ti : anjay_transport_info_t) :
  dm_i64 anjay
    (security_path (security_iid inout_info) ANJAY_DM_RID_SECURITY_MODE)
  = Some mode ->
  supported mode = true ->
  transport_info inout_info = Some ti ->
  mismatch mode ti ->
  _anjay_connection_security_generic_get_config true anjay inout_info
  = ((None, inout_info),
     [EvCalloc true;
      EvReadI64
        (security_path (security_iid inout_info) ANJAY_DM_RID_SECURITY_MODE);
      EvLog WARNING
        "security mode %d requires %ssecure protocol, but '%s' was configured"
        [ArgInt mode;
         ArgStr (if mode =? ANJAY_SECURITY_NOSEC then "in" else "");
         ArgStr (uri_scheme ti)];
      EvFree true]).
Proof.
  intros Hread Hs Hti Hm.
  unfold _anjay_connection_security_generic_get_config. simpl.
  rewrite (classified _ _ _ Hread Hs), Hti. simpl.
  rewrite (mismatch_fails _ _ Hm). reflexivity.
Qed.

(** X20. NoSec needs nothing. When the mode resource holds the NoSec code
    and the transport, if known, is not an encrypted one, the resolver
    returns the block as the allocation left it (no security info, empty
    keys), leaves a connection info whose [is_encrypted] is [false] and
    whose other fields are as before, and reads the mode resource and no
    credential resource. *)
Theorem resolver_nosec_reads_no_credentials (anjay : anjay_t)
    (inout_info : anjay_connection_info_t) :
  dm_i64 anjay
    (security_path (security_iid inout_info) ANJAY_DM_RID_SECURITY_MODE)
  = Some ANJAY_SECURITY_NOSEC ->
  not_encrypted (transport_info inout_info) ->
  _anjay_connection_security_generic_get_config true anjay inout_info
  = ((Some (fresh_config anjay),
      {| security_iid := security_iid inout_info;
         ssid := ssid inout_info;
         transport_info := transport_info inout_info;
         is_encrypted := false |}),
     [EvCalloc true;
      EvReadI64
        (security_path (security_iid inout_info) ANJAY_DM_RID_SECURITY_MODE);
      EvLog DEBUG "server /%u/%u: security mode = %d"
        [ArgInt (Z.of_N ANJAY_DM_OID_SECURITY);
         ArgInt (Z.of_N (security_iid inout_info));
         ArgInt ANJAY_SECURITY_NOSEC]]).
Proof.
  intros Hread Hti.
  assert (Hs : supported ANJAY_SECURITY_NOSEC = true)
    by (unfold supported; rewrite Z.eqb_refl; reflexivity).
  unfold _anjay_connection_security_generic_get_config. simpl.
  rewrite (classified _ _ _ Hread Hs). simpl.
  assert (Hc : match transport_info inout_info with
               | Some ti => security_matches_transport ANJAY_SECURITY_NOSEC ti
               | None => ret true
               end = (true, [])).
  { unfold not_encrypted in Hti.
    destruct (transport_info inout_info) as [ti|]; [|reflexivity].
    unfold security_matches_transport.
    destruct (security ti); simpl; try rewrite Z.eqb_refl; try reflexivity.
    congruence. }
  rewrite Hc. simpl.
  unfold get_dtls_keys, init_security. rewrite Z.eqb_refl. reflexivity.
Qed.
End Runs.

(** Scenario D: Certificate mode and a plain-text transport. *)
Lemma resolver_mismatch_reads_no_credentials_witness :
  _anjay_connection_security_generic_get_config true
    (anjay_of (Some 2) (Some [Byte.x69]) (Some [Byte.x73]) (Some [Byte.x6b]))
    (info_of (Some {| uri_scheme := "coap"; security := ANJAY_TRANSPORT_NOSEC |}))
  = ((None,
      info_of (Some {| uri_scheme := "coap";
                       security := ANJAY_TRANSPORT_NOSEC |})),
     [EvCalloc true; EvReadI64 (MAKE_RESOURCE_PATH 0 0 2);
      EvLog WARNING
        "security mode %d requires %ssecure protocol, but '%s' was configured"
        [ArgInt 2; ArgStr ""; ArgStr "coap"];
      EvFree true]).
Proof.
  apply (@resolver_mismatch_reads_no_credentials lwm2m_defs
           (anjay_of (Some 2) (Some [Byte.x69]) (Some [Byte.x73])
                     (Some [Byte.x6b]))
           (info_of (Some {| uri_scheme := "coap";
                             security := ANJAY_TRANSPORT_NOSEC |}))
           2 {| uri_scheme := "coap"; security := ANJAY_TRANSPORT_NOSEC |}
           eq_refl eq_refl eq_refl).
  simpl. discriminate.
Defined.

(** A NoSec instance over [coap], reached with a connection info whose
    [is_encrypted] is [true]: the call leaves it [false]. *)
Lemma resolver_nosec_reads_no_credentials_witness :
  _anjay_connection_security_generic_get_config true
    (anjay_of (Some 3) None None None)
    {| security_iid := 0%N; ssid := 7%N;
       transport_info :=
         Some {| uri_scheme := "coap"; security := ANJAY_TRANSPORT_NOSEC |};
       is_encrypted := true |}
  = ((Some (fresh_config (anjay_of (Some 3) None None None)),
      {| security_iid := 0%N; ssid := 7%N;
         transport_info :=
           Some {| uri_scheme := "coap"; security := ANJAY_TRANSPORT_NOSEC |};
         is_encrypted := false |}),
     [EvCalloc true; EvReadI64 (MAKE_RESOURCE_PATH 0 0 2);
      EvLog DEBUG "server /%u/%u: security mode = %d"
        [ArgInt 0; ArgInt 0; ArgInt 3]]).
Proof.
  apply (@resolver_nosec_reads_no_credentials lwm2m_defs
           (anjay_of (Some 3) None None None)
           {| security_iid := 0%N; ssid := 7%N;
              transport_info :=
                Some {| uri_scheme := "coap";
                        security := ANJAY_TRANSPORT_NOSEC |};
              is_encrypted := true |}
           eq_refl).
  simpl. discriminate.
Defined.

Section Outcomes.
Context `{SecurityDefs}.

Lemma check_passes (security_mode : Z) (ti : option anjay_transport_info_t) :
  security_mode <> ANJAY_SECURITY_NOSEC -> not_plain_text ti ->
  match ti with
  | Some t => security_matches_transport security_mode t
  | None => ret true
  end = (true, []).
Proof.
  intros Hn Hp. destruct ti as [t|]; [|reflexivity].
  unfold security_matches_transport. simpl in Hp.
  apply Z.eqb_neq in Hn.
  destruct (security t); simpl; try rewrite Hn; try reflexivity. congruence.
Qed.

(** The resolver from the outcome of its stages, when they all succeed. *)
Lemma get_config_success (anjay : anjay_t)
    (inout_info : anjay_connection_info_t) (m : Z)
    (keys : anjay_server_dtls_keys_t) (security : anjay_security_config_t)
    (record : avs_net_socket_dane_tlsa_record_t) :
  value (get_security_mode anjay (security_iid inout_info)) = Got m ->
  match transport_info inout_info with
  | Some t => value (security_matches_transport m t)
  | None => true
  end = true ->
  value (get_dtls_keys anjay (security_iid inout_info) m
                       (dtls_keys (fresh_config anjay))) = (0, keys) ->
  value (init_security (security_config (fresh_config anjay))
                       (dane_tlsa_record_data (fresh_config anjay)) m keys)
  = (0, security, record) ->
  value (_anjay_connection_security_generic_get_config true anjay inout_info)
  = (Some {| security_config := security; dtls_keys := keys;
             dane_tlsa_record_data := record |},
     set_is_encrypted (negb (m =? ANJAY_SECURITY_NOSEC)) inout_info).
Proof.
  intros Hm Hc Hk Hi.
  unfold _anjay_connection_security_generic_get_config. simpl.
  destruct (get_security_mode anjay (security_iid inout_info)) as [g t1].
  simpl in Hm; subst g. simpl.
  destruct (transport_info inout_info) as [t|].
  - destruct (security_matches_transport m t) as [ok t2]. simpl in Hc; subst ok.
    simpl in *.
    destruct (get_dtls_keys anjay (security_iid inout_info) m _) as [k t3].
    simpl in Hk; subst k. simpl.
    destruct (init_security _ _ m keys) as [i t4]. simpl in Hi; subst i.
    reflexivity.
  - simpl in *.
    destruct (get_dtls_keys anjay (security_iid inout_info) m _) as [k t3].
    simpl in Hk; subst k. simpl.
    destruct (init_security _ _ m keys) as [i t4]. simpl in Hi; subst i.
    reflexivity.
Qed.

(** X22. A whole run in a certificate mode. When the mode resource holds
    the Certificate or the EST code, the transport, if known, is not a
    plain-text one, and the three credential resources are read, the
    resolver returns a descriptor and leaves a connection info whose
    [is_encrypted] is [true] and whose other fields are as before. The
    descriptor
    holds the three values as read, the default ciphersuites of [anjay], the
    local identity as client certificate and the secret key as client key;
    the record next to it has the usage "domain-issued certificate" and the
    peer value as association data, and the configuration points at it,
    with validation and DANE enabled, exactly when the peer value is not
    empty. *)
Theorem resolver_certificate_run (anjay : anjay_t)
    (inout_info : anjay_connection_info_t) (mode : Z) (a b c : bytes) :
  dm_i64 anjay
    (security_path (security_iid inout_info) ANJAY_DM_RID_SECURITY_MODE)
  = Some mode ->
  mode = ANJAY_SECURITY_CERTIFICATE \/ mode = ANJAY_SECURITY_EST ->
  not_plain_text (transport_info inout_info) ->
  dm_bytes anjay
    (security_path (security_iid inout_info)
                   ANJAY_DM_RID_SECURITY_PK_OR_IDENTITY)
    ANJAY_MAX_PK_OR_IDENTITY_SIZE = Some a ->
  dm_bytes anjay
    (security_path (security_iid inout_info)
                   ANJAY_DM_RID_SECURITY_SERVER_PK_OR_IDENTITY)
    ANJAY_MAX_SERVER_PK_OR_IDENTITY_SIZE = Some b ->
  dm_bytes anjay
    (security_path (security_iid inout_info) ANJAY_DM_RID_SECURITY_SECRET_KEY)
    ANJAY_MAX_SECRET_KEY_SIZE = Some c ->
  let pinned := match b with [] => false | _ :: _ => true end in
  value (_anjay_connection_security_generic_get_config true anjay inout_info)
  = (Some
       {| security_config :=
            {| security_info :=
                 avs_net_security_info_from_certificates
                   {| server_cert_validation := pinned;
                      ignore_system_trust_store := true;
                      dane := pinned;
                      client_cert := a;
                      client_key := c |};
               tls_ciphersuites := default_tls_ciphersuites anjay;
               dane_tlsa_record := pinned |};
          dtls_keys :=
            {| pk_or_identity := a; server_pk_or_identity := b;
               secret_key := c |};
          dane_tlsa_record_data :=
            {| certificate_usage :=
                 AVS_NET_SOCKET_DANE_DOMAIN_ISSUED_CERTIFICATE;
               association_data := b |} |},
     {| security_iid := security_iid inout_info;
        ssid := ssid inout_info;
        transport_info := transport_info inout_info;
        is_encrypted := true |}).
Proof.
  intros Hread Hmode Hti Ha Hb Hc pinned.
  destruct SecurityFacts.security_modes_neq
    as (_ & _ & _ & _ & _ & _ & _ & Hcn & _ & Hne).
  assert (Hn : mode <> ANJAY_SECURITY_NOSEC) by (destruct Hmode; congruence).
  assert (Hs : supported mode = true).
  { unfold supported. rewrite !orb_true_iff, !Z.eqb_eq. tauto. }
  pose proof (classified anjay _ _ Hread Hs) as Hg.
  pose proof (check_passes _ _ Hn Hti) as Hck.
  pose proof (SecurityFacts.get_dtls_keys_value anjay (security_iid inout_info)
                mode (dtls_keys (fresh_config anjay)) Hn) as Hk.
  rewrite Ha, Hb, Hc in Hk.
  pose proof (SecurityFacts.init_security_certificate_modes
                (security_config (fresh_config anjay))
                (dane_tlsa_record_data (fresh_config anjay))
                mode
                {| pk_or_identity := a; server_pk_or_identity := b;
                   secret_key := c |} Hmode) as Hi.
  cbv zeta in Hi.
  rewrite (get_config_success anjay inout_info mode
             {| pk_or_identity := a; server_pk_or_identity := b;
                secret_key := c |} _ _
             ltac:(rewrite Hg; reflexivity)
             ltac:(destruct (transport_info inout_info);
                   [rewrite Hck; reflexivity|reflexivity])
             Hk
             ltac:(rewrite Hi; reflexivity)).
  apply Z.eqb_neq in Hn. rewrite Hn. simpl.
  unfold pinned. destruct b; reflexivity.
Qed.

(** X23. A whole run in PSK mode. When the mode resource holds the PSK
    code, the transport, if known, is not a plain-text one, the identity
    and the key are read and the PSK initialiser returns [0], the resolver
    returns a descriptor and leaves a connection info whose [is_encrypted]
    is [true] and whose other fields are as before, whether or not the peer
    resource can be read: the peer field holds what was read, or is empty.
    The descriptor holds the security info of the PSK initialiser, and the
    configuration does not point at the DANE record. *)
Theorem resolver_psk_run (anjay : anjay_t)
    (inout_info : anjay_connection_info_t) (a c : bytes)
    (info : avs_net_security_info_t) :
  let peer :=
    match dm_bytes anjay
            (security_path (security_iid inout_info)
                           ANJAY_DM_RID_SECURITY_SERVER_PK_OR_IDENTITY)
            ANJAY_MAX_SERVER_PK_OR_IDENTITY_SIZE with
    | Some b => b
    | None => []
    end in
  let keys :=
    {| pk_or_identity := a; server_pk_or_identity := peer; secret_key := c |} in
  dm_i64 anjay
    (security_path (security_iid inout_info) ANJAY_DM_RID_SECURITY_MODE)
  = Some ANJAY_SECURITY_PSK ->
  not_plain_text (transport_info inout_info) ->
  dm_bytes anjay
    (security_path (security_iid inout_info)
                   ANJAY_DM_RID_SECURITY_PK_OR_IDENTITY)
    ANJAY_MAX_PK_OR_IDENTITY_SIZE = Some a ->
  dm_bytes anjay
    (security_path (security_iid inout_info) ANJAY_DM_RID_SECURITY_SECRET_KEY)
    ANJAY_MAX_SECRET_KEY_SIZE = Some c ->
  _anjay_connection_init_psk_security keys = (0, info) ->
  value (_anjay_connection_security_generic_get_config true anjay inout_info)
  = (Some
       {| security_config :=
            {| security_info := info;
               tls_ciphersuites := default_tls_ciphersuites anjay;
               dane_tlsa_record := false |};
          dtls_keys := keys;
          dane_tlsa_record_data :=
            {| certificate_usage :=
                 AVS_NET_SOCKET_DANE_DOMAIN_ISSUED_CERTIFICATE;
               association_data := [] |} |},
     {| security_iid := security_iid inout_info;
        ssid := ssid inout_info;
        transport_info := transport_info inout_info;
        is_encrypted := true |}).
Proof.
  intros peer keys Hread Hti Ha Hc Hpsk.
  destruct SecurityFacts.security_modes_neq as (_ & _ & Hpn & _).
  assert (Hs : supported ANJAY_SECURITY_PSK = true).
  { unfold supported. rewrite !orb_true_iff, !Z.eqb_eq. tauto. }
  pose proof (classified anjay _ _ Hread Hs) as Hg.
  pose proof (check_passes _ _ Hpn Hti) as Hck.
  pose proof (SecurityFacts.get_dtls_keys_value anjay (security_iid inout_info)
                ANJAY_SECURITY_PSK (dtls_keys (fresh_config anjay)) Hpn) as Hk.
  rewrite Ha, Hc, Z.eqb_refl in Hk.
  assert (Hk' : value (get_dtls_keys anjay (security_iid inout_info)
                         ANJAY_SECURITY_PSK (dtls_keys (fresh_config anjay)))
                = (0, keys)).
  { rewrite Hk. unfold keys, peer.
    destruct (dm_bytes anjay _ ANJAY_MAX_SERVER_PK_OR_IDENTITY_SIZE);
      reflexivity. }
  assert (Hi : value (init_security (security_config (fresh_config anjay))
                        (dane_tlsa_record_data (fresh_config anjay))
                        ANJAY_SECURITY_PSK keys)
               = (0, with_security_info info
                       (security_config (fresh_config anjay)),
                  dane_tlsa_record_data (fresh_config anjay))).
  { unfold init_security. apply Z.eqb_neq in Hpn. rewrite Hpn, Z.eqb_refl.
    rewrite Hpsk. reflexivity. }
  rewrite (get_config_success anjay inout_info ANJAY_SECURITY_PSK keys _ _
             ltac:(rewrite Hg; reflexivity)
             ltac:(destruct (transport_info inout_info);
                   [rewrite Hck; reflexivity|reflexivity])
             Hk' Hi).
  apply Z.eqb_neq in Hpn. rewrite Hpn. reflexivity.
Qed.

(** X21. Why the resolver fails. The classifier delivers only the four
    supported codes. When the resolver returns [NULL], then the allocation
    failed, or the classifier failed, or the known transport does not go
    with the mode, or the extraction of the keys failed, or the mode is PSK
    and the PSK initialiser failed: for the other modes the initialisation
    cannot fail, and the resolver never logs an unsupported mode from
    there. *)
Theorem resolver_failure_causes (calloc_ok : bool) (anjay : anjay_t)
    (inout_info : anjay_connection_info_t) :
  fst (value (_anjay_connection_security_generic_get_config calloc_ok anjay
                inout_info)) = None ->
  calloc_ok = false
  \/ (exists code,
        value (get_security_mode anjay (security_iid inout_info)) = Err code)
  \/ exists m,
       value (get_security_mode anjay (security_iid inout_info)) = Got m
       /\ supported m = true
       /\ ((exists ti, transport_info inout_info = Some ti /\ mismatch m ti)
           \/ fst (value (get_dtls_keys anjay (security_iid inout_info) m
                            (dtls_keys (fresh_config anjay)))) <> 0
           \/ (m = ANJAY_SECURITY_PSK
               /\ exists keys,
                    value (get_dtls_keys anjay (security_iid inout_info) m
                             (dtls_keys (fresh_config anjay))) = (0, keys)
                    /\ fst (_anjay_connection_init_psk_security keys) <> 0)).
Proof.
  destruct calloc_ok; [|auto]. intros Hnull. right.
  pose proof (get_security_mode_got anjay (security_iid inout_info)) as Hgot.
  unfold _anjay_connection_security_generic_get_config in Hnull.
  simpl in Hnull.
  destruct (get_security_mode anjay (security_iid inout_info)) as [[m|code] t1];
    simpl in *; [|left; eauto].
  right. exists m. destruct (Hgot m eq_refl) as [Hs _].
  split; [reflexivity|]. split; [exact Hs|].
  assert (Hcheck :
            (exists ti, transport_info inout_info = Some ti /\ mismatch m ti)
            \/ match transport_info inout_info with
               | Some ti => security_matches_transport m ti
               | None => ret true
               end
               = (true, snd match transport_info inout_info with
                            | Some ti => security_matches_transport m ti
                            | None => ret true
                            end)).
  { destruct (transport_info inout_info) as [ti|]; [|right; reflexivity].
    unfold security_matches_transport.
    destruct (security ti) eqn:Hsec; simpl; [right; reflexivity| |];
      destruct (Z.eqb_spec m ANJAY_SECURITY_NOSEC); simpl;
      try (right; reflexivity);
      left; exists ti; (split; [reflexivity|]);
      unfold mismatch; rewrite Hsec; assumption. }
  destruct Hcheck as [Hmis|Hck]; [left; exact Hmis|right].
  rewrite Hck in Hnull. simpl in Hnull.
  destruct (get_dtls_keys anjay (security_iid inout_info) m _)
    as [[kres keys] t3]; simpl in *.
  destruct (Z.eqb_spec kres 0) as [->|Hk]; simpl in Hnull; [|left; exact Hk].
  right. unfold init_security in Hnull.
  destruct (Z.eqb_spec m ANJAY_SECURITY_NOSEC); [discriminate|].
  destruct (Z.eqb_spec m ANJAY_SECURITY_PSK) as [->|Hp].
  - split; [reflexivity|]. exists keys. split; [reflexivity|].
    destruct (_anjay_connection_init_psk_security keys) as [r i].
    simpl in *. destruct (Z.eqb_spec r 0); [discriminate|assumption].
  - exfalso. unfold supported in Hs.
    destruct ((m =? ANJAY_SECURITY_CERTIFICATE) || (m =? ANJAY_SECURITY_EST))
      eqn:Hce.
    + unfold init_cert_security in Hnull.
      destruct (0 <? List.length (server_pk_or_identity keys))%nat;
        simpl in Hnull; discriminate.
    + rewrite !orb_true_iff, !Z.eqb_eq in Hs.
      rewrite orb_false_iff, !Z.eqb_neq in Hce. tauto.
Qed.
End Outcomes.

Lemma resolver_certificate_run_witness :
  value (_anjay_connection_security_generic_get_config true
           (anjay_of (Some 4) (Some [Byte.x69]) (Some [Byte.x73])
                     (Some [Byte.x6b]))
           {| security_iid := 0%N; ssid := 1%N; transport_info := None;
              is_encrypted := false |})
  = (Some
      {| security_config :=
           {| security_info :=
                avs_net_security_info_from_certificates
                  {| server_cert_validation := true;
                     ignore_system_trust_store := true;
                     dane := true;
                     client_cert := [Byte.x69];
                     client_key := [Byte.x6b] |};
              tls_ciphersuites := [];
              dane_tlsa_record := true |};
         dtls_keys :=
           {| pk_or_identity := [Byte.x69];
              server_pk_or_identity := [Byte.x73];
              secret_key := [Byte.x6b] |};
         dane_tlsa_record_data :=
           {| certificate_usage := AVS_NET_SOCKET_DANE_DOMAIN_ISSUED_CERTIFICATE;
              association_data := [Byte.x73] |} |},
     {| security_iid := 0%N; ssid := 1%N; transport_info := None;
        is_encrypted := true |}).
Proof.
  exact (@resolver_certificate_run lwm2m_defs
           (anjay_of (Some 4) (Some [Byte.x69]) (Some [Byte.x73])
                     (Some [Byte.x6b]))
           {| security_iid := 0%N; ssid := 1%N; transport_info := None;
              is_encrypted := false |}
           4 [Byte.x69] [Byte.x73] [Byte.x6b]
           eq_refl (or_intror eq_refl) I eq_refl eq_refl eq_refl).
Defined.

(** Scenario C as a whole run. *)
Lemma resolver_psk_run_witness :
  value (_anjay_connection_security_generic_get_config true
           (anjay_of (Some 0) (Some [Byte.x69]) None (Some [Byte.x6b]))
           {| security_iid := 0%N; ssid := 1%N; transport_info := None;
              is_encrypted := false |})
  = (Some
      {| security_config :=
           {| security_info :=
                avs_net_security_info_from_psk
                  {| psk := [Byte.x6b]; identity := [Byte.x69] |};
              tls_ciphersuites := [];
              dane_tlsa_record := false |};
         dtls_keys :=
           {| pk_or_identity := [Byte.x69]; server_pk_or_identity := [];
              secret_key := [Byte.x6b] |};
         dane_tlsa_record_data :=
           {| certificate_usage := AVS_NET_SOCKET_DANE_DOMAIN_ISSUED_CERTIFICATE;
              association_data := [] |} |},
     {| security_iid := 0%N; ssid := 1%N; transport_info := None;
        is_encrypted := true |}).
Proof.
  exact (@resolver_psk_run lwm2m_defs
           (anjay_of (Some 0) (Some [Byte.x69]) None (Some [Byte.x6b]))
           {| security_iid := 0%N; ssid := 1%N; transport_info := None;
              is_encrypted := false |}
           [Byte.x69] [Byte.x6b]
           (avs_net_security_info_from_psk
              {| psk := [Byte.x6b]; identity := [Byte.x69] |})
           eq_refl I eq_refl eq_refl eq_refl).
Defined.

Lemma resolver_failure_causes_witness :
  exists m,
    value (get_security_mode
             (anjay_of (Some 2) (Some [Byte.x69]) None (Some [Byte.x6b])) 0)
    = Got m
    /\ supported m = true.
Proof.
  destruct (@resolver_failure_causes lwm2m_defs true
              (anjay_of (Some 2) (Some [Byte.x69]) None (Some [Byte.x6b]))
              (info_of None) eq_refl)
    as [Hc|[(code & He)|(m & Hm & Hs & _)]].
  - discriminate Hc.
  - discriminate He.
  - exists m. split; assumption.
Defined.

Section Uri.
Context `{SecurityDefs}.
Variable ANJAY_DM_RID_SECURITY_SERVER_URI : N.
Variable ANJAY_MAX_URL_RAW_LENGTH : N.
Variable _anjay_dm_read_resource_string :
  anjay_t -> anjay_uri_path_t -> N -> option string.
Variable avs_url_t : Type.
Variable avs_url_parse_lenient : string -> option avs_url_t.
Variable avs_url_protocol : avs_url_t -> string.
Variable avs_url_user : avs_url_t -> option string.
Variable avs_url_password : avs_url_t -> option string.
Variable avs_url_port : avs_url_t -> option string.
Variable _anjay_transport_info_by_uri_scheme :
  string -> option anjay_transport_info_t.

(** X18. Which server URIs are taken. Called with both outputs [NULL],
    [_anjay_connection_security_generic_get_uri] reads the Server URI
    resource. If the read fails it returns [-1] without parsing anything.
    If the string parses as a URL whose scheme is known, that names neither
    a user nor a password and whose port, if given, is not empty, it returns
    [0] with the parsed URL and the transport of its scheme. Otherwise it
    returns [-1], both outputs are [NULL], and the URL is freed exactly when
    it had been parsed. An output that is not [NULL] at the call fails an
    assertion. *)
Theorem security_get_uri_outcomes (anjay : anjay_t) (security_iid : N) :
  let get_uri :=
    _anjay_connection_security_generic_get_uri
      ANJAY_DM_RID_SECURITY_SERVER_URI ANJAY_MAX_URL_RAW_LENGTH
      _anjay_dm_read_resource_string avs_url_parse_lenient avs_url_protocol
      avs_url_user avs_url_password avs_url_port
      _anjay_transport_info_by_uri_scheme anjay security_iid in
  let path :=
    security_path security_iid ANJAY_DM_RID_SECURITY_SERVER_URI in
  match _anjay_dm_read_resource_string anjay path ANJAY_MAX_URL_RAW_LENGTH with
  | None =>
      get_uri None None
      = Some ((-1, None, None),
              [UriRead path;
               UriLog ERROR "could not read LwM2M server URI from %s"
                      [ArgPath path]])
  | Some raw_uri =>
      if acceptable_uri avs_url_parse_lenient avs_url_protocol avs_url_user
           avs_url_password avs_url_port _anjay_transport_info_by_uri_scheme
           raw_uri
      then
        exists uri ti,
          avs_url_parse_lenient raw_uri = Some uri
          /\ _anjay_transport_info_by_uri_scheme (avs_url_protocol uri)
             = Some ti
          /\ avs_url_user uri = None
          /\ avs_url_password uri = None
          /\ avs_url_port uri <> Some EmptyString
          /\ get_uri None None = Some ((0, Some uri, Some ti), [UriRead path])
      else
        get_uri None None
        = Some ((-1, None, None),
                [UriRead path]
                ++ (if is_some (avs_url_parse_lenient raw_uri)
                    then [UriFree] else [])
                ++ [UriLog ERROR "could not parse LwM2M server URI: %s"
                           [ArgStr raw_uri]])
  end
  /\ (forall uri ti, get_uri (Some uri) ti = None)
  /\ (forall uri ti, get_uri uri (Some ti) = None).
Proof.
  cbv zeta. unfold _anjay_connection_security_generic_get_uri, security_path,
    acceptable_uri.
  split; [|split; [reflexivity|intros [u|] ti; reflexivity]].
  simpl.
  destruct (_anjay_dm_read_resource_string anjay _ ANJAY_MAX_URL_RAW_LENGTH)
    as [raw|]; [|reflexivity].
  destruct (avs_url_parse_lenient raw) as [uri|] eqn:Hparse; simpl;
    [|reflexivity].
  destruct (_anjay_transport_info_by_uri_scheme (avs_url_protocol uri))
    as [ti|] eqn:Hscheme; simpl; [|reflexivity].
  destruct (avs_url_user uri) as [u|] eqn:Hu; simpl; [reflexivity|].
  destruct (avs_url_password uri) as [pw|] eqn:Hp; simpl; [reflexivity|].
  destruct (avs_url_port uri) as [[|ch port]|] eqn:Hport; simpl;
    try reflexivity;
    exists uri, ti; rewrite ?Hu, ?Hp, ?Hport;
    repeat split; try reflexivity; try assumption; discriminate.
Qed.
End Uri.

End SecurityExtras.
